(** * generate-content.js: the daily health-content generator

    A shallow embedding of [src/generate-content.js] together with the
    properties of its request / extract / overwrite-date / write pipeline.

    Representation choices, all following the script:
    - a JavaScript string is a Rocq [string] holding the UTF-8 bytes of the
      text (a lone surrogate code unit is held as its three-byte generalised
      encoding).  Every character the script and the JSON grammar inspect is
      ASCII, and an ASCII byte never occurs inside a multi-byte sequence, so
      scanning bytes and scanning code units find the same delimiters;
    - the ambient process state (clock, environment, working directory,
      file system, the HTTP transport, the stack of the engine) is an
      explicit [World] record;
    - exceptions and console / file-system effects are threaded through a
      small state-and-error monad. *)

From Stdlib Require Import ZArith NArith String Ascii List Bool Lia.
From stdpp Require Import gmap strings list fin_maps pretty.

Local Open Scope string_scope.

(** ** Strings *)

Module JsString.

(** The double-quote character, and a text wrapped in double quotes. *)
Definition dq : string := String "034"%char EmptyString.
Definition quoted (s : string) : string := dq +:+ s +:+ dq.

(** The line feed used by template literals and by [JSON.stringify]. *)
Definition nl : string := String "010"%char EmptyString.

Fixpoint lines (l : list string) : string :=
  match l with
  | [] => EmptyString
  | [x] => x
  | x :: rest => x +:+ nl +:+ lines rest
  end.

Fixpoint join (sep : string) (l : list string) : string :=
  match l with
  | [] => EmptyString
  | [x] => x
  | x :: rest => x +:+ sep +:+ join sep rest
  end.

(** [contains c s]: the character [c] occurs in [s]. *)
Fixpoint contains (c : ascii) (s : string) : bool :=
  match s with
  | EmptyString => false
  | String d s' => Ascii.eqb c d || contains c s'
  end.

(** [take n s]: the first [n] units of [s]. *)
Fixpoint take (n : nat) (s : string) : string :=
  match n, s with
  | S n', String c s' => String c (take n' s')
  | _, _ => EmptyString
  end.

(** [s.replace(/\//g, '-')]: every occurrence of [from] becomes [to]. *)
Fixpoint replace_all (from to : ascii) (s : string) : string :=
  match s with
  | EmptyString => EmptyString
  | String c s' =>
      String (if Ascii.eqb c from then to else c) (replace_all from to s')
  end.

Fixpoint ends_with_slash (s : string) : bool :=
  match s with
  | EmptyString => false
  | String c EmptyString => Ascii.eqb c "/"
  | String _ r => ends_with_slash r
  end.

End JsString.

(** ** The regular expression of line 75 *)

Module Regex.

(** The fragment of the pattern language that [/\{[\s\S]*\}/] uses: a
    literal character, and the greedy star of the class [[\s\S]], which
    accepts every code unit (line terminators included). *)
Inductive node : Type :=
  | Lit (c : ascii)
  | StarAny.

Definition pattern : Type := list node.

(** [match_here p s]: the backtracking matcher anchored at the start of
    [s]; the result is the length of the match.  [StarAny] is greedy: it
    first tries to take one more character, and gives characters back one
    by one when the rest of the pattern fails. *)
Fixpoint match_here (p : pattern) (s : string) : option nat :=
  match p with
  | [] => Some 0
  | Lit c :: p' =>
      match s with
      | String d s' =>
          if Ascii.eqb c d then option_map S (match_here p' s') else None
      | EmptyString => None
      end
  | StarAny :: p' =>
      (fix star (t : string) : option nat :=
         match t with
         | EmptyString => match_here p' t
         | String _ t' =>
             match star t' with
             | Some n => Some (S n)
             | None => match_here p' t
             end
         end) s
  end.

(** [exec p s]: the first match, trying start positions from left to
    right (a regular expression without the [g] and [y] flags); the result
    is the start index and the matched text. *)
Fixpoint exec_from (p : pattern) (i : nat) (s : string) : option (nat * string) :=
  match match_here p s with
  | Some n => Some (i, JsString.take n s)
  | None =>
      match s with
      | EmptyString => None
      | String _ s' => exec_from p (S i) s'
      end
  end.

Definition exec (p : pattern) (s : string) : option (nat * string) :=
  exec_from p 0 s.

(** [/\{[\s\S]*\}/] *)
Definition braces : pattern := [Lit "{"; StarAny; Lit "}"].

End Regex.

(** [aiReply.match(/\{[\s\S]*\}/)] followed by [jsonMatch[0]]: [None] is
    the [null] of a failed match. *)
Definition extract_json (aiReply : string) : option string :=
  option_map snd (Regex.exec Regex.braces aiReply).

(** ** JSON values

    [JSON.parse] turns a number token into an IEEE-754 double and
    [JSON.stringify] prints the shortest decimal that reads back as that
    double.  Binary floating point is left abstract: the development is
    parametric in the type of numbers and in the two conversions, and no
    property below depends on how they behave. *)

Class Number : Type := {
  number : Type;
  (** the double denoted by a numeric literal *)
  number_of_literal : string -> number;
  (** [Number::toString] for a finite value, [null] otherwise *)
  number_to_json : number -> string
}.

Module Json.

(** What a parser returns: a value and the input that follows it, a
    syntax error, or the exhaustion of its fuel. *)
Inductive presult (A : Type) : Type :=
  | POk (a : A) (rest : string)
  | PSyntaxError
  | POutOfFuel.
Arguments POk {A} a rest.
Arguments PSyntaxError {A}.
Arguments POutOfFuel {A}.

Section WithNumber.
Context `{Num : Number}.

(** A value produced by [JSON.parse].  The members of an object are listed
    in property-enumeration order. *)
#[warnings="-register-all"]
Inductive json : Type :=
  | JNull
  | JBool (b : bool)
  | JNumber (n : number)
  | JString (s : string)
  | JArray (items : list json)
  | JObject (props : list (string * json)).

(** *** Ordinary objects: own data properties in enumeration order *)

Definition is_digit (c : ascii) : bool :=
  (48 <=? N_of_ascii c)%N && (N_of_ascii c <=? 57)%N.

Fixpoint digits_value (acc : N) (s : string) : option N :=
  match s with
  | EmptyString => Some acc
  | String c r =>
      if is_digit c
      then digits_value (10 * acc + (N_of_ascii c - 48))%N r
      else None
  end.

(** An array index is a canonical numeric string below 2^32 - 1; such
    keys are enumerated first, in ascending order. *)
Definition array_index (k : string) : option N :=
  match k with
  | EmptyString => None
  | String c r =>
      if Ascii.eqb c "0" && negb (String.eqb r EmptyString) then None
      else match digits_value 0 k with
           | Some n => if (n <? 4294967295)%N then Some n else None
           | None => None
           end
  end.

Fixpoint obj_get (k : string) (props : list (string * json)) : option json :=
  match props with
  | [] => None
  | (k', v) :: r => if String.eqb k k' then Some v else obj_get k r
  end.

Definition obj_has (k : string) (props : list (string * json)) : bool :=
  match obj_get k props with Some _ => true | None => false end.

Fixpoint obj_replace (k : string) (v : json) (props : list (string * json))
  : list (string * json) :=
  match props with
  | [] => []
  | (k', v') :: r =>
      if String.eqb k k' then (k', v) :: r else (k', v') :: obj_replace k v r
  end.

Fixpoint obj_insert_index (i : N) (k : string) (v : json)
    (props : list (string * json)) : list (string * json) :=
  match props with
  | [] => [(k, v)]
  | (k', v') :: r =>
      match array_index k' with
      | Some j =>
          if (j <? i)%N then (k', v') :: obj_insert_index i k v r
          else (k, v) :: props
      | None => (k, v) :: props
      end
  end.

(** [o[k] = v] on an ordinary object whose prototype chain has no setter
    for [k]: an existing property keeps its place and takes the new value;
    a new one is created, after the existing string keys or among the
    array-index keys. *)
Definition obj_set (k : string) (v : json) (props : list (string * json))
  : list (string * json) :=
  if obj_has k props then obj_replace k v props
  else match array_index k with
       | Some i => obj_insert_index i k v props
       | None => props ++ [(k, v)]
       end.

Definition keys (props : list (string * json)) : list string := map fst props.

(** *** JSON.parse *)

Definition is_ws (c : ascii) : bool :=
  Ascii.eqb c " " || Ascii.eqb c "009" || Ascii.eqb c "010" || Ascii.eqb c "013".

Fixpoint skip_ws (s : string) : string :=
  match s with
  | String c r => if is_ws c then skip_ws r else s
  | EmptyString => s
  end.

Definition hex_value (c : ascii) : option N :=
  let n := N_of_ascii c in
  if (48 <=? n)%N && (n <=? 57)%N then Some (n - 48)%N
  else if (65 <=? n)%N && (n <=? 70)%N then Some (n - 55)%N
  else if (97 <=? n)%N && (n <=? 102)%N then Some (n - 87)%N
  else None.

Definition hex4 (a b c d : ascii) : option N :=
  match hex_value a, hex_value b, hex_value c, hex_value d with
  | Some x, Some y, Some z, Some t => Some (4096 * x + 256 * y + 16 * z + t)%N
  | _, _, _, _ => None
  end.

Definition byte (n : N) : ascii := ascii_of_N n.

(** The bytes that hold one UTF-16 code unit [u]. *)
Definition encode_unit (u : N) : string :=
  if (u <? 128)%N then String (byte u) EmptyString
  else if (u <? 2048)%N then
    String (byte (192 + u / 64)) (String (byte (128 + u mod 64)) EmptyString)
  else
    String (byte (224 + u / 4096))
      (String (byte (128 + (u / 64) mod 64))
         (String (byte (128 + u mod 64)) EmptyString)).

(** The code unit held by the three bytes [237 b2 b3] (the range D000 to
    DFFF; surrogates have [b2] at or above 160). *)
Definition unit_of_ed (b2 b3 : ascii) : N :=
  (53248 + 64 * (N_of_ascii b2 mod 64) + N_of_ascii b3 mod 64)%N.

Definition is_high (b2 : ascii) : bool :=
  (160 <=? N_of_ascii b2)%N && (N_of_ascii b2 <=? 175)%N.
Definition is_low (b2 : ascii) : bool :=
  (176 <=? N_of_ascii b2)%N && (N_of_ascii b2 <=? 191)%N.

Definition encode_pair (hi lo : N) : string :=
  let cp := (65536 + 1024 * (hi - 55296) + (lo - 56320))%N in
  String (byte (240 + cp / 262144))
    (String (byte (128 + (cp / 4096) mod 64))
       (String (byte (128 + (cp / 64) mod 64))
          (String (byte (128 + cp mod 64)) EmptyString))).

(** A high surrogate directly followed by a low surrogate is one code
    point, held in four bytes. *)
Fixpoint merge_surrogates (s : string) : string :=
  match s with
  | EmptyString => EmptyString
  | String c1 r1 =>
      match r1 with
      | String c2 (String c3 (String c4 (String c5 (String c6 r6)))) =>
          if Ascii.eqb c1 "237" && is_high c2 && Ascii.eqb c4 "237" && is_low c5
          then encode_pair (unit_of_ed c2 c3) (unit_of_ed c5 c6)
                 +:+ merge_surrogates r6
          else String c1 (merge_surrogates r1)
      | _ => String c1 (merge_surrogates r1)
      end
  end.

Definition cons_to (p : string) (r : option (string * string))
  : option (string * string) :=
  match r with
  | Some (t, rest) => Some (p +:+ t, rest)
  | None => None
  end.

Definition one (c : ascii) : string := String c EmptyString.

(** The characters of a string literal after its opening quote, up to and
    including the closing quote: the decoded text and the remaining
    input.  [None] is a syntax error. *)
Fixpoint parse_chars (s : string) : option (string * string) :=
  match s with
  | EmptyString => None
  | String c r =>
      if Ascii.eqb c "034" then Some (EmptyString, r)
      else if Ascii.eqb c "\" then
        match r with
        | EmptyString => None
        | String e r1 =>
            if Ascii.eqb e "034" then cons_to (one "034") (parse_chars r1)
            else if Ascii.eqb e "\" then cons_to (one "\") (parse_chars r1)
            else if Ascii.eqb e "/" then cons_to (one "/") (parse_chars r1)
            else if Ascii.eqb e "b" then cons_to (one "008") (parse_chars r1)
            else if Ascii.eqb e "f" then cons_to (one "012") (parse_chars r1)
            else if Ascii.eqb e "n" then cons_to (one "010") (parse_chars r1)
            else if Ascii.eqb e "r" then cons_to (one "013") (parse_chars r1)
            else if Ascii.eqb e "t" then cons_to (one "009") (parse_chars r1)
            else if Ascii.eqb e "u" then
              match r1 with
              | String h1 (String h2 (String h3 (String h4 r2))) =>
                  match hex4 h1 h2 h3 h4 with
                  | Some u => cons_to (encode_unit u) (parse_chars r2)
                  | None => None
                  end
              | _ => None
              end
            else None
        end
      else if (N_of_ascii c <? 32)%N then None
      else cons_to (one c) (parse_chars r)
  end.

Definition parse_string (s : string) : option (string * string) :=
  match parse_chars s with
  | Some (t, rest) => Some (merge_surrogates t, rest)
  | None => None
  end.

Fixpoint span_digits (s : string) : string * string :=
  match s with
  | String c r =>
      if is_digit c
      then let '(ds, rest) := span_digits r in (String c ds, rest)
      else (EmptyString, s)
  | EmptyString => (EmptyString, s)
  end.

(** The longest prefix of [s] that is a JSON number token: an optional
    minus sign; an integer part, either a single zero or a non-zero digit
    followed by digits; an optional fraction, a dot and at least one
    digit; an optional exponent, [e] or [E], an optional sign and at least
    one digit. *)
Definition lex_number (s : string) : option (string * string) :=
  let '(sign, s1) :=
    match s with
    | String c r => if Ascii.eqb c "-" then ("-", r) else (EmptyString, s)
    | EmptyString => (EmptyString, s)
    end in
  match s1 with
  | EmptyString => None
  | String c r =>
      if negb (is_digit c) then None
      else
        let '(int, s2) :=
          if Ascii.eqb c "0" then ("0", r)
          else let '(ds, rest) := span_digits r in (String c ds, rest) in
        let frac :=
          match s2 with
          | String d r2 =>
              if Ascii.eqb d "." then
                let '(ds, rest) := span_digits r2 in
                match ds with
                | EmptyString => None
                | _ => Some ("." +:+ ds, rest)
                end
              else Some (EmptyString, s2)
          | EmptyString => Some (EmptyString, s2)
          end in
        match frac with
        | None => None
        | Some (fr, s3) =>
            let exp :=
              match s3 with
              | String e r3 =>
                  if Ascii.eqb e "e" || Ascii.eqb e "E" then
                    let '(sg, r4) :=
                      match r3 with
                      | String g r3' =>
                          if Ascii.eqb g "+" || Ascii.eqb g "-"
                          then (String g EmptyString, r3')
                          else (EmptyString, r3)
                      | EmptyString => (EmptyString, r3)
                      end in
                    let '(ds, rest) := span_digits r4 in
                    match ds with
                    | EmptyString => None
                    | _ => Some (String e sg +:+ ds, rest)
                    end
                  else Some (EmptyString, s3)
              | EmptyString => Some (EmptyString, s3)
              end in
            match exp with
            | None => None
            | Some (ex, s4) => Some (sign +:+ int +:+ fr +:+ ex, s4)
            end
        end
  end.

(** [strip_prefix p s]: what follows [p] in [s], when [s] starts with [p]. *)
Fixpoint strip_prefix (p s : string) : option string :=
  match p, s with
  | EmptyString, _ => Some s
  | String a p', String b s' => if Ascii.eqb a b then strip_prefix p' s' else None
  | String _ _, EmptyString => None
  end.

(** A scalar token: a string, a keyword or a number. *)
Definition parse_scalar (c : ascii) (s : string) : presult json :=
  match s with
  | EmptyString => PSyntaxError
  | String _ r =>
      if Ascii.eqb c "034" then
        match parse_string r with
        | Some (t, rest) => POk (JString t) rest
        | None => PSyntaxError
        end
      else
        match strip_prefix "true" s, strip_prefix "false" s, strip_prefix "null" s with
        | Some rest, _, _ => POk (JBool true) rest
        | _, Some rest, _ => POk (JBool false) rest
        | _, _, Some rest => POk JNull rest
        | None, None, None =>
            match lex_number s with
            | Some (lexeme, rest) => POk (JNumber (number_of_literal lexeme)) rest
            | None => PSyntaxError
            end
        end
  end.

(** The recursive-descent parser of the JSON grammar.  The members of an
    object are defined one after the other in source order, so a repeated
    key keeps the last value.  [fuel] bounds the number of nested calls;
    [parse_fuel] below is always enough. *)
Fixpoint parse_value (fuel : nat) (s : string) : presult json :=
  match fuel with
  | O => POutOfFuel
  | S fuel' =>
      match skip_ws s with
      | EmptyString => PSyntaxError
      | String c r as t =>
          if Ascii.eqb c "{" then
            match skip_ws r with
            | EmptyString => PSyntaxError
            | String d r' as t' =>
                if Ascii.eqb d "}" then POk (JObject []) r'
                else parse_members fuel' [] t'
            end
          else if Ascii.eqb c "[" then
            match skip_ws r with
            | EmptyString => PSyntaxError
            | String d r' as t' =>
                if Ascii.eqb d "]" then POk (JArray []) r'
                else parse_elements fuel' [] t'
            end
          else parse_scalar c t
      end
  end
with parse_elements (fuel : nat) (acc : list json) (s : string) : presult json :=
  match fuel with
  | O => POutOfFuel
  | S fuel' =>
      match parse_value fuel' s with
      | POk v r =>
          match skip_ws r with
          | EmptyString => PSyntaxError
          | String d r' =>
              if Ascii.eqb d "," then parse_elements fuel' (acc ++ [v]) r'
              else if Ascii.eqb d "]" then POk (JArray (acc ++ [v])) r'
              else PSyntaxError
          end
      | PSyntaxError => PSyntaxError
      | POutOfFuel => POutOfFuel
      end
  end
with parse_members (fuel : nat) (acc : list (string * json)) (s : string)
  : presult json :=
  match fuel with
  | O => POutOfFuel
  | S fuel' =>
      match skip_ws s with
      | EmptyString => PSyntaxError
      | String q r =>
          if negb (Ascii.eqb q "034") then PSyntaxError
          else
            match parse_string r with
            | None => PSyntaxError
            | Some (k, r1) =>
                match skip_ws r1 with
                | EmptyString => PSyntaxError
                | String colon r2 =>
                    if negb (Ascii.eqb colon ":") then PSyntaxError
                    else
                      match parse_value fuel' r2 with
                      | POk v r3 =>
                          match skip_ws r3 with
                          | EmptyString => PSyntaxError
                          | String d r4 =>
                              if Ascii.eqb d "," then
                                parse_members fuel' (obj_set k v acc) r4
                              else if Ascii.eqb d "}" then
                                POk (JObject (obj_set k v acc)) r4
                              else PSyntaxError
                          end
                      | PSyntaxError => PSyntaxError
                      | POutOfFuel => POutOfFuel
                      end
                end
            end
      end
  end.

Definition parse_fuel (text : string) : nat := 2 * String.length text + 2.

(** [JSON.parse(text)]: one value, with optional white space around it.
    [None] stands for the [SyntaxError] the call throws. *)
Definition JSON_parse (text : string) : option json :=
  match parse_value (parse_fuel text) text with
  | POk v rest =>
      match skip_ws rest with
      | EmptyString => Some v
      | String _ _ => None
      end
  | PSyntaxError => None
  | POutOfFuel => None
  end.

(** *** JSON.stringify *)

Definition hex_digit (n : N) : ascii :=
  if (n <? 10)%N then byte (48 + n) else byte (87 + n).

Definition hex4_of (u : N) : string :=
  String (hex_digit (u / 4096))
    (String (hex_digit ((u / 256) mod 16))
       (String (hex_digit ((u / 16) mod 16))
          (String (hex_digit (u mod 16)) EmptyString))).

(** The body of [QuoteJSONString]: the quote, the backslash and the
    control characters are escaped, and so is a surrogate that has no
    partner; everything else is copied. *)
Fixpoint quote_chars (s : string) : string :=
  match s with
  | EmptyString => EmptyString
  | String c r =>
      if Ascii.eqb c "034" then "\" +:+ one "034" +:+ quote_chars r
      else if Ascii.eqb c "\" then "\\" +:+ quote_chars r
      else if Ascii.eqb c "008" then "\b" +:+ quote_chars r
      else if Ascii.eqb c "012" then "\f" +:+ quote_chars r
      else if Ascii.eqb c "010" then "\n" +:+ quote_chars r
      else if Ascii.eqb c "013" then "\r" +:+ quote_chars r
      else if Ascii.eqb c "009" then "\t" +:+ quote_chars r
      else if (N_of_ascii c <? 32)%N then
        "\u" +:+ hex4_of (N_of_ascii c) +:+ quote_chars r
      else
        match r with
        | String b2 (String b3 r') =>
            if Ascii.eqb c "237" && (160 <=? N_of_ascii b2)%N
            then "\u" +:+ hex4_of (unit_of_ed b2 b3) +:+ quote_chars r'
            else String c (quote_chars r)
        | _ => String c (quote_chars r)
        end
  end.

Definition quote (s : string) : string := JsString.quoted (quote_chars s).

(** [SerializeJSONProperty] with the indentation unit [gap] and the
    current indentation [indent].  A parsed value holds no function, no
    [undefined] and no [toJSON] method, so every member is printed. *)
Fixpoint serialize (gap indent : string) (v : json) : string :=
  let inner := indent +:+ gap in
  let wrap (open close : string) (parts : list string) : string :=
    match parts with
    | [] => open +:+ close
    | _ =>
        match gap with
        | EmptyString => open +:+ JsString.join "," parts +:+ close
        | _ =>
            open +:+ JsString.nl +:+ inner
              +:+ JsString.join ("," +:+ JsString.nl +:+ inner) parts
              +:+ JsString.nl +:+ indent +:+ close
        end
    end in
  let colon := match gap with EmptyString => ":" | _ => ": " end in
  match v with
  | JNull => "null"
  | JBool true => "true"
  | JBool false => "false"
  | JNumber n => number_to_json n
  | JString s => quote s
  | JArray items => wrap "[" "]" (map (serialize gap inner) items)
  | JObject props =>
      wrap "{" "}"
        (map (fun kv => quote (fst kv) +:+ colon +:+ serialize gap inner (snd kv))
           props)
  end.

(** [JSON.stringify(v)] and [JSON.stringify(v, null, 2)]. *)
Definition JSON_stringify (v : json) : string := serialize EmptyString EmptyString v.
Definition JSON_stringify_2 (v : json) : string := serialize "  " EmptyString v.

(** *** Reading a property *)

(** The code units of a string, each one as the bytes that hold it; a code
    point above FFFF is two units. *)
Fixpoint units (s : string) : list string :=
  match s with
  | EmptyString => []
  | String c1 r1 =>
      let n1 := N_of_ascii c1 in
      if (n1 <? 192)%N then one c1 :: units r1
      else
        match r1 with
        | EmptyString => [one c1]
        | String c2 r2 =>
            if (n1 <? 224)%N then String c1 (one c2) :: units r2
            else
              match r2 with
              | EmptyString => [String c1 (one c2)]
              | String c3 r3 =>
                  if (n1 <? 240)%N then String c1 (String c2 (one c3)) :: units r3
                  else
                    match r3 with
                    | EmptyString => [String c1 (String c2 (one c3))]
                    | String c4 r4 =>
                        let cp := (262144 * (n1 mod 8) + 4096 * (N_of_ascii c2 mod 64)
                                   + 64 * (N_of_ascii c3 mod 64) + N_of_ascii c4 mod 64)%N in
                        encode_unit (55296 + (cp - 65536) / 1024)
                          :: encode_unit (56320 + (cp - 65536) mod 1024)
                          :: units r4
                    end
              end
        end
  end.

End WithNumber.

Arguments json {Num}.

End Json.

Import JsString Json.

(** ** The date of line 15 *)

Module JsDate.

(** Days since 1970-01-01 to the proleptic Gregorian year, month, day. *)
Definition civil_from_days (days : Z) : Z * Z * Z :=
  let z := (days + 719468)%Z in
  let era := (z / 146097)%Z in
  let doe := (z - era * 146097)%Z in
  let yoe := ((doe - doe / 1460 + doe / 36524 - doe / 146096) / 365)%Z in
  let doy := (doe - (365 * yoe + yoe / 4 - yoe / 100))%Z in
  let mp := ((5 * doy + 2) / 153)%Z in
  let d := (doy - (153 * mp + 2) / 5 + 1)%Z in
  let m := (if (mp <? 10)%Z then mp + 3 else mp - 9)%Z in
  let y := (yoe + era * 400 + (if (m <=? 2)%Z then 1 else 0))%Z in
  (y, m, d).

(** The zone Asia/Shanghai in the time zone database: the instants, in
    seconds since the epoch, at which its offset from UTC changes, each
    with the offset in seconds that holds from then on.  The zone was on
    local mean time, 8:05:43 ahead of UTC, until 1901; it has been eight
    hours ahead since, nine during the summers of 1919, 1940 to 1949 and
    1986 to 1991. *)
Definition shanghai_lmt : Z := 29143.

Definition shanghai_transitions : list (Z * Z) :=
  [(-2177481943, 28800); (-1600675200, 32400); (-1585904400, 28800);
   (-933667200, 32400); (-922093200, 28800); (-908870400, 32400);
   (-888829200, 28800); (-881049600, 32400); (-767869200, 28800);
   (-745833600, 32400); (-733827600, 28800); (-716889600, 32400);
   (-699613200, 28800); (-683884800, 32400); (-670669200, 28800);
   (-652348800, 32400); (-650019600, 28800); (515527200, 32400);
   (527014800, 28800); (545162400, 32400); (558464400, 28800);
   (577216800, 32400); (589914000, 28800); (608666400, 32400);
   (621968400, 28800); (640116000, 32400); (653418000, 28800);
   (671565600, 32400); (684867600, 28800)]%Z.

(** The offset of the zone at the instant [ms], in milliseconds: that of
    the last change not after [ms]. *)
Definition shanghai_offset (ms : Z) : Z :=
  (1000 * fold_left
            (fun offset change =>
               if (1000 * fst change <=? ms)%Z then snd change else offset)
            shanghai_transitions shanghai_lmt)%Z.

(** The civil date in the zone Asia/Shanghai at the instant [ms]
    (milliseconds since the epoch). *)
Definition shanghai_date (ms : Z) : Z * Z * Z :=
  civil_from_days ((ms + shanghai_offset ms) / 86400000)%Z.

(** [today.toLocaleDateString('zh-CN', { timeZone: 'Asia/Shanghai' })]:
    the locale's short date pattern is year/month/day with numeric fields
    that are not padded.  The year is printed as it is from year 1 on;
    earlier years, which the clock of a running process never shows, are
    outside the model. *)
Definition toLocaleDateString (ms : Z) : string :=
  let '(y, m, d) := shanghai_date ms in
  pretty y +:+ "/" +:+ pretty m +:+ "/" +:+ pretty d.

End JsDate.

(** ** Paths *)

(** [path.join(a, b)] for a normalised absolute [a] and a single segment
    [b]. *)
Definition path_join (a b : string) : string :=
  if ends_with_slash a then a +:+ b else a +:+ "/" +:+ b.

(** ** Errors, the process state and the effect monad *)

Section Program.
Context `{Num : Number}.

(** The values the script can throw, with what line 100 to 110 read of
    them: [error.response], [error.request] and [error.message]. *)
Inductive JsError : Type :=
  (** [new Error(message)], thrown by the script itself *)
  | Error (message : string)
  (** raised by the engine: a property read on [undefined] or [null], or
      a call of something that is not a function *)
  | TypeError
  (** raised by [JSON.parse] *)
  | SyntaxError
  (** raised by [JSON.stringify] when it runs out of stack *)
  | RangeError
  (** rejected by axios: an HTTP response outside 2xx was received
      ([response] is its status and body), or the request was sent and
      nothing came back ([request] only), or the request could not be
      set up (neither) *)
  | AxiosError (response : option (Z * json)) (request : bool)
  (** rejected by [fs.promises] *)
  | SystemError (code : string).

Definition error_response (e : JsError) : option (Z * json) :=
  match e with
  | AxiosError response _ => response
  | _ => None
  end.

Definition error_request (e : JsError) : bool :=
  match e with
  | AxiosError _ request => request
  | _ => false
  end.

(** One argument of a console call.  The wording of [error.message] is the
    script's own for [Error], and the engine's or the library's for the
    other errors, which are recorded as such. *)
Inductive Arg : Type :=
  | Str (s : string)
  | MessageOf (e : JsError)
  (** what the engine prints for an error that nothing caught: its stack
      trace *)
  | StackOf (e : JsError).

Definition error_message (e : JsError) : Arg :=
  match e with
  | Error message => Str message
  | _ => MessageOf e
  end.

Inductive Stream : Type := Stdout | Stderr.

Inductive FsNode : Type :=
  | Dir
  | File (content : string).

(** How [fs.writeFile] ends: it opens the file for writing, which
    truncates it, and then writes the data; it can be rejected at the
    open, with the file as it was, or while writing, with only the first
    [n] bytes on disk. *)
Inductive WriteFault : Type :=
  | WriteCompletes
  | FailsAtOpen
  | FailsAfter (n : nat).

Record Request : Type := {
  req_url : string;
  req_data : json;
  req_headers : list (string * string);
  req_timeout : Z
}.

(** What the transport does with a request. *)
Inductive Reply : Type :=
  | HttpResponse (status : Z) (data : json)
  | NoResponse
  | SetupFailure.

(** Everything the script reads from its surroundings. *)
Record World : Type := {
  (** [new Date()], in milliseconds since the epoch *)
  clock : Z;
  (** [process.env.AI_API_KEY]; [None] is [undefined] *)
  env_AI_API_KEY : option string;
  (** [process.cwd()] *)
  cwd : string;
  (** the file system when the script starts *)
  disk : gmap string FsNode;
  (** the behaviour of [axios.post] *)
  transport : Request -> Reply;
  (** the values on which [JSON.stringify] runs out of stack: the
      serialiser recurses on the value, so these are the values nested
      deeper than the stack of the engine allows *)
  stack_overflow : json -> bool;
  (** failures injected into the file-system calls *)
  access_fails : bool;
  mkdir_fails : bool;
  write_fault : WriteFault
}.

Record State : Type := {
  fs : gmap string FsNode;
  console : list (Stream * list Arg);
  (** the calls of [axios.post] *)
  posts : list Request;
  (** the calls of [fs.writeFile]: path and data *)
  writes : list (string * string);
  (** set by [process.exit] *)
  exit_code : option Z
}.

Definition initial (w : World) : State :=
  {| fs := disk w; console := []; posts := []; writes := []; exit_code := None |}.

Inductive Result (A : Type) : Type :=
  | Ok (a : A)
  | Throw (e : JsError).
Arguments Ok {A} a.
Arguments Throw {A} e.

Definition M (A : Type) : Type := State -> Result A * State.

Definition ret {A} (a : A) : M A := fun s => (Ok a, s).

Definition bind {A B} (c : M A) (k : A -> M B) : M B :=
  fun s =>
    match c s with
    | (Ok a, s') => k a s'
    | (Throw e, s') => (Throw e, s')
    end.

Definition throw {A} (e : JsError) : M A := fun s => (Throw e, s).

(** [try { c } catch (error) { h error }] *)
Definition try_catch {A} (c : M A) (h : JsError -> M A) : M A :=
  fun s =>
    match c s with
    | (Ok a, s') => (Ok a, s')
    | (Throw e, s') => h e s'
    end.

Definition lift {A} (r : Result A) : M A := fun s => (r, s).

End Program.

Arguments Ok {Num A} a.
Arguments Throw {Num A} e.

Notation "x <- c1 ;; c2" := (bind c1 (fun x => c2))
  (at level 100, c1 at next level, right associativity).
Notation "c1 ;; c2" := (bind c1 (fun _ => c2))
  (at level 100, right associativity).

(** ** The primitives the script calls *)

Section Script.
Context `{Num : Number}.

Definition modify (f : State -> State) : M unit := fun s => (Ok tt, f s).

Definition console_log (args : list Arg) : M unit :=
  modify (fun s =>
    {| fs := fs s; console := console s ++ [(Stdout, args)]; posts := posts s;
       writes := writes s; exit_code := exit_code s |}).

Definition console_error (args : list Arg) : M unit :=
  modify (fun s =>
    {| fs := fs s; console := console s ++ [(Stderr, args)]; posts := posts s;
       writes := writes s; exit_code := exit_code s |}).

Definition process_exit (code : Z) : M unit :=
  modify (fun s =>
    {| fs := fs s; console := console s; posts := posts s;
       writes := writes s; exit_code := Some code |}).

Definition set_fs (s : State) (d : gmap string FsNode) : State :=
  {| fs := d; console := console s; posts := posts s;
     writes := writes s; exit_code := exit_code s |}.

(** [!v] for an environment variable: [undefined] and the empty string
    are the falsy ones. *)
Definition falsy (v : option string) : bool :=
  match v with
  | None => true
  | Some EmptyString => true
  | Some (String _ _) => false
  end.

(** [axios.post(url, data, config)] with the default [validateStatus]:
    the promise resolves for a status from 200 to 299 and is rejected
    otherwise.  The result is [response.data]. *)
Definition axios_post (w : World) (url : string) (data : json)
    (headers : list (string * string)) (timeout : Z) : M json :=
  fun s =>
    let request :=
      {| req_url := url; req_data := data; req_headers := headers;
         req_timeout := timeout |} in
    let s' :=
      {| fs := fs s; console := console s; posts := posts s ++ [request];
         writes := writes s; exit_code := exit_code s |} in
    match transport w request with
    | HttpResponse status body =>
        if (200 <=? status)%Z && (status <? 300)%Z then (Ok body, s')
        else (Throw (AxiosError (Some (status, body)) true), s')
    | NoResponse => (Throw (AxiosError None true), s')
    | SetupFailure => (Throw (AxiosError None false), s')
    end.

(** [v[k]] and [v.k], where [None] is [undefined].  The value is the own
    property; the built-in prototypes define none of the names the script
    reads this way ([choices], [0], [message], [content]). *)
Definition Get (v : option json) (k : string) : Result (option json) :=
  match v with
  | None => Throw TypeError
  | Some JNull => Throw TypeError
  | Some (JObject props) => Ok (obj_get k props)
  | Some (JArray items) =>
      Ok (match array_index k with
          | Some i => items !! N.to_nat i
          | None => None
          end)
  | Some (JString t) =>
      Ok (match array_index k with
          | Some i => JString <$> (units t !! N.to_nat i)
          | None => None
          end)
  | Some (JBool _) => Ok None
  | Some (JNumber _) => Ok None
  end.

(** [data.choices[0].message.content], line 73. *)
Definition read_content (data : json) : Result (option json) :=
  match Get (Some data) "choices" with
  | Throw e => Throw e
  | Ok choices =>
      match Get choices "0" with
      | Throw e => Throw e
      | Ok choice0 =>
          match Get choice0 "message" with
          | Throw e => Throw e
          | Ok message => Get message "content"
          end
      end
  end.

(** [v.match(/\{[\s\S]*\}/)]: only a string has a callable [match]. *)
Definition call_match (v : option json) : Result (option string) :=
  match v with
  | Some (JString t) => Ok (extract_json t)
  | _ => Throw TypeError
  end.

Definition call_JSON_parse (text : string) : Result json :=
  match JSON_parse text with
  | Some v => Ok v
  | None => Throw SyntaxError
  end.

(** [JSON.stringify(v)] and [JSON.stringify(v, null, 2)] as the engine runs
    them: a [RangeError] on a value that is nested too deep, the text
    otherwise. *)
Definition call_JSON_stringify (w : World) (v : json) : Result string :=
  if stack_overflow w v then Throw RangeError else Ok (JSON_stringify v).

Definition call_JSON_stringify_2 (w : World) (v : json) : Result string :=
  if stack_overflow w v then Throw RangeError else Ok (JSON_stringify_2 v).

(** [v.k = x] in sloppy mode: an object takes the property, a primitive
    ignores the assignment, [null] throws.  A named property put on an
    array is not an element and is never serialised. *)
Definition Set_ (v : json) (k : string) (x : json) : Result json :=
  match v with
  | JObject props => Ok (JObject (obj_set k x props))
  | JNull => Throw TypeError
  | other => Ok other
  end.

(** The directory part of a path, when the path has one. *)
Fixpoint dirname (p : string) : option string :=
  match p with
  | EmptyString => None
  | String c r =>
      match dirname r with
      | Some d => Some (String c d)
      | None => if Ascii.eqb c "/" then Some EmptyString else None
      end
  end.

(** [fs.access(p)]: fulfilled when [p] exists. *)
Definition fs_access (w : World) (p : string) : M unit :=
  fun s =>
    if access_fails w then (Throw (SystemError "EACCES"), s)
    else match fs s !! p with
         | Some _ => (Ok tt, s)
         | None => (Throw (SystemError "ENOENT"), s)
         end.

(** [fs.mkdir(p, { recursive: true })]: no error when the directory is
    already there. *)
Definition fs_mkdir (w : World) (p : string) : M unit :=
  fun s =>
    if mkdir_fails w then (Throw (SystemError "EACCES"), s)
    else match fs s !! p with
         | Some (File _) => (Throw (SystemError "EEXIST"), s)
         | Some Dir => (Ok tt, s)
         | None => (Ok tt, set_fs s (<[p := Dir]> (fs s)))
         end.

(** [fs.writeFile(p, data, 'utf8')] *)
Definition fs_writeFile (w : World) (p : string) (data : string) : M unit :=
  fun s =>
    let s' :=
      {| fs := fs s; console := console s; posts := posts s;
         writes := writes s ++ [(p, data)]; exit_code := exit_code s |} in
    match dirname p ≫= (fun d => fs s !! d) with
    | Some Dir =>
        match fs s !! p with
        | Some Dir => (Throw (SystemError "EISDIR"), s')
        | _ =>
            match write_fault w with
            | WriteCompletes => (Ok tt, set_fs s' (<[p := File data]> (fs s)))
            | FailsAtOpen => (Throw (SystemError "EACCES"), s')
            | FailsAfter n =>
                (Throw (SystemError "ENOSPC"),
                 set_fs s' (<[p := File (JsString.take n data)]> (fs s)))
            end
        end
    | Some (File _) => (Throw (SystemError "ENOTDIR"), s')
    | None => (Throw (SystemError "ENOENT"), s')
    end.

(** ** generateContent *)

(** Line 25 to 53. *)
Definition prompt (dateStr : string) : string :=
  JsString.lines [
    "你是一位专业的营养健康顾问。请生成" +:+ dateStr +:+ "的养生知识，内容必须严格涵盖以下三个方面：";
    "    a. 【每日适宜糖分摄入】：说明成人每日推荐摄入量（单位：克），列举2-3种常见高糖食物示例，并提供一条核心的控糖注意事项。";
    "    b. 【每日适宜热量摄入】：清晰区分轻体力、中等体力、重体力活动人群的每日热量摄入范围（单位：千卡），并给出一条关于保持摄入平衡的总体建议。";
    "    c. 【每日适宜咖啡因摄入】：说明成人每日安全摄入量（单位：毫克），简述过量摄入可能带来的影响，并建议每日应避免摄入咖啡因的截止时段。";
    "    ";
    "    **最重要：你的回复必须是一个格式完好的JSON对象，且只包含这个JSON，不要有任何额外的解释、标记或开场白。**";
    "    **JSON格式必须与以下示例完全一致（只替换具体内容）：**";
    "    ";
    "    {";
    "      " +:+ quoted "date" +:+ ": " +:+ quoted dateStr +:+ ",";
    "      " +:+ quoted "healthTips" +:+ ": {";
    "        " +:+ quoted "sugar" +:+ ": {";
    "          " +:+ quoted "dailyAmount" +:+ ": " +:+ quoted "25克以内" +:+ ",";
    "          " +:+ quoted "note" +:+ ": " +:+ quoted "少喝甜饮料，蛋糕/奶茶等高糖食物需控制摄入量";
    "        },";
    "        " +:+ quoted "calorie" +:+ ": {";
    "          " +:+ quoted "range" +:+ ": {";
    "            " +:+ quoted "lightActivity" +:+ ": " +:+ quoted "1800-2000千卡" +:+ ",";
    "            " +:+ quoted "moderateActivity" +:+ ": " +:+ quoted "2000-2400千卡" +:+ ",";
    "            " +:+ quoted "heavyActivity" +:+ ": " +:+ quoted "2400-3000千卡";
    "          },";
    "          " +:+ quoted "tip" +:+ ": " +:+ quoted "根据活动量调整，搭配荤素避免热量过剩";
    "        },";
    "        " +:+ quoted "caffeine" +:+ ": {";
    "          " +:+ quoted "safeAmount" +:+ ": " +:+ quoted "不超过400毫克" +:+ ",";
    "          " +:+ quoted "warning" +:+ ": " +:+ quoted "过量易失眠，建议下午3点后避免摄入咖啡因";
    "        }";
    "      }";
    "    }"
  ].

Definition apiUrl : string := "https://open.bigmodel.cn/api/paas/v4/chat/completions".

(** Line 58 to 62. *)
Definition requestData (prompt : string) : json :=
  JObject
    [("model", JString "glm-4");
     ("messages",
      JArray [JObject [("role", JString "user"); ("content", JString prompt)]]);
     ("temperature", JNumber (number_of_literal "0.7"))].

(** Line 15. *)
Definition dateStr (w : World) : string :=
  replace_all "/" "-" (JsDate.toLocaleDateString (clock w)).

Definition dataDir (w : World) : string := path_join (cwd w) "data".
Definition filePath (w : World) : string := path_join (dataDir w) "today.json".

(** Section 5 of the script, line 83 to 96: create the directory when it
    cannot be accessed, write the file, report. *)
Definition write_file (w : World) (healthData : json) : M unit :=
  let dataDir := dataDir w in
  let filePath := filePath w in
  try_catch (fs_access w dataDir) (fun _ => fs_mkdir w dataDir) ;;
  data <- lift (call_JSON_stringify_2 w healthData) ;;
  fs_writeFile w filePath data ;;
  console_log [Str "✅ 今日养生内容已成功生成并保存至: "; Str filePath] ;;
  summary <- lift (call_JSON_stringify_2 w healthData) ;;
  console_log [Str "生成内容摘要:"; Str summary].

(** The body of the [try] block, line 10 to 96. *)
Definition body (w : World) : M unit :=
  console_log [Str "🚀 开始生成今日养生内容..."] ;;
  let dateStr := dateStr w in
  console_log [Str "📅 今日日期:"; Str dateStr] ;;
  let AI_API_KEY := env_AI_API_KEY w in
  (if falsy AI_API_KEY
   then throw (Error "❌ 未找到API密钥。请在GitHub仓库的Settings > Secrets中设置AI_API_KEY。")
   else ret tt) ;;
  let prompt := prompt dateStr in
  console_log [Str "🤖 正在调用AI生成内容..."] ;;
  data <- axios_post w apiUrl (requestData prompt)
            [("Authorization", "Bearer " +:+ default EmptyString AI_API_KEY);
             ("Content-Type", "application/json")]
            30000 ;;
  aiReply <- lift (read_content data) ;;
  jsonMatch <- lift (call_match aiReply) ;;
  match jsonMatch with
  | None => throw (Error "AI返回的内容中未找到有效的JSON格式。")
  | Some text =>
      parsed <- lift (call_JSON_parse text) ;;
      healthData <- lift (Set_ parsed "date" (JString dateStr)) ;;
      write_file w healthData
  end.

(** The [catch] block, line 98 to 113. *)
Definition handler (w : World) (error : JsError) : M unit :=
  console_error [Str "❌ 生成内容过程中发生错误:"] ;;
  match error_response error with
  | Some (status, data) =>
      console_error [Str ("API请求失败，状态码: " +:+ pretty status)] ;;
      detail <- lift (call_JSON_stringify w data) ;;
      console_error [Str "错误详情:"; Str detail]
  | None =>
      if error_request error
      then console_error [Str "网络错误: 无法连接到AI服务，请检查网络。"]
      else console_error [Str "脚本错误:"; error_message error]
  end ;;
  process_exit 1.

Definition generateContent (w : World) : M unit :=
  try_catch (body w) (handler w).

(** Line 117: the script leaves the promise of [generateContent] to
    itself.  When the promise is rejected, which takes an error thrown
    inside the [catch] block, the engine (Node.js 15 and later) prints the
    error on the error stream and ends the process with exit status 1. *)
Definition settle (outcome : Result unit * State) : State :=
  match outcome with
  | (Ok _, s) => s
  | (Throw e, s) =>
      {| fs := fs s; console := console s ++ [(Stderr, [StackOf e])];
         posts := posts s; writes := writes s; exit_code := Some 1%Z |}
  end.

(** One run of the script: the state the process ends in. *)
Definition run (w : World) : State := settle (generateContent w (initial w)).

(** The exit status of the process: the argument of [process.exit], or 0
    when the script runs to its end. *)
Definition exit_status (s : State) : Z := default 0%Z (exit_code s).

End Script.

(** * Vocabulary of the properties *)

(** The tail [[\s\S]*\}] of the pattern. *)
Definition greedy (t : string) : option nat :=
  Regex.match_here [Regex.StarAny; Regex.Lit "}"] t.

(** The text has an opening brace that a closing brace follows. *)
Definition brace_pair (s : string) : Prop :=
  exists a b c, s = a +:+ String "{" (b +:+ String "}" c).

(** [r] is what is left of [s] after at least one character. *)
Definition consumed (s r : string) : Prop :=
  exists x c, s = String x (c +:+ r).

(** [r] is what is left of [s], possibly all of it. *)
Definition rest_of (s r : string) : Prop := exists c, s = c +:+ r.

(** [r] is what is left of [s] after a text that ends with [d]. *)
Definition closed_by (d : ascii) (s r : string) : Prop :=
  exists c, s = c +:+ String d r.

(** The parts of a number token, as [lex_number] reads them: the sign, the
    integer part, the fraction and the exponent. *)
Definition lex_sign (s : string) : string * string :=
  match s with
  | String c r => if Ascii.eqb c "-" then ("-", r) else (EmptyString, s)
  | EmptyString => (EmptyString, s)
  end.

Definition lex_int (c : ascii) (r : string) : string * string :=
  if Ascii.eqb c "0" then ("0", r)
  else let '(ds, rest) := span_digits r in (String c ds, rest).

Definition lex_frac (s2 : string) : option (string * string) :=
  match s2 with
  | String d r2 =>
      if Ascii.eqb d "." then
        let '(ds, rest) := span_digits r2 in
        match ds with
        | EmptyString => None
        | _ => Some ("." +:+ ds, rest)
        end
      else Some (EmptyString, s2)
  | EmptyString => Some (EmptyString, s2)
  end.

Definition lex_exp (s3 : string) : option (string * string) :=
  match s3 with
  | String e r3 =>
      if Ascii.eqb e "e" || Ascii.eqb e "E" then
        let '(sg, r4) :=
          match r3 with
          | String g r3' =>
              if Ascii.eqb g "+" || Ascii.eqb g "-"
              then (String g EmptyString, r3')
              else (EmptyString, r3)
          | EmptyString => (EmptyString, r3)
          end in
        let '(ds, rest) := span_digits r4 in
        match ds with
        | EmptyString => None
        | _ => Some (String e sg +:+ ds, rest)
        end
      else Some (EmptyString, s3)
  | EmptyString => Some (EmptyString, s3)
  end.

(** The input [x] cannot continue a number token: it is empty or starts
    with a character that is no digit, dot or exponent mark. *)
Definition ends_number (x : string) : bool :=
  match x with
  | EmptyString => true
  | String c _ =>
      negb (is_digit c || Ascii.eqb c "." || Ascii.eqb c "e" || Ascii.eqb c "E")
  end.

(** No surrogate code unit: no byte 237 is followed by a byte from 160
    on. *)
Fixpoint no_surrogate (s : string) : bool :=
  match s with
  | EmptyString => true
  | String c r =>
      match r with
      | String b2 _ => negb (Ascii.eqb c "237" && (160 <=? N_of_ascii b2)%N)
      | EmptyString => true
      end && no_surrogate r
  end.

Fixpoint all_ws (s : string) : bool :=
  match s with
  | EmptyString => true
  | String c r => is_ws c && all_ws r
  end.

Fixpoint distinct (l : list string) : bool :=
  match l with
  | [] => true
  | k :: r => negb (existsb (String.eqb k) r) && distinct r
  end.

(** The line break and the colon of [serialize]. *)
Definition line_break (gap indent : string) : string :=
  match gap with
  | EmptyString => EmptyString
  | _ => nl +:+ indent
  end.

Definition colon_of (gap : string) : string :=
  match gap with
  | EmptyString => ":"
  | _ => ": "
  end.

(** *** The Gregorian calendar *)

Definition is_leap (y : Z) : bool :=
  ((y mod 4 =? 0) && negb (y mod 100 =? 0) || (y mod 400 =? 0))%Z.

Definition month_length (y m : Z) : Z :=
  if (m =? 2)%Z then (if is_leap y then 29 else 28)%Z
  else if ((m =? 4) || (m =? 6) || (m =? 9) || (m =? 11))%Z then 30%Z
  else 31%Z.

(** The day after a date. *)
Definition next_date (date : Z * Z * Z) : Z * Z * Z :=
  let '(y, m, d) := date in
  if (d <? month_length y m)%Z then (y, m, d + 1)%Z
  else if (m <? 12)%Z then (y, m + 1, 1)%Z
  else (y + 1, 1, 1)%Z.

(** The date [n] days after 1 January 1970. *)
Definition nth_date (n : nat) : Z * Z * Z :=
  Nat.iter n next_date (1970, 1, 1)%Z.

Definition date_eqb (a b : Z * Z * Z) : bool :=
  let '(y1, m1, d1) := a in
  let '(y2, m2, d2) := b in
  ((y1 =? y2) && (m1 =? m2) && (d1 =? d2))%Z.

(** [days_chain k lo]: the dates of the [2 ^ k] days from [lo] on, as the
    algorithm gives them, follow one another in the calendar; the result
    is the first and the last of them. *)
Fixpoint days_chain (k : nat) (lo : Z) : option ((Z * Z * Z) * (Z * Z * Z)) :=
  match k with
  | O => let date := JsDate.civil_from_days lo in Some (date, date)
  | S k' =>
      match days_chain k' lo, days_chain k' (lo + 2 ^ Z.of_nat k')%Z with
      | Some (a, b), Some (c, d) =>
          if date_eqb (next_date b) c then Some (a, d) else None
      | _, _ => None
      end
  end.

(** The number of the day, counted from 1 January 1970, that the zone
    Asia/Shanghai is in at the instant [ms]. *)
Definition local_day (ms : Z) : Z :=
  ((ms + JsDate.shanghai_offset ms) / 86400000)%Z.

(** Year, month and day as plain numbers, joined by hyphens. *)
Definition render_date (date : Z * Z * Z) : string :=
  let '(y, m, d) := date in
  pretty y +:+ "-" +:+ pretty m +:+ "-" +:+ pretty d.

Section Vocabulary.
Context `{Num : Number}.

(** [obj] is the text of a JSON object with the members [props]: it starts
    with the opening brace and the parser reads it to its last
    character. *)
Definition is_object_text (obj : string) (props : list (string * json)) : Prop :=
  (exists r, obj = String "{" r) /\
  parse_value (parse_fuel obj) obj = POk (JObject props) EmptyString.

(** The request the script sends. *)
Definition sent_request (w : World) : Request :=
  {| req_url := apiUrl;
     req_data := requestData (prompt (dateStr w));
     req_headers :=
       [("Authorization", "Bearer " +:+ default EmptyString (env_AI_API_KEY w));
        ("Content-Type", "application/json")];
     req_timeout := 30000 |}.

(** The text of the reply, when the transport delivers one. *)
Definition reply_text (w : World) : option string :=
  match transport w (sent_request w) with
  | HttpResponse status body =>
      if (200 <=? status)%Z && (status <? 300)%Z then
        match read_content body with
        | Ok (Some (JString t)) => Some t
        | _ => None
        end
      else None
  | _ => None
  end.

(** The object the script builds from the members [props] of the parsed
    reply, and its serialisation. *)
Definition healthData (w : World) (props : list (string * json)) : json :=
  JObject (obj_set "date" (JString (dateStr w)) props).

Definition content (w : World) (props : list (string * json)) : string :=
  JSON_stringify_2 (healthData w props).

(** The run gets as far as the write: the credential is there, the
    transport answers with a 2xx response whose content is a string, the
    pattern matches and the match parses to an object with members
    [props]. *)
Definition Reached (w : World) (props : list (string * json)) : Prop :=
  falsy (env_AI_API_KEY w) = false /\
  exists status body reply text,
    transport w (sent_request w) = HttpResponse status body /\
    (200 <= status < 300)%Z /\
    read_content body = Ok (Some (JString reply)) /\
    extract_json reply = Some text /\
    JSON_parse text = Some (JObject props).

(** *** The lines of the console *)

(** What the script prints before it looks for the credential. *)
Definition started (w : World) : list (Stream * list Arg) :=
  [(Stdout, [Str "🚀 开始生成今日养生内容..."]);
   (Stdout, [Str "📅 今日日期:"; Str (dateStr w)])].

Definition calling : Stream * list Arg :=
  (Stdout, [Str "🤖 正在调用AI生成内容..."]).

(** The two lines of a successful run. *)
Definition saved (w : World) (props : list (string * json))
  : list (Stream * list Arg) :=
  [(Stdout, [Str "✅ 今日养生内容已成功生成并保存至: "; Str (filePath w)]);
   (Stdout, [Str "生成内容摘要:"; Str (content w props)])].

(** The first line of the [catch] block and its three branches. *)
Definition failed : Stream * list Arg :=
  (Stderr, [Str "❌ 生成内容过程中发生错误:"]).

Definition api_error (status : Z) (data : json) : list (Stream * list Arg) :=
  [(Stderr, [Str ("API请求失败，状态码: " +:+ pretty status)]);
   (Stderr, [Str "错误详情:"; Str (JSON_stringify data)])].

Definition api_status (status : Z) : Stream * list Arg :=
  (Stderr, [Str ("API请求失败，状态码: " +:+ pretty status)]).

Definition api_detail (data : json) : Stream * list Arg :=
  (Stderr, [Str "错误详情:"; Str (JSON_stringify data)]).

Definition network_error : Stream * list Arg :=
  (Stderr, [Str "网络错误: 无法连接到AI服务，请检查网络。"]).

Definition script_error (message : Arg) : Stream * list Arg :=
  (Stderr, [Str "脚本错误:"; message]).

(** The engine's report of an error that nothing caught. *)
Definition uncaught (e : JsError) : Stream * list Arg := (Stderr, [StackOf e]).

(** What is printed for the error [e] that the [try] block throws: the
    lines of the [catch] block and, when the block itself throws, the
    report of the engine. *)
Definition report (w : World) (e : JsError) : list (Stream * list Arg) :=
  failed ::
  match error_response e with
  | Some (status, data) =>
      api_status status ::
      (if stack_overflow w data then [uncaught RangeError] else [api_detail data])
  | None =>
      if error_request e then [network_error]
      else [script_error (error_message e)]
  end.

(** The state a run ends in, from the outcome of the [try] block. *)
Definition conclude (w : World) (outcome : Result unit * State) : State :=
  match outcome with
  | (Ok _, s) => s
  | (Throw e, s) =>
      {| fs := fs s; console := (console s ++ report w e)%list;
         posts := posts s; writes := writes s; exit_code := Some 1%Z |}
  end.

(** The messages of the two errors the script throws itself. *)
Definition missing_key : string :=
  "❌ 未找到API密钥。请在GitHub仓库的Settings > Secrets中设置AI_API_KEY。".

Definition no_json : string := "AI返回的内容中未找到有效的JSON格式。".

(** *** The HealthRecord schema *)

(** The keys of [props] are exactly the [expected] ones. *)
Definition has_exactly (expected : list string) (props : list (string * json))
  : bool :=
  forallb (fun k => existsb (String.eqb k) expected) (keys props)
  && forallb (fun k => obj_has k props) expected.

Definition object_with (expected : list string) (v : option json) : bool :=
  match v with
  | Some (JObject props) => has_exactly expected props
  | _ => false
  end.

Definition member (k : string) (v : option json) : option json :=
  match v with
  | Some (JObject props) => obj_get k props
  | _ => None
  end.

Definition tips_conform (tips : option json) : bool :=
  object_with ["sugar"; "calorie"; "caffeine"] tips
  && object_with ["dailyAmount"; "note"] (member "sugar" tips)
  && object_with ["range"; "tip"] (member "calorie" tips)
  && object_with ["lightActivity"; "moderateActivity"; "heavyActivity"]
       (member "range" (member "calorie" tips))
  && object_with ["safeAmount"; "warning"] (member "caffeine" tips).

(** [v] has the shape of a HealthRecord: [date] and [healthTips], and under
    [healthTips] the three fixed groups with their fixed keys. *)
Definition conforms (v : json) : bool :=
  object_with ["date"; "healthTips"] (Some v)
  && tips_conform (member "healthTips" (Some v)).

(** The members [props] of the reply's object are those of a HealthRecord,
    the date left aside. *)
Definition reply_conforms (props : list (string * json)) : bool :=
  forallb (fun k => existsb (String.eqb k) ["date"; "healthTips"]) (keys props)
  && obj_has "healthTips" props
  && tips_conform (obj_get "healthTips" props).

(** The world [w] with the file system [files]. *)
Definition on_disk (w : World) (files : gmap string FsNode) : World :=
  {| clock := clock w;
     env_AI_API_KEY := env_AI_API_KEY w;
     cwd := cwd w;
     disk := files;
     transport := transport w;
     stack_overflow := stack_overflow w;
     access_fails := access_fails w;
     mkdir_fails := mkdir_fails w;
     write_fault := write_fault w |}.

(** How deep the arrays and objects of a value are nested. *)
Fixpoint nesting (v : json) : nat :=
  match v with
  | JArray items => S (fold_right (fun x n => Nat.max (nesting x) n) 0%nat items)
  | JObject props =>
      S (fold_right (fun kv n => Nat.max (nesting (snd kv)) n) 0%nat props)
  | _ => 0%nat
  end.

(** *** Printing and reading back *)

(** A value that [JSON.stringify] prints as a text that denotes it: each
    number prints as a number token that reads back as that number (every
    finite double other than minus zero does), no string holds a surrogate
    code unit, and the keys of an object are distinct and none of them is
    an array index. *)
Fixpoint printable (v : json) : Prop :=
  match v with
  | JNull => True
  | JBool _ => True
  | JNumber n =>
      lex_number (number_to_json n) = Some (number_to_json n, EmptyString) /\
      number_of_literal (number_to_json n) = n
  | JString s => no_surrogate s = true
  | JArray items => fold_right (fun v P => printable v /\ P) True items
  | JObject props =>
      distinct (keys props) = true /\
      fold_right
        (fun kv P =>
           (no_surrogate (fst kv) = true /\ array_index (fst kv) = None /\
            printable (snd kv)) /\ P)
        True props
  end.

(** [v], printed with the indentation unit [gap] at any indentation, reads
    back as [v]. *)
Definition reads_back (gap : string) (v : json) : Prop :=
  forall indent, all_ws indent = true ->
    exists fuel, parse_value fuel (serialize gap indent v) = POk v EmptyString.

End Vocabulary.

(** * Example runs *)

(** Numbers for the examples: a number is kept as the text of its
    literal.  The only number of the examples is the temperature of the
    request. *)
#[export] Instance literal_number : Number :=
  {| number := string;
     number_of_literal := fun lexeme => lexeme;
     number_to_json := fun n => n |}.

Module Example.

(** The health tips of the example in the prompt, as a compact JSON text
    and as the value it denotes. *)
Definition tips_text : string :=
  "{" +:+ quoted "sugar" +:+ ":{" +:+ quoted "dailyAmount" +:+ ":" +:+
    quoted "25克以内" +:+ "," +:+ quoted "note" +:+ ":" +:+
    quoted "少喝甜饮料，蛋糕/奶茶等高糖食物需控制摄入量" +:+ "}," +:+ quoted "calorie" +:+
    ":{" +:+ quoted "range" +:+ ":{" +:+ quoted "lightActivity" +:+ ":" +:+
    quoted "1800-2000千卡" +:+ "," +:+ quoted "moderateActivity" +:+ ":" +:+
    quoted "2000-2400千卡" +:+ "," +:+ quoted "heavyActivity" +:+ ":" +:+
    quoted "2400-3000千卡" +:+ "}," +:+ quoted "tip" +:+ ":" +:+
    quoted "根据活动量调整，搭配荤素避免热量过剩" +:+ "}," +:+ quoted "caffeine" +:+ ":{" +:+
    quoted "safeAmount" +:+ ":" +:+ quoted "不超过400毫克" +:+ "," +:+
    quoted "warning" +:+ ":" +:+ quoted "过量易失眠，建议下午3点后避免摄入咖啡因" +:+ "}}".

Definition tips_value : json :=
  JObject
    [("sugar", JObject
       [("dailyAmount", JString "25克以内");
        ("note", JString "少喝甜饮料，蛋糕/奶茶等高糖食物需控制摄入量")]);
     ("calorie", JObject
       [("range", JObject
          [("lightActivity", JString "1800-2000千卡");
           ("moderateActivity", JString "2000-2400千卡");
           ("heavyActivity", JString "2400-3000千卡")]);
        ("tip", JString "根据活动量调整，搭配荤素避免热量过剩")]);
     ("caffeine", JObject
       [("safeAmount", JString "不超过400毫克");
        ("warning", JString "过量易失眠，建议下午3点后避免摄入咖啡因")])].

(** A completion response whose first choice carries [reply]. *)
Definition response (reply : string) : json :=
  JObject
    [("choices",
      JArray
        [JObject
           [("finish_reason", JString "stop");
            ("message",
             JObject [("role", JString "assistant"); ("content", JString reply)])]])].

Definition home : string := "/home/runner/work/health".

(** The working directory alone, and with an output file of an earlier
    run. *)
Definition fresh_disk : gmap string FsNode := {[ home := Dir ]}.

Definition used_disk : gmap string FsNode :=
  <[ home +:+ "/data/today.json" := File "old" ]>
    (<[ home +:+ "/data" := Dir ]> fresh_disk).

(** The first instant of 2 February 2024 in Shanghai. *)
Definition feb_2 : Z := 1706803200000.

Definition world (key : option string) (answer : Reply)
    (files : gmap string FsNode) (fault : WriteFault) : World :=
  {| clock := feb_2;
     env_AI_API_KEY := key;
     cwd := home;
     disk := files;
     transport := fun _ => answer;
     stack_overflow := fun _ => false;
     access_fails := false;
     mkdir_fails := false;
     write_fault := fault |}.

(** The reply of the end-to-end scenario: prose, then an object with a
    date of its own. *)
Definition mock_object : string :=
  "{" +:+ quoted "date" +:+ ":" +:+ quoted "2024-01-01" +:+ ","
    +:+ quoted "healthTips" +:+ ":" +:+ tips_text +:+ "}".

Definition mock_reply : string := "Sure! " +:+ mock_object.

Definition mock_world : World :=
  world (Some "secret") (HttpResponse 200 (response mock_reply)) fresh_disk
    WriteCompletes.

(** The same reply with another credential and an output file already
    there. *)
Definition second_world : World :=
  world (Some "other") (HttpResponse 200 (response mock_reply)) used_disk
    WriteCompletes.

(** A reply with two objects in it. *)
Definition first_object : string :=
  "{" +:+ quoted "answer" +:+ ":" +:+ quoted "yes" +:+ "}".

Definition two_objects : string :=
  "Here it is: " +:+ first_object +:+ " (an empty one would be {})".

(** A reply whose object is empty. *)
Definition empty_world : World :=
  world (Some "secret") (HttpResponse 200 (response "{}")) fresh_disk
    WriteCompletes.

(** The disk fills up as soon as the output file has been opened. *)
Definition full_disk_world : World :=
  world (Some "secret") (HttpResponse 200 (response mock_reply)) used_disk
    (FailsAfter 0).

Definition no_key_world : World :=
  world None (HttpResponse 200 (response mock_reply)) used_disk WriteCompletes.

Definition prose_world : World :=
  world (Some "secret") (HttpResponse 200 (response "Sorry, no data } today {"))
    used_disk WriteCompletes.

Definition timeout_world : World :=
  world (Some "secret") NoResponse used_disk WriteCompletes.

Definition no_choice : json := JObject [("choices", JArray [])].

Definition no_choice_world : World :=
  world (Some "secret") (HttpResponse 200 no_choice) used_disk WriteCompletes.

(** The service rejects the credential. *)
Definition rejected_world : World :=
  world (Some "secret")
    (HttpResponse 401 (JObject [("error", JString "unauthorized")]))
    used_disk WriteCompletes.

(** The request cannot be set up. *)
Definition setup_world : World :=
  world (Some "secret") SetupFailure used_disk WriteCompletes.

(** The reply with two objects. *)
Definition two_objects_world : World :=
  world (Some "secret") (HttpResponse 200 (response two_objects)) used_disk
    WriteCompletes.

(** No data directory, and none can be created. *)
Definition readonly_world : World :=
  {| clock := feb_2;
     env_AI_API_KEY := Some "secret";
     cwd := home;
     disk := fresh_disk;
     transport := fun _ => HttpResponse 200 (response mock_reply);
     stack_overflow := fun _ => false;
     access_fails := false;
     mkdir_fails := true;
     write_fault := WriteCompletes |}.

(** [data] is a regular file. *)
Definition data_file_world : World :=
  world (Some "secret") (HttpResponse 200 (response mock_reply))
    (<[ home +:+ "/data" := File "not a directory" ]> fresh_disk)
    WriteCompletes.

(** An engine whose stack holds two levels of nesting, with no data
    directory on the disk. *)
Definition small_stack_world : World :=
  {| clock := feb_2;
     env_AI_API_KEY := Some "secret";
     cwd := home;
     disk := fresh_disk;
     transport := fun _ => HttpResponse 200 (response mock_reply);
     stack_overflow := fun v => (2 <? nesting v)%nat;
     access_fails := false;
     mkdir_fails := false;
     write_fault := WriteCompletes |}.

(** The same engine, and a service that rejects the request with a nested
    error. *)
Definition nested_error : json :=
  JObject [("error", JObject [("detail", JObject [("code", JString "1301")])])].

Definition small_stack_rejected_world : World :=
  {| clock := feb_2;
     env_AI_API_KEY := Some "secret";
     cwd := home;
     disk := used_disk;
     transport := fun _ => HttpResponse 429 nested_error;
     stack_overflow := fun v => (2 <? nesting v)%nat;
     access_fails := false;
     mkdir_fails := false;
     write_fault := WriteCompletes |}.

(** The members of the object of [mock_reply]. *)
Definition mock_props : list (string * json) :=
  [("date", JString "2024-01-01"); ("healthTips", tips_value)].

End Example.
(** * Properties *)

(** ** Strings and the brace pattern *)

Section StringFacts.

Lemma append_nil (b : string) : EmptyString +:+ b = b.
Proof. reflexivity. Qed.

Lemma append_cons (x : ascii) (a b : string) :
  String x a +:+ b = String x (a +:+ b).
Proof. reflexivity. Qed.

Lemma append_assoc (a b c : string) : (a +:+ b) +:+ c = a +:+ (b +:+ c).
Proof.
  induction a as [|x a IH]; [reflexivity|].
  now rewrite !append_cons, IH.
Qed.

Lemma append_empty_r (a : string) : a +:+ EmptyString = a.
Proof.
  induction a as [|x a IH]; [reflexivity|].
  now rewrite append_cons, IH.
Qed.

Lemma length_append (a b : string) :
  String.length (a +:+ b) = (String.length a + String.length b)%nat.
Proof.
  induction a as [|x a IH]; [reflexivity|].
  rewrite append_cons. simpl. now rewrite IH.
Qed.

Lemma take_cons (n : nat) (c : ascii) (s : string) :
  JsString.take (S n) (String c s) = String c (JsString.take n s).
Proof. reflexivity. Qed.

Lemma take_append (a b : string) : JsString.take (String.length a) (a +:+ b) = a.
Proof.
  induction a as [|x a IH]; [now destruct b|].
  rewrite append_cons. simpl. now rewrite IH.
Qed.

Lemma contains_append (c : ascii) (a b : string) :
  contains c (a +:+ b) = contains c a || contains c b.
Proof.
  induction a as [|x a IH]; [reflexivity|].
  rewrite append_cons. simpl. rewrite IH. now rewrite orb_assoc.
Qed.

(** A string that contains [c] splits at the last occurrence of [c]. *)
Lemma contains_split_last (c : ascii) (s : string) :
  contains c s = true ->
  exists a b, s = a +:+ String c b /\ contains c b = false.
Proof.
  induction s as [|x s IH]; simpl; [discriminate|].
  intros H. destruct (contains c s) eqn:Hs.
  - destruct (IH eq_refl) as (a & b & -> & Hb).
    exists (String x a), b. split; [reflexivity | exact Hb].
  - rewrite orb_false_r in H. apply Ascii.eqb_eq in H. subst x.
    exists EmptyString, s. split; [reflexivity | exact Hs].
Qed.

(** ... and at the first one. *)
Lemma contains_split_first (c : ascii) (s : string) :
  contains c s = true ->
  exists a b, s = a +:+ String c b /\ contains c a = false.
Proof.
  induction s as [|x s IH]; simpl; [discriminate|].
  intros H. destruct (Ascii.eqb c x) eqn:Hx.
  - apply Ascii.eqb_eq in Hx. subst x.
    exists EmptyString, s. split; reflexivity.
  - simpl in H. destruct (IH H) as (a & b & -> & Ha).
    exists (String x a), b. split; [reflexivity|].
    simpl. now rewrite Hx.
Qed.

End StringFacts.
Module RegexFacts.
Import Regex.

Lemma greedy_empty : greedy EmptyString = None.
Proof. reflexivity. Qed.

Lemma greedy_cons (c : ascii) (t : string) :
  greedy (String c t) =
  match greedy t with
  | Some n => Some (S n)
  | None => if Ascii.eqb "}" c then Some 1 else None
  end.
Proof.
  unfold greedy. simpl.
  match goal with |- match ?x with _ => _ end = match ?y with _ => _ end =>
    change x with y; destruct y end; [reflexivity|].
  now destruct (Ascii.eqb "}" c).
Qed.

Lemma greedy_none (t : string) : greedy t = None <-> contains "}" t = false.
Proof.
  induction t as [|c t IH]; [now split|].
  rewrite greedy_cons. cbn [contains]. destruct (greedy t) eqn:Hg.
  - split; [discriminate|]. intros H. apply orb_false_elim in H.
    destruct H as [_ H]. apply IH in H. discriminate.
  - destruct IH as [IH _]. rewrite (IH eq_refl), orb_false_r.
    destruct (Ascii.eqb "}" c); split; congruence.
Qed.

(** The star gives back exactly what follows the last closing brace. *)
Lemma greedy_last (mid post : string) :
  contains "}" post = false ->
  greedy (mid +:+ String "}" post) = Some (S (String.length mid)).
Proof.
  intros Hpost. induction mid as [|c mid IH].
  - rewrite append_nil, greedy_cons. apply greedy_none in Hpost.
    now rewrite Hpost.
  - rewrite append_cons, greedy_cons, IH. reflexivity.
Qed.

Lemma match_here_braces (s : string) :
  match_here braces s =
  match s with
  | String c r => if Ascii.eqb "{" c then option_map S (greedy r) else None
  | EmptyString => None
  end.
Proof. destruct s; reflexivity. Qed.

Lemma exec_from_skip (i : nat) (pre s : string) :
  contains "{" pre = false ->
  exec_from braces i (pre +:+ s) = exec_from braces (i + String.length pre) s.
Proof.
  revert i. induction pre as [|c pre IH]; intros i Hpre.
  - rewrite append_nil. simpl. now rewrite Nat.add_0_r.
  - cbn [contains] in Hpre. apply orb_false_elim in Hpre.
    destruct Hpre as [Hc Hpre].
    rewrite append_cons. cbn [exec_from]. rewrite match_here_braces, Hc.
    rewrite IH by assumption. f_equal. cbn [String.length]. lia.
Qed.

(** The match runs from the first opening brace to the last closing one. *)
Lemma exec_first_to_last (pre mid post : string) :
  contains "{" pre = false ->
  contains "}" post = false ->
  exec braces (pre +:+ String "{" (mid +:+ String "}" post)) =
  Some (String.length pre, String "{" (mid +:+ String "}" EmptyString)).
Proof.
  intros Hpre Hpost. unfold exec.
  rewrite exec_from_skip by assumption.
  cbn [exec_from]. rewrite match_here_braces. simpl Ascii.eqb. cbv iota.
  rewrite greedy_last by assumption. cbn [option_map].
  rewrite Nat.add_0_l. do 2 f_equal.
  rewrite take_cons. f_equal.
  change (String "}" post) with (String "}" EmptyString +:+ post).
  rewrite <- append_assoc.
  replace (S (String.length mid))
    with (String.length (mid +:+ String "}" EmptyString))
    by (rewrite length_append; simpl; lia).
  apply take_append.
Qed.

(** A successful match starts at an opening brace that a closing brace
    follows. *)
Lemma exec_from_some (i : nat) (s : string) (j : nat) (m : string) :
  exec_from braces i s = Some (j, m) ->
  exists pre r n,
    s = pre +:+ String "{" r /\ greedy r = Some n /\
    m = JsString.take (S n) (String "{" r).
Proof.
  revert i. induction s as [|c s IH]; intros i; cbn [exec_from];
    rewrite match_here_braces.
  - discriminate.
  - destruct (Ascii.eqb "{" c) eqn:Hc.
    + apply Ascii.eqb_eq in Hc. subst c.
      destruct (greedy s) as [n|] eqn:Hg; cbn [option_map].
      * intros [= <- <-]. exists EmptyString, s, n. repeat split. exact Hg.
      * intros H. destruct (IH _ H) as (pre & r & n & -> & Hr & ->).
        exists (String "{" pre), r, n. repeat split. exact Hr.
    + intros H. destruct (IH _ H) as (pre & r & n & -> & Hr & ->).
      exists (String c pre), r, n. repeat split. exact Hr.
Qed.

Lemma exec_from_none (i : nat) (s : string) :
  exec_from braces i s = None ->
  forall pre r, s = pre +:+ String "{" r -> contains "}" r = false.
Proof.
  revert i. induction s as [|c s IH]; intros i; cbn [exec_from];
    rewrite match_here_braces.
  - intros _ [|? ?] r; discriminate.
  - destruct (Ascii.eqb "{" c) eqn:Hc.
    + destruct (greedy s) as [n|] eqn:Hg; cbn [option_map]; [discriminate|].
      intros H [|x pre] r; rewrite ?append_nil, ?append_cons;
        intros [= ? ?]; subst.
      * now apply greedy_none.
      * eapply IH; [exact H | reflexivity].
    + intros H [|x pre] r; rewrite ?append_nil, ?append_cons;
        intros [= ? ?]; subst.
      * now rewrite Ascii.eqb_refl in Hc.
      * eapply IH; [exact H | reflexivity].
Qed.

End RegexFacts.
(** ** Objects and the parser *)

Section JsonFacts.
Context `{Num : Number}.

Lemma obj_has_get (k : string) (props : list (string * json)) :
  obj_has k props = false <-> obj_get k props = None.
Proof. unfold obj_has. destruct (obj_get k props); split; congruence. Qed.

Lemma obj_get_replace_eq (k : string) (v : json) (props : list (string * json)) :
  obj_has k props = true -> obj_get k (obj_replace k v props) = Some v.
Proof.
  unfold obj_has. induction props as [|[k' v'] r IH]; simpl; [discriminate|].
  destruct (String.eqb k k') eqn:Hk; simpl; rewrite Hk; [reflexivity|].
  exact IH.
Qed.

Lemma obj_get_replace_ne (k k' : string) (v : json) (props : list (string * json)) :
  k' <> k -> obj_get k' (obj_replace k v props) = obj_get k' props.
Proof.
  intros Hne. induction props as [|[k1 v1] r IH]; simpl; [reflexivity|].
  destruct (String.eqb k k1) eqn:Hk; simpl.
  - apply String.eqb_eq in Hk. subst k1.
    apply String.eqb_neq in Hne. now rewrite Hne.
  - now rewrite IH.
Qed.

Lemma obj_get_insert_index_eq (i : N) (k : string) (v : json)
    (props : list (string * json)) :
  obj_get k props = None -> obj_get k (obj_insert_index i k v props) = Some v.
Proof.
  induction props as [|[k1 v1] r IH]; simpl.
  - now rewrite String.eqb_refl.
  - destruct (String.eqb k k1) eqn:Hk; [discriminate|]. intros Hr.
    destruct (array_index k1) as [j|]; [destruct (j <? i)%N|]; simpl;
      rewrite ?Hk, ?String.eqb_refl; auto.
Qed.

Lemma obj_get_insert_index_ne (i : N) (k k' : string) (v : json)
    (props : list (string * json)) :
  k' <> k -> obj_get k' (obj_insert_index i k v props) = obj_get k' props.
Proof.
  intros Hne. apply String.eqb_neq in Hne.
  induction props as [|[k1 v1] r IH]; simpl.
  - now rewrite Hne.
  - destruct (array_index k1) as [j|]; [destruct (j <? i)%N|]; simpl;
      rewrite ?Hne, ?IH; reflexivity.
Qed.

Lemma obj_get_app (k : string) (a b : list (string * json)) :
  obj_get k (a ++ b) =
  match obj_get k a with Some v => Some v | None => obj_get k b end.
Proof.
  induction a as [|[k1 v1] r IH]; simpl; [reflexivity|].
  now destruct (String.eqb k k1).
Qed.

(** Reading back the property that was just assigned. *)
Lemma obj_get_set_eq (k : string) (v : json) (props : list (string * json)) :
  obj_get k (obj_set k v props) = Some v.
Proof.
  unfold obj_set. destruct (obj_has k props) eqn:Hh.
  - now apply obj_get_replace_eq.
  - apply obj_has_get in Hh. destruct (array_index k).
    + now apply obj_get_insert_index_eq.
    + rewrite obj_get_app, Hh. simpl. now rewrite String.eqb_refl.
Qed.

(** The other properties keep their values. *)
Lemma obj_get_set_ne (k k' : string) (v : json) (props : list (string * json)) :
  k' <> k -> obj_get k' (obj_set k v props) = obj_get k' props.
Proof.
  intros Hne. unfold obj_set. destruct (obj_has k props).
  - now apply obj_get_replace_ne.
  - destruct (array_index k).
    + now apply obj_get_insert_index_ne.
    + rewrite obj_get_app. destruct (obj_get k' props); [reflexivity|].
      simpl. apply String.eqb_neq in Hne. now rewrite Hne.
Qed.

Lemma parse_members_object (fuel : nat) (acc : list (string * json))
    (s : string) (v : json) (rest : string) :
  parse_members fuel acc s = POk v rest -> exists props, v = JObject props.
Proof.
  revert acc s. induction fuel as [|fuel IH]; intros acc s; simpl; [discriminate|].
  repeat match goal with
         | |- context [match ?x with _ => _ end] => destruct x eqn:?
         end; try discriminate.
  - apply IH.
  - intros [= <- <-]. eauto.
Qed.

(** A text whose first character is an opening brace parses to an object,
    if it parses at all. *)
Lemma JSON_parse_object (r : string) (v : json) :
  JSON_parse (String "{" r) = Some v -> exists props, v = JObject props.
Proof.
  unfold JSON_parse. generalize (parse_fuel (String "{" r)). intros [|fuel].
  - discriminate.
  - cbn [parse_value skip_ws].
    change (is_ws "{") with false. cbv iota.
    change (Ascii.eqb "{" "{") with true. cbv iota.
    destruct (skip_ws r) as [|d r'] eqn:Hr; [discriminate|].
    destruct (Ascii.eqb d "}").
    + destruct (skip_ws r'); [|discriminate]. intros [= <-]. eauto.
    + destruct (parse_members fuel [] (String d r')) as [v' rest| |] eqn:Hm;
        try discriminate.
      destruct (skip_ws rest); [|discriminate]. intros [= <-].
      eapply parse_members_object, Hm.
Qed.

Lemma extract_json_brace (reply text : string) :
  extract_json reply = Some text -> exists r, text = String "{" r.
Proof.
  unfold extract_json, Regex.exec.
  destruct (Regex.exec_from Regex.braces 0 reply) as [[j m]|] eqn:He;
    [|discriminate].
  intros [= <-]. apply RegexFacts.exec_from_some in He.
  destruct He as (pre & r & n & _ & _ & ->). rewrite take_cons. eauto.
Qed.

End JsonFacts.

(** ** What the parser consumes *)

Section ParserFacts.
Context `{Num : Number}.

Lemma consumed_length (s r : string) :
  consumed s r -> (String.length r < String.length s)%nat.
Proof.
  intros (x & c & ->). cbn [String.length]. rewrite length_append. lia.
Qed.

Lemma consumed_append (a s r : string) : consumed s r -> consumed (a +:+ s) r.
Proof.
  intros (x & c & ->). destruct a as [|y a].
  - exists x, c. reflexivity.
  - exists y, (a +:+ String x c). rewrite append_cons. f_equal.
    rewrite append_assoc. reflexivity.
Qed.

Lemma consumed_trans (s t r : string) :
  consumed s t -> consumed t r -> consumed s r.
Proof.
  intros (x & c & ->) H. change (String x (c +:+ t)) with (String x c +:+ t).
  now apply consumed_append.
Qed.

Lemma closed_by_consumed (d : ascii) (s r : string) :
  closed_by d s r -> consumed s r.
Proof.
  intros (c & ->). apply consumed_append. exists d, EmptyString. reflexivity.
Qed.

Lemma closed_by_append (d : ascii) (a s r : string) :
  closed_by d s r -> closed_by d (a +:+ s) r.
Proof. intros (c & ->). exists (a +:+ c). now rewrite append_assoc. Qed.

Lemma skip_ws_rest (s : string) : exists c, s = c +:+ skip_ws s.
Proof.
  induction s as [|x s [c IH]]; [now exists EmptyString|].
  cbn [skip_ws]. destruct (is_ws x).
  - exists (String x c). rewrite append_cons. now f_equal.
  - now exists EmptyString.
Qed.

Lemma consumed_skip_ws (s r : string) : consumed (skip_ws s) r -> consumed s r.
Proof.
  destruct (skip_ws_rest s) as [c Hc]. intros H. rewrite Hc.
  now apply consumed_append.
Qed.

Lemma closed_by_skip_ws (d : ascii) (s r : string) :
  closed_by d (skip_ws s) r -> closed_by d s r.
Proof.
  destruct (skip_ws_rest s) as [c Hc]. intros H. rewrite Hc.
  now apply closed_by_append.
Qed.

Lemma consumed_cons (x : ascii) (s r : string) :
  consumed s r -> consumed (String x s) r.
Proof. apply (consumed_append (String x EmptyString)). Qed.

Lemma consumed_one (x : ascii) (r : string) : consumed (String x r) r.
Proof. now exists x, EmptyString. Qed.

Lemma cons_to_some (p : string) (o : option (string * string)) (t r : string) :
  cons_to p o = Some (t, r) -> exists t', o = Some (t', r).
Proof. destruct o as [[t' r']|]; simpl; [|discriminate]. intros [= _ <-]. eauto. Qed.

Lemma parse_chars_consumed (s t r : string) :
  parse_chars s = Some (t, r) -> consumed s r.
Proof.
  remember (S (String.length s)) as n eqn:Hn.
  assert (Hlt : (String.length s < n)%nat) by lia. clear Hn.
  revert s t Hlt. induction n as [|n IHn]; intros s t Hlt; [lia|].
  assert (IH : forall s', (String.length s' < String.length s)%nat ->
            forall t', parse_chars s' = Some (t', r) -> consumed s' r)
    by (intros s' Hl t'; apply IHn; lia).
  clear IHn Hlt.
  destruct s as [|c s]; cbn [parse_chars]; [discriminate|].
  assert (Hrec : forall s' o t0, (String.length s' < String.length (String c s))%nat ->
            consumed (String c s) s' -> forall p, o = parse_chars s' -> cons_to p o = Some (t0, r) -> consumed (String c s) r).
  { intros s' o t0 Hl Hc p -> H. apply cons_to_some in H. destruct H as [t' H].
    eapply consumed_trans; [exact Hc|]. eapply IH; eauto. }
  destruct (Ascii.eqb c "034"). { intros [= _ <-]. apply consumed_one. }
  destruct (Ascii.eqb c "\").
  - destruct s as [|e r1]; [discriminate|].
    assert (H1 : consumed (String c (String e r1)) r1)
      by (exists c, (String e EmptyString); reflexivity).
    assert (L1 : (String.length r1 < String.length (String c (String e r1)))%nat)
      by (simpl; lia).
    repeat match goal with
           | |- (if ?b then _ else _) = _ -> _ => destruct b
           end;
      try (intros H; eapply Hrec; [exact L1 | exact H1 | reflexivity | exact H]);
      try discriminate.
    destruct r1 as [|h1 [|h2 [|h3 [|h4 r2]]]]; try discriminate.
    destruct (hex4 h1 h2 h3 h4); [|discriminate].
    intros H. eapply Hrec; [| | reflexivity | exact H].
    + simpl. lia.
    + exists c, (String e (String h1 (String h2 (String h3 (String h4 EmptyString))))).
      reflexivity.
  - destruct (N_of_ascii c <? 32)%N; [discriminate|].
    intros H. eapply Hrec; [| | reflexivity | exact H].
    + simpl. lia.
    + apply consumed_one.
Qed.

Lemma rest_of_refl (s : string) : rest_of s s.
Proof. now exists EmptyString. Qed.

Lemma rest_of_cons (x : ascii) (s r : string) : rest_of s r -> rest_of (String x s) r.
Proof. intros (c & ->). now exists (String x c). Qed.

Lemma rest_of_trans (s t r : string) : rest_of s t -> rest_of t r -> rest_of s r.
Proof. intros (a & ->) (b & ->). exists (a +:+ b). now rewrite append_assoc. Qed.

Lemma consumed_rest (s t r : string) : consumed s t -> rest_of t r -> consumed s r.
Proof.
  intros (x & c & ->) (b & ->). exists x, (c +:+ b). now rewrite append_assoc.
Qed.

Lemma span_digits_rest (s ds r : string) :
  span_digits s = (ds, r) -> rest_of s r.
Proof.
  revert ds. induction s as [|c s IH]; intros ds; cbn [span_digits].
  - intros [= _ <-]. apply rest_of_refl.
  - destruct (is_digit c).
    + destruct (span_digits s) as [ds' rest]. intros [= _ <-].
      apply rest_of_cons. eapply IH. reflexivity.
    + intros [= _ <-]. apply rest_of_refl.
Qed.

Lemma lex_number_consumed (s l r : string) :
  lex_number s = Some (l, r) -> consumed s r.
Proof.
  unfold lex_number.
  set (p := match s with
            | String c r0 => if Ascii.eqb c "-" then ("-", r0) else (EmptyString, s)
            | EmptyString => (EmptyString, s)
            end).
  assert (Hp : rest_of s p.2).
  { subst p. destruct s as [|c r0]; [apply rest_of_refl|].
    destruct (Ascii.eqb c "-"); [apply rest_of_cons|]; apply rest_of_refl. }
  destruct p as [sign s1]. cbn [snd] in Hp.
  destruct s1 as [|c r1]; [discriminate|].
  destruct (is_digit c); [|discriminate]. cbn [negb].
  set (q := if Ascii.eqb c "0" then ("0", r1)
            else let '(ds, rest) := span_digits r1 in (String c ds, rest)).
  assert (Hq : rest_of r1 q.2).
  { subst q. destruct (Ascii.eqb c "0"); [apply rest_of_refl|].
    destruct (span_digits r1) as [ds rest] eqn:Hs.
    eapply span_digits_rest, Hs. }
  destruct q as [int s2]. cbn [snd] in Hq.
  set (frac := match s2 with
               | String d r2 =>
                   if Ascii.eqb d "." then
                     let '(ds, rest) := span_digits r2 in
                     match ds with
                     | EmptyString => None
                     | _ => Some ("." +:+ ds, rest)
                     end
                   else Some (EmptyString, s2)
               | EmptyString => Some (EmptyString, s2)
               end).
  assert (Hf : forall fr s3, frac = Some (fr, s3) -> rest_of s2 s3).
  { subst frac. intros fr s3. destruct s2 as [|d r2].
    - intros [= _ <-]. apply rest_of_refl.
    - destruct (Ascii.eqb d ".").
      + destruct (span_digits r2) as [ds rest] eqn:Hs.
        destruct ds; [discriminate|]. intros [= _ <-].
        apply rest_of_cons. eapply span_digits_rest, Hs.
      + intros [= _ <-]. apply rest_of_refl. }
  destruct frac as [[fr s3]|]; [|discriminate].
  specialize (Hf _ _ eq_refl).
  match goal with |- match ?e with _ => _ end = _ -> _ => set (ex := e) end.
  assert (He : forall x s4, ex = Some (x, s4) -> rest_of s3 s4).
  { subst ex. intros x s4. destruct s3 as [|e r3].
    - intros [= _ <-]. apply rest_of_refl.
    - destruct (Ascii.eqb e "e" || Ascii.eqb e "E").
      + set (g := match r3 with
                  | String g r3' =>
                      if Ascii.eqb g "+" || Ascii.eqb g "-"
                      then (String g EmptyString, r3')
                      else (EmptyString, r3)
                  | EmptyString => (EmptyString, r3)
                  end).
        assert (Hg : rest_of r3 g.2).
        { subst g. destruct r3 as [|g r3']; [apply rest_of_refl|].
          destruct (Ascii.eqb g "+" || Ascii.eqb g "-");
            [apply rest_of_cons|]; apply rest_of_refl. }
        destruct g as [sg r4]. cbn [snd] in Hg.
        destruct (span_digits r4) as [ds rest] eqn:Hs.
        destruct ds; [discriminate|]. intros [= _ <-].
        apply rest_of_cons. eapply rest_of_trans; [exact Hg|].
        eapply span_digits_rest, Hs.
      + intros [= _ <-]. apply rest_of_refl. }
  destruct ex as [[x s4]|]; [|discriminate]. specialize (He _ _ eq_refl).
  intros [= _ <-].
  destruct Hp as [a ->]. apply consumed_append.
  eapply consumed_rest; [apply consumed_one|].
  eapply rest_of_trans; [exact Hq|]. eapply rest_of_trans; eassumption.
Qed.

Lemma strip_prefix_rest (p s r : string) :
  strip_prefix p s = Some r -> s = p +:+ r.
Proof.
  revert s. induction p as [|a p IH]; intros s; cbn [strip_prefix].
  - now intros [= ->].
  - destruct s as [|b s]; [discriminate|].
    destruct (Ascii.eqb a b) eqn:Hab; [|discriminate].
    apply Ascii.eqb_eq in Hab. subst b. intros H.
    rewrite append_cons. f_equal. now apply IH.
Qed.

Lemma parse_string_consumed (s t r : string) :
  parse_string s = Some (t, r) -> consumed s r.
Proof.
  unfold parse_string. destruct (parse_chars s) as [[t' r']|] eqn:H; [|discriminate].
  intros [= _ <-]. eapply parse_chars_consumed, H.
Qed.

Lemma parse_scalar_consumed (c : ascii) (s : string) (v : json) (r : string) :
  parse_scalar c s = POk v r -> consumed s r /\ forall props, v <> JObject props.
Proof.
  unfold parse_scalar. destruct s as [|x s]; [discriminate|].
  destruct (Ascii.eqb c "034").
  - destruct (parse_string s) as [[t rest]|] eqn:H; [|discriminate].
    intros [= <- <-]. split; [|discriminate].
    apply consumed_cons. eapply parse_string_consumed, H.
  - destruct (strip_prefix "true" (String x s)) as [rest|] eqn:H1.
    { intros [= <- <-]. split; [|discriminate].
      apply strip_prefix_rest in H1. rewrite H1. now eexists _, _. }
    destruct (strip_prefix "false" (String x s)) as [rest|] eqn:H2.
    { intros [= <- <-]. split; [|discriminate].
      apply strip_prefix_rest in H2. rewrite H2. now eexists _, _. }
    destruct (strip_prefix "null" (String x s)) as [rest|] eqn:H3.
    { intros [= <- <-]. split; [|discriminate].
      apply strip_prefix_rest in H3. rewrite H3. now eexists _, _. }
    destruct (lex_number (String x s)) as [[lexeme rest]|] eqn:H4; [|discriminate].
    intros [= <- <-]. split; [|discriminate].
    eapply lex_number_consumed, H4.
Qed.

Lemma parse_scalar_fuel (c : ascii) (s : string) : parse_scalar c s <> POutOfFuel.
Proof.
  unfold parse_scalar. destruct s as [|x s]; [discriminate|].
  repeat match goal with
         | |- context [match ?e with _ => _ end] => destruct e
         end; discriminate.
Qed.


Lemma rest_of_length (s r : string) :
  rest_of s r -> (String.length r <= String.length s)%nat.
Proof. intros (c & ->). rewrite length_append. lia. Qed.

Lemma skip_ws_rest_of (s : string) : rest_of s (skip_ws s).
Proof. apply skip_ws_rest. Qed.

Lemma closed_by_one (d : ascii) (r : string) : closed_by d (String d r) r.
Proof. now exists EmptyString. Qed.

Lemma closed_by_cons (d x : ascii) (s r : string) :
  closed_by d s r -> closed_by d (String x s) r.
Proof. apply (closed_by_append d (String x EmptyString)). Qed.

Lemma closed_by_consumed_l (d : ascii) (s t r : string) :
  consumed s t -> closed_by d t r -> closed_by d s r.
Proof.
  intros (x & c & ->) H.
  change (String x (c +:+ t)) with (String x c +:+ t).
  now apply closed_by_append.
Qed.

(** What the three parsers consume: at least one character, and for an
    object a text that ends with its closing brace. *)
Lemma parse_consumed (fuel : nat) :
  (forall s v r, parse_value fuel s = POk v r ->
     consumed s r /\ forall props, v = JObject props -> closed_by "}" s r) /\
  (forall acc s v r, parse_elements fuel acc s = POk v r ->
     consumed s r /\ forall props, v <> JObject props) /\
  (forall acc s v r, parse_members fuel acc s = POk v r -> closed_by "}" s r).
Proof.
  induction fuel as [|fuel (IHv & IHe & IHm)];
    [repeat split; intros; discriminate|].
  split; [|split].
  - intros s v r. cbn [parse_value].
    destruct (skip_ws s) as [|c r0] eqn:Hs; [discriminate|].
    assert (Hback : forall r', consumed (String c r0) r' -> consumed s r')
      by (intros r' H; apply consumed_skip_ws; now rewrite Hs).
    assert (Hclose : forall r', closed_by "}" (String c r0) r' -> closed_by "}" s r')
      by (intros r' H; apply closed_by_skip_ws; now rewrite Hs).
    destruct (Ascii.eqb c "{").
    + destruct (skip_ws r0) as [|d r'] eqn:Hr0; [discriminate|].
      intros H. assert (Hc : closed_by "}" s r).
      { apply Hclose, closed_by_cons, closed_by_skip_ws. rewrite Hr0.
        revert H. destruct (Ascii.eqb d "}") eqn:Hd; intros H.
        - apply Ascii.eqb_eq in Hd. subst d. injection H as _ <-.
          apply closed_by_one.
        - eapply IHm, H. }
      split; [eapply closed_by_consumed, Hc | intros _ _; exact Hc].
    + destruct (Ascii.eqb c "[").
      * destruct (skip_ws r0) as [|d r'] eqn:Hr0; [discriminate|].
        destruct (Ascii.eqb d "]").
        -- intros [= <- <-]. split; [|discriminate].
           apply Hback, consumed_cons, consumed_skip_ws. rewrite Hr0.
           apply consumed_one.
        -- intros H. destruct (IHe _ _ _ _ H) as [Hc Hn].
           split; [|intros props ->; now destruct (Hn props)].
           apply Hback, consumed_cons, consumed_skip_ws. now rewrite Hr0.
      * intros H. destruct (parse_scalar_consumed _ _ _ _ H) as [Hc Hn].
        split; [now apply Hback | intros props ->; now destruct (Hn props)].
  - intros acc s v r. cbn [parse_elements].
    destruct (parse_value fuel s) as [v1 r1| |] eqn:Hv; try discriminate.
    destruct (IHv _ _ _ Hv) as [Hc1 _].
    destruct (skip_ws r1) as [|d r'] eqn:Hr1; [discriminate|].
    assert (Hc2 : consumed s r').
    { eapply consumed_trans; [exact Hc1|]. apply consumed_skip_ws.
      rewrite Hr1. apply consumed_one. }
    destruct (Ascii.eqb d ",").
    + intros H. destruct (IHe _ _ _ _ H) as [Hc Hn]. split; [|exact Hn].
      eapply consumed_trans; eassumption.
    + destruct (Ascii.eqb d "]"); [|discriminate].
      intros [= <- <-]. split; [exact Hc2 | discriminate].
  - intros acc s v r. cbn [parse_members].
    destruct (skip_ws s) as [|q r0] eqn:Hs; [discriminate|].
    destruct (Ascii.eqb q "034"); [|discriminate]. cbn [negb].
    destruct (parse_string r0) as [[k r1]|] eqn:Hk; [|discriminate].
    destruct (skip_ws r1) as [|colon r2] eqn:Hr1; [discriminate|].
    destruct (Ascii.eqb colon ":"); [|discriminate]. cbn [negb].
    destruct (parse_value fuel r2) as [v1 r3| |] eqn:Hv; try discriminate.
    destruct (IHv _ _ _ Hv) as [Hc3 _].
    destruct (skip_ws r3) as [|d r4] eqn:Hr3; [discriminate|].
    assert (Hc : consumed s r3).
    { apply consumed_skip_ws. rewrite Hs. apply consumed_cons.
      eapply consumed_trans; [eapply parse_string_consumed, Hk|].
      apply consumed_skip_ws. rewrite Hr1. apply consumed_cons. exact Hc3. }
    assert (Hd : forall r', closed_by "}" (String d r4) r' -> closed_by "}" s r').
    { intros r' H. eapply closed_by_consumed_l; [exact Hc|].
      apply closed_by_skip_ws. now rewrite Hr3. }
    destruct (Ascii.eqb d ",").
    + intros H. apply Hd, closed_by_cons. eapply IHm, H.
    + destruct (Ascii.eqb d "}") eqn:Hb; [|discriminate].
      apply Ascii.eqb_eq in Hb. subst d. intros [= <- <-].
      apply Hd, closed_by_one.
Qed.

(** The fuel of [JSON_parse] never runs out. *)
Lemma parse_fuel_enough (fuel : nat) :
  (forall s, (2 * String.length s < fuel)%nat ->
     parse_value fuel s <> POutOfFuel) /\
  (forall acc s, (2 * String.length s + 1 < fuel)%nat ->
     parse_elements fuel acc s <> POutOfFuel) /\
  (forall acc s, (2 * String.length s + 1 < fuel)%nat ->
     parse_members fuel acc s <> POutOfFuel).
Proof.
  induction fuel as [|fuel (IHv & IHe & IHm)]; [repeat split; intros; lia|].
  split; [|split].
  - intros s Hl. cbn [parse_value].
    pose proof (rest_of_length _ _ (skip_ws_rest_of s)) as Hs.
    destruct (skip_ws s) as [|c r0]; [discriminate|]. cbn [String.length] in Hs.
    pose proof (rest_of_length _ _ (skip_ws_rest_of r0)) as Hr0.
    destruct (Ascii.eqb c "{").
    + destruct (skip_ws r0) as [|d r']; [discriminate|].
      destruct (Ascii.eqb d "}"); [discriminate|]. apply IHm. lia.
    + destruct (Ascii.eqb c "[").
      * destruct (skip_ws r0) as [|d r']; [discriminate|].
        destruct (Ascii.eqb d "]"); [discriminate|]. apply IHe. lia.
      * apply parse_scalar_fuel.
  - intros acc s Hl. cbn [parse_elements].
    destruct (parse_value fuel s) as [v1 r1| |] eqn:Hv.
    + destruct (proj1 (parse_consumed fuel) _ _ _ Hv) as [Hc _].
      apply consumed_length in Hc.
      pose proof (rest_of_length _ _ (skip_ws_rest_of r1)) as Hr1.
      destruct (skip_ws r1) as [|d r']; [discriminate|].
      cbn [String.length] in Hr1.
      destruct (Ascii.eqb d ","); [apply IHe; lia|].
      destruct (Ascii.eqb d "]"); discriminate.
    + discriminate.
    + exfalso. eapply IHv; [|exact Hv]. lia.
  - intros acc s Hl. cbn [parse_members].
    pose proof (rest_of_length _ _ (skip_ws_rest_of s)) as Hs.
    destruct (skip_ws s) as [|q r0]; [discriminate|]. cbn [String.length] in Hs.
    destruct (negb (Ascii.eqb q "034")); [discriminate|].
    destruct (parse_string r0) as [[k r1]|] eqn:Hk; [|discriminate].
    apply parse_string_consumed, consumed_length in Hk.
    pose proof (rest_of_length _ _ (skip_ws_rest_of r1)) as Hr1.
    destruct (skip_ws r1) as [|colon r2]; [discriminate|].
    cbn [String.length] in Hr1.
    destruct (negb (Ascii.eqb colon ":")); [discriminate|].
    destruct (parse_value fuel r2) as [v1 r3| |] eqn:Hv.
    + destruct (proj1 (parse_consumed fuel) _ _ _ Hv) as [Hc _].
      apply consumed_length in Hc.
      pose proof (rest_of_length _ _ (skip_ws_rest_of r3)) as Hr3.
      destruct (skip_ws r3) as [|d r4]; [discriminate|].
      cbn [String.length] in Hr3.
      destruct (Ascii.eqb d ","); [apply IHm; lia|].
      destruct (Ascii.eqb d "}"); discriminate.
    + discriminate.
    + exfalso. eapply IHv; [|exact Hv]. lia.
Qed.

(** [JSON_parse] answers [None] only for a text that is not JSON. *)
Lemma JSON_parse_fuel (text : string) :
  parse_value (parse_fuel text) text <> POutOfFuel.
Proof. apply parse_fuel_enough. unfold parse_fuel. lia. Qed.

(** A text that starts with an opening brace and parses to an object, with
    nothing after it, ends with a closing brace. *)
Lemma object_text_closed (r : string) (props : list (string * json)) :
  parse_value (parse_fuel (String "{" r)) (String "{" r)
  = POk (JObject props) EmptyString ->
  exists mid, r = mid +:+ String "}" EmptyString.
Proof.
  intros H. destruct (proj1 (parse_consumed _) _ _ _ H) as [_ Hc].
  destruct (Hc props eq_refl) as [[|x c] Hcl].
  - discriminate.
  - injection Hcl as _ ->. eauto.
Qed.

End ParserFacts.

(** ** The script *)

Arguments prompt : simpl never.
Arguments requestData : simpl never.
Arguments dateStr : simpl never.
Arguments dataDir : simpl never.
Arguments filePath : simpl never.
Arguments read_content : simpl never.
Arguments call_match : simpl never.
Arguments call_JSON_parse : simpl never.
Arguments Set_ : simpl never.
Arguments falsy : simpl never.
Arguments JSON_stringify_2 : simpl never.
Arguments JSON_stringify : simpl never.
Arguments call_JSON_stringify : simpl never.
Arguments call_JSON_stringify_2 : simpl never.
Arguments dirname : simpl never.

(** Case analysis on the innermost scrutinee of the goal. *)
Ltac split_match :=
  match goal with
  | |- context [match ?x with _ => _ end] =>
      lazymatch x with
      | context [match _ with _ => _ end] => fail
      | _ => destruct x eqn:?
      end
  end.

Ltac unfold_monad :=
  unfold try_catch, bind, ret, throw, lift, console_log, console_error,
    process_exit, modify, set_fs.

Section ScriptFacts.
Context `{Num : Number}.

Lemma prepared (body : json) (aiReply : option json) (text : string)
    (parsed final x : json) :
  read_content body = Ok aiReply ->
  call_match aiReply = Ok (Some text) ->
  call_JSON_parse text = Ok parsed ->
  Set_ parsed "date" x = Ok final ->
  exists reply props,
    read_content body = Ok (Some (JString reply)) /\
    extract_json reply = Some text /\
    JSON_parse text = Some (JObject props) /\
    final = JObject (obj_set "date" x props).
Proof.
  intros Hc Hm Hp Hs. unfold call_match in Hm.
  destruct aiReply as [[| | |reply| |]|]; try discriminate.
  injection Hm as Hm. unfold call_JSON_parse in Hp.
  destruct (JSON_parse text) as [v|] eqn:Hv; [|discriminate].
  injection Hp as ->.
  destruct (extract_json_brace _ _ Hm) as [r ->].
  destruct (JSON_parse_object _ _ Hv) as [props ->].
  injection Hs as <-. exists reply, props. auto.
Qed.

Lemma path_join_neq (a b : string) : b <> EmptyString -> path_join a b <> a.
Proof.
  intros Hb H. apply (f_equal String.length) in H. unfold path_join in H.
  destruct (ends_with_slash a); rewrite !length_append in H;
    destruct b; try congruence; simpl in H; lia.
Qed.

Lemma filePath_neq_dataDir (w : World) : filePath w <> dataDir w.
Proof. apply path_join_neq. discriminate. Qed.

(** The [catch] block only prints and sets the exit code, and so does the
    engine when the block throws. *)
Lemma settle_handler (w : World) (e : JsError) (s : State) :
  settle (handler w e s) =
  {| fs := fs s; console := (console s ++ report w e)%list;
     posts := posts s; writes := writes s; exit_code := Some 1%Z |}.
Proof.
  unfold handler, report, call_JSON_stringify. unfold_monad.
  destruct (error_response e) as [[status data]|];
    [destruct (stack_overflow w data)|destruct (error_request e)];
    simpl; rewrite <- ?app_assoc; reflexivity.
Qed.

Lemma run_unfold (w : World) : run w = conclude w (body w (initial w)).
Proof.
  unfold run, generateContent, try_catch, conclude.
  destruct (body w (initial w)) as [[[]|e] s]; [reflexivity|].
  apply settle_handler.
Qed.

(** What section 5 does to a state: it fails before the call of
    [fs.writeFile], with the file system as it was or with the data
    directory created and the object too deep to print, or it makes the
    call. *)
Lemma write_file_spec (w : World) (h : json) (s : State) :
  let data := JSON_stringify_2 h in
  let r := (write_file w h s).1 in
  let s' := (write_file w h s).2 in
  posts s' = posts s /\ exit_code s' = exit_code s /\
  ((exists e, r = Throw e /\ writes s' = writes s /\ fs s' = fs s) \/
   (stack_overflow w h = true /\ r = Throw RangeError /\
    writes s' = writes s /\ fs s !! dataDir w = None /\
    fs s' = <[dataDir w := Dir]> (fs s)) \/
   (stack_overflow w h = false /\
    writes s' = (writes s ++ [(filePath w, data)])%list /\
    ((r = Ok tt /\ fs s' !! filePath w = Some (File data)) \/
     (exists e, r = Throw e /\
        (fs s' !! filePath w = fs s !! filePath w \/
         exists n, write_fault w = FailsAfter n /\
           fs s' !! filePath w = Some (File (JsString.take n data))))))).
Proof.
  pose proof (filePath_neq_dataDir w) as Hne.
  unfold write_file, fs_access, fs_mkdir, fs_writeFile, call_JSON_stringify_2.
  unfold_monad. simpl.
  destruct (stack_overflow w h) eqn:Hover.
  - repeat (split_match; simpl).
    all: split; [reflexivity|]; split; [reflexivity|].
    all: first
           [ left; eexists; split; [reflexivity|]; split; reflexivity
           | right; left; repeat split; (reflexivity || assumption) ].
  - repeat (split_match; simpl).
    all: split; [reflexivity|]; split; [reflexivity|].
    all: try (left; eexists; split; [reflexivity|]; split; reflexivity).
    all: right; right; split; [reflexivity|]; split; [reflexivity|].
    all: first
           [ left; split; [reflexivity|]; by rewrite lookup_insert_eq
           | right; eexists; split; [reflexivity|];
             first [ left; (reflexivity || assumption || by rewrite lookup_insert_ne)
                   | right; eexists; split; [reflexivity|];
                     by rewrite lookup_insert_eq ] ].
Qed.

(** How far the body of the [try] block gets. *)
Lemma body_inv (w : World) :
  let r := (body w (initial w)).1 in
  let s := (body w (initial w)).2 in
  exit_code s = None /\
  ((exists e, r = Throw e /\ writes s = [] /\ fs s = disk w) \/
   (exists props,
      Reached w props /\ stack_overflow w (healthData w props) = true /\
      r = Throw RangeError /\ writes s = [] /\
      disk w !! dataDir w = None /\ fs s = <[dataDir w := Dir]> (disk w)) \/
   exists props,
     Reached w props /\ stack_overflow w (healthData w props) = false /\
     writes s = [(filePath w, content w props)] /\
     ((r = Ok tt /\ fs s !! filePath w = Some (File (content w props))) \/
      (exists e, r = Throw e /\
         (fs s !! filePath w = disk w !! filePath w \/
          exists n, write_fault w = FailsAfter n /\
            fs s !! filePath w =
            Some (File (JsString.take n (content w props))))))).
Proof.
  unfold body, axios_post, initial. unfold_monad. simpl.
  destruct (falsy (env_AI_API_KEY w)) eqn:Hkey; simpl.
  { split; [reflexivity|]. left. eauto. }
  fold (sent_request w).
  destruct (transport w (sent_request w)) as [status body| |] eqn:Ht; simpl;
    [|split; [reflexivity|]; left; eauto..].
  destruct ((200 <=? status)%Z && (status <? 300)%Z) eqn:Hst; simpl;
    [|split; [reflexivity|]; left; eauto].
  destruct (read_content body) as [aiReply|e] eqn:Hc; simpl;
    [|split; [reflexivity|]; left; eauto].
  destruct (call_match aiReply) as [[text|]|e] eqn:Hm; simpl;
    [| split; [reflexivity|]; left; eauto..].
  destruct (call_JSON_parse text) as [parsed|e] eqn:Hp; simpl;
    [|split; [reflexivity|]; left; eauto].
  destruct (Set_ parsed "date" (JString (dateStr w))) as [final|e] eqn:Hs; simpl;
    [|split; [reflexivity|]; left; eauto].
  destruct (prepared _ _ _ _ _ _ Hc Hm Hp Hs)
    as (reply & props & Hc' & He & Hj & ->).
  assert (HR : Reached w props).
  { split; [exact Hkey|]. exists status, body, reply, text.
    repeat split; try assumption; lia. }
  fold (healthData w props).
  match goal with |- context [write_file w ?h ?s] =>
    pose proof (write_file_spec w h s) as Hw; simpl in Hw;
    destruct (write_file w h s) as [r s'] end.
  simpl in *.
  destruct Hw as (_ & -> & [(e & -> & -> & ->)|[(Ho & -> & -> & Hd & ->)|(Ho & -> & Hw)]]).
  - split; [reflexivity|]. left. eauto.
  - split; [reflexivity|]. right. left. exists props.
    split; [exact HR|]. split; [exact Ho|]. auto.
  - split; [reflexivity|]. right. right. exists props. split; [exact HR|].
    split; [exact Ho|]. split; [reflexivity|]. exact Hw.
Qed.

(** How a run ends. *)
Lemma run_inv (w : World) :
  (writes (run w) = [] /\ fs (run w) = disk w /\ exit_code (run w) = Some 1%Z) \/
  (exists props,
     Reached w props /\ stack_overflow w (healthData w props) = true /\
     writes (run w) = [] /\ exit_code (run w) = Some 1%Z /\
     disk w !! dataDir w = None /\ fs (run w) = <[dataDir w := Dir]> (disk w)) \/
  exists props,
    Reached w props /\ stack_overflow w (healthData w props) = false /\
    writes (run w) = [(filePath w, content w props)] /\
    ((exit_code (run w) = None /\
      fs (run w) !! filePath w = Some (File (content w props))) \/
     (exit_code (run w) = Some 1%Z /\
      (fs (run w) !! filePath w = disk w !! filePath w \/
       exists n, write_fault w = FailsAfter n /\
         fs (run w) !! filePath w =
         Some (File (JsString.take n (content w props)))))).
Proof.
  rewrite run_unfold. pose proof (body_inv w) as Hb. simpl in Hb.
  destruct (body w (initial w)) as [r s]. simpl in Hb.
  destruct Hb as (Hx & [(e & -> & Hw & Hf)|[(props & HR & Ho & -> & Hw & Hd & Hf)|
                                            (props & HR & Ho & Hw & Hb)]]).
  - left. simpl. auto.
  - right. left. exists props. simpl.
    split; [exact HR|]. split; [exact Ho|]. auto.
  - right. right. exists props. split; [exact HR|]. split; [exact Ho|].
    destruct Hb as [(-> & Hf)|(e & -> & Hf)]; simpl; auto.
Qed.

End ScriptFacts.

(** ** Runs *)

Section RunFacts.
Context `{Num : Number}.

(** A run that has a credential, from the answer to the request on. *)
Lemma run_after_post (w : World) :
  falsy (env_AI_API_KEY w) = false ->
  run w =
  conclude w
    ((aiReply <- lift (match transport w (sent_request w) with
                       | HttpResponse status body =>
                           if (200 <=? status)%Z && (status <? 300)%Z
                           then read_content body
                           else Throw (AxiosError (Some (status, body)) true)
                       | NoResponse => Throw (AxiosError None true)
                       | SetupFailure => Throw (AxiosError None false)
                       end) ;;
      jsonMatch <- lift (call_match aiReply) ;;
      match jsonMatch with
      | None => throw (Error no_json)
      | Some text =>
          parsed <- lift (call_JSON_parse text) ;;
          healthData <- lift (Set_ parsed "date" (JString (dateStr w))) ;;
          write_file w healthData
      end)
     {| fs := disk w; console := (started w ++ [calling])%list;
        posts := [sent_request w]; writes := []; exit_code := None |}).
Proof.
  intros Hkey. rewrite run_unfold. unfold body, axios_post, initial.
  unfold_monad. simpl. rewrite Hkey. simpl. fold (sent_request w).
  destruct (transport w (sent_request w)) as [status body| |]; simpl;
    try reflexivity.
  destruct ((200 <=? status)%Z && (status <? 300)%Z); simpl; reflexivity.
Qed.

Lemma extract_json_none_iff (s : string) :
  extract_json s = None <-> ~ brace_pair s.
Proof.
  unfold extract_json, Regex.exec. split.
  - destruct (Regex.exec_from Regex.braces 0 s) as [[j m]|] eqn:He;
      [discriminate|].
    intros _ (a & b & c & ->).
    pose proof (RegexFacts.exec_from_none _ _ He a _ eq_refl) as Hn.
    rewrite contains_append in Hn. cbn [contains] in Hn.
    change (Ascii.eqb "}" "}") with true in Hn.
    rewrite orb_true_l, orb_true_r in Hn. discriminate.
  - intros Hn.
    destruct (Regex.exec_from Regex.braces 0 s) as [[j m]|] eqn:He;
      [|reflexivity].
    exfalso. apply Hn. apply RegexFacts.exec_from_some in He.
    destruct He as (pre & r & n & -> & Hg & _).
    destruct (contains "}" r) eqn:Hc.
    + destruct (contains_split_last _ _ Hc) as (a & b & -> & _).
      exists pre, a, b. reflexivity.
    + apply RegexFacts.greedy_none in Hc. congruence.
Qed.

Lemma Get_throws (v : option json) (k : string) (e : JsError) :
  Get v k = Throw e -> e = TypeError.
Proof. destruct v as [[| | | | |]|]; simpl; congruence. Qed.

Lemma read_content_throws (body : json) (e : JsError) :
  read_content body = Throw e -> e = TypeError.
Proof.
  unfold read_content.
  destruct (Get (Some body) "choices") as [c|e1] eqn:H1;
    [|intros [= <-]; eapply Get_throws, H1].
  destruct (Get c "0") as [c0|e2] eqn:H2;
    [|intros [= <-]; eapply Get_throws, H2].
  destruct (Get c0 "message") as [m|e3] eqn:H3;
    [|intros [= <-]; eapply Get_throws, H3].
  apply Get_throws.
Qed.

Lemma keys_replace (k : string) (v : json) (props : list (string * json)) :
  keys (obj_replace k v props) = keys props.
Proof.
  induction props as [|[k1 v1] r IH]; simpl; [reflexivity|].
  destruct (String.eqb k k1); simpl; [reflexivity | now rewrite IH].
Qed.

Lemma forallb_keys_insert_index (P : string -> bool) (i : N) (k : string)
    (v : json) (props : list (string * json)) :
  forallb P (keys (obj_insert_index i k v props)) = P k && forallb P (keys props).
Proof.
  induction props as [|[k1 v1] r IH]; simpl; [reflexivity|].
  destruct (array_index k1) as [j|]; [destruct (j <? i)%N|]; simpl;
    try reflexivity.
  rewrite IH. now destruct (P k), (P k1).
Qed.

Lemma forallb_keys_has (P : string -> bool) (k : string)
    (props : list (string * json)) :
  obj_has k props = true -> forallb P (keys props) = P k && forallb P (keys props).
Proof.
  unfold obj_has. induction props as [|[k1 v1] r IH]; simpl; [discriminate|].
  destruct (String.eqb k k1) eqn:Hk.
  - apply String.eqb_eq in Hk. subst k1. intros _. now destruct (P k).
  - intros H. rewrite (IH H). now destruct (P k), (P k1).
Qed.

Lemma forallb_keys_set (P : string -> bool) (k : string) (v : json)
    (props : list (string * json)) :
  forallb P (keys (obj_set k v props)) = P k && forallb P (keys props).
Proof.
  unfold obj_set. destruct (obj_has k props) eqn:Hh.
  - rewrite keys_replace. now apply forallb_keys_has.
  - destruct (array_index k).
    + apply forallb_keys_insert_index.
    + unfold keys. rewrite map_app, forallb_app. simpl.
      rewrite andb_true_r. apply andb_comm.
Qed.

Lemma obj_has_set (k k' : string) (v : json) (props : list (string * json)) :
  obj_has k' (obj_set k v props) = String.eqb k' k || obj_has k' props.
Proof.
  unfold obj_has at 1. destruct (String.eqb k' k) eqn:Hk.
  - apply String.eqb_eq in Hk. subst k'. now rewrite obj_get_set_eq.
  - apply String.eqb_neq in Hk. now rewrite obj_get_set_ne.
Qed.

Lemma conforms_healthData (w : World) (props : list (string * json)) :
  conforms (healthData w props) = reply_conforms props.
Proof.
  unfold conforms, reply_conforms, healthData, object_with, member, has_exactly.
  rewrite forallb_keys_set. cbn [forallb].
  rewrite !obj_has_set, obj_get_set_ne by discriminate.
  change (String.eqb "date" "date") with true.
  change (String.eqb "healthTips" "date") with false.
  change (existsb (String.eqb "date") ["date"; "healthTips"]) with true.
  cbn [orb andb]. now rewrite andb_true_r.
Qed.

Lemma written_inv (w : World) (p data : string) :
  In (p, data) (writes (run w)) ->
  exists props,
    Reached w props /\ writes (run w) = [(filePath w, content w props)] /\
    p = filePath w /\ data = content w props.
Proof.
  intros Hin.
  destruct (run_inv w) as [(Hw & _)|[(props & _ & _ & Hw & _)|(props & HR & _ & Hw & _)]].
  - rewrite Hw in Hin. destruct Hin.
  - rewrite Hw in Hin. destruct Hin.
  - exists props. rewrite Hw in Hin. destruct Hin as [[= <- <-]|[]]. auto.
Qed.

Lemma success_inv (w : World) (p data : string) :
  exit_status (run w) = 0%Z ->
  In (p, data) (writes (run w)) ->
  fs (run w) !! filePath w = Some (File data).
Proof.
  unfold exit_status. intros Hx Hin.
  destruct (run_inv w) as [(Hw & _)|[(props & _ & _ & Hw & _)|(props & HR & _ & Hw & Hc)]].
  - rewrite Hw in Hin. destruct Hin.
  - rewrite Hw in Hin. destruct Hin.
  - rewrite Hw in Hin. destruct Hin as [[= <- <-]|[]].
    destruct Hc as [(_ & Hf)|(Hx' & _)]; [exact Hf|].
    rewrite Hx' in Hx. discriminate.
Qed.

Lemma Reached_reply_text (w : World) (props : list (string * json)) :
  Reached w props ->
  exists reply text,
    reply_text w = Some reply /\ extract_json reply = Some text /\
    JSON_parse text = Some (JObject props).
Proof.
  intros (_ & status & body & reply & text & Ht & Hst & Hc & He & Hj).
  exists reply, text. unfold reply_text. rewrite Ht, Hc.
  replace ((200 <=? status)%Z && (status <? 300)%Z) with true; [auto|].
  symmetry. apply andb_true_intro.
  split; [apply Z.leb_le | apply Z.ltb_lt]; lia.
Qed.

Lemma ends_with_slash_append (a b : string) :
  b <> EmptyString -> ends_with_slash (a +:+ b) = ends_with_slash b.
Proof.
  intros Hb. induction a as [|x a IH]; [reflexivity|].
  rewrite append_cons. cbn [ends_with_slash]. rewrite IH.
  destruct (a +:+ b) eqn:E; [|reflexivity].
  destruct a; [now rewrite append_nil in E | discriminate].
Qed.

Lemma dirname_cons (c : ascii) (r : string) :
  dirname (String c r) =
  match dirname r with
  | Some d => Some (String c d)
  | None => if Ascii.eqb c "/" then Some EmptyString else None
  end.
Proof. reflexivity. Qed.

Lemma dirname_none (b : string) : contains "/" b = false -> dirname b = None.
Proof.
  induction b as [|x b IH]; [reflexivity|]. cbn [contains].
  intros H. apply orb_false_elim in H. destruct H as [Hx Hb].
  rewrite dirname_cons, (IH Hb). rewrite Ascii.eqb_sym. now rewrite Hx.
Qed.

Lemma dirname_segment (a b : string) :
  contains "/" b = false -> dirname (a +:+ String "/" b) = Some a.
Proof.
  intros Hb. induction a as [|x a IH].
  - rewrite append_nil, dirname_cons. now rewrite (dirname_none b Hb).
  - rewrite append_cons, dirname_cons. now rewrite IH.
Qed.

Lemma dataDir_no_slash (w : World) : ends_with_slash (dataDir w) = false.
Proof.
  unfold dataDir, path_join.
  destruct (ends_with_slash (cwd w));
    rewrite ?ends_with_slash_append by discriminate; reflexivity.
Qed.

Lemma dirname_filePath (w : World) : dirname (filePath w) = Some (dataDir w).
Proof.
  unfold filePath, path_join. rewrite dataDir_no_slash.
  now apply dirname_segment.
Qed.


End RunFacts.

(** ** What a run reports and what it leaves alone *)

Section ReportFacts.
Context `{Num : Number}.

(** What section 5 does to a state, path by path and line by line. *)
Lemma write_file_effects (w : World) (h : json) (s : State) :
  let r := (write_file w h s).1 in
  let s' := (write_file w h s).2 in
  posts s' = posts s /\
  exit_code s' = exit_code s /\
  (forall p, p <> filePath w -> p <> dataDir w -> fs s' !! p = fs s !! p) /\
  (fs s' !! dataDir w = fs s !! dataDir w \/
   (fs s !! dataDir w = None /\ fs s' !! dataDir w = Some Dir)) /\
  ((r = Ok tt /\
    console s' =
      (console s ++
       [(Stdout, [Str "✅ 今日养生内容已成功生成并保存至: "; Str (filePath w)]);
        (Stdout, [Str "生成内容摘要:"; Str (JSON_stringify_2 h)])])%list) \/
   (exists e, r = Throw e /\ (e = RangeError \/ exists code, e = SystemError code) /\
      console s' = console s)).
Proof.
  pose proof (filePath_neq_dataDir w) as Hne.
  unfold write_file, fs_access, fs_mkdir, fs_writeFile, call_JSON_stringify_2.
  unfold_monad. simpl.
  destruct (stack_overflow w h) eqn:Hover.
  all: repeat (split_match; simpl).
  all: try congruence.
  all: split; [reflexivity|]; split; [reflexivity|].
  all: split;
    [intros p Hp Hd; rewrite ?lookup_insert_ne by congruence; reflexivity|].
  all: split;
    [first [ left; rewrite ?lookup_insert_ne by congruence;
             (reflexivity || assumption)
           | right; split; [(reflexivity || assumption)|];
             rewrite ?lookup_insert_ne by congruence;
             apply lookup_insert_eq ]|].
  all: first [ left; split; [reflexivity|]; now rewrite <- app_assoc
             | right; eexists; split; [reflexivity|]; split; [|reflexivity];
               first [ left; reflexivity | right; eexists; reflexivity ] ].
Qed.

Lemma status_2xx (status : Z) :
  (200 <=? status)%Z && (status <? 300)%Z = true <-> (200 <= status < 300)%Z.
Proof. rewrite andb_true_iff, Z.leb_le, Z.ltb_lt. tauto. Qed.

Lemma status_not_2xx (status : Z) :
  (200 <=? status)%Z && (status <? 300)%Z = false <-> ~ (200 <= status < 300)%Z.
Proof. rewrite <- status_2xx. now destruct (_ && _). Qed.

(** A run that has a credential, from the request on: the one request, the
    paths it leaves alone and the lines it prints. *)
Lemma run_report (w : World) :
  falsy (env_AI_API_KEY w) = false ->
  posts (run w) = [sent_request w] /\
  (forall p, p <> filePath w -> p <> dataDir w -> fs (run w) !! p = disk w !! p) /\
  (fs (run w) !! dataDir w = disk w !! dataDir w \/
   (disk w !! dataDir w = None /\ fs (run w) !! dataDir w = Some Dir)) /\
  exists tail,
    console (run w) = (started w ++ calling :: tail)%list /\
    ((exit_code (run w) = None /\
      exists props, Reached w props /\ tail = saved w props) \/
     (exit_code (run w) = Some 1%Z /\
      exists status data,
        transport w (sent_request w) = HttpResponse status data /\
        ~ (200 <= status < 300)%Z /\
        tail = failed :: api_status status ::
               (if stack_overflow w data then [uncaught RangeError]
                else [api_detail data])) \/
     (exit_code (run w) = Some 1%Z /\
      transport w (sent_request w) = NoResponse /\
      tail = [failed; network_error]) \/
     (exit_code (run w) = Some 1%Z /\
      (transport w (sent_request w) = SetupFailure \/
       exists status data,
         transport w (sent_request w) = HttpResponse status data /\
         (200 <= status < 300)%Z) /\
      exists m, tail = [failed; script_error m])).
Proof.
  intros Hkey. rewrite (run_after_post w Hkey).
  set (s0 := {| fs := disk w; console := (started w ++ [calling])%list;
                posts := [sent_request w]; writes := []; exit_code := None |}).
  (* the frame, which every ending keeps *)
  set (Frame := fun s1 : State =>
         posts s1 = [sent_request w] /\
         (forall p, p <> filePath w -> p <> dataDir w -> fs s1 !! p = disk w !! p) /\
         (fs s1 !! dataDir w = disk w !! dataDir w \/
          (disk w !! dataDir w = None /\ fs s1 !! dataDir w = Some Dir))).
  set (Ending := fun (s1 : State) (tail : list (Stream * list Arg)) =>
         (exit_code s1 = None /\
          exists props, Reached w props /\ tail = saved w props) \/
         (exit_code s1 = Some 1%Z /\
          exists status data,
            transport w (sent_request w) = HttpResponse status data /\
            ~ (200 <= status < 300)%Z /\
            tail = failed :: api_status status ::
                   (if stack_overflow w data then [uncaught RangeError]
                    else [api_detail data])) \/
         (exit_code s1 = Some 1%Z /\
          transport w (sent_request w) = NoResponse /\
          tail = [failed; network_error]) \/
         (exit_code s1 = Some 1%Z /\
          (transport w (sent_request w) = SetupFailure \/
           exists status data,
             transport w (sent_request w) = HttpResponse status data /\
             (200 <= status < 300)%Z) /\
          exists m, tail = [failed; script_error m])).
  enough (Hgoal : forall s1,
            s1 = conclude w
                   ((aiReply <- lift
                       match transport w (sent_request w) with
                       | HttpResponse status body =>
                           if (200 <=? status)%Z && (status <? 300)%Z
                           then read_content body
                           else Throw (AxiosError (Some (status, body)) true)
                       | NoResponse => Throw (AxiosError None true)
                       | SetupFailure => Throw (AxiosError None false)
                       end ;;
                     jsonMatch <- lift (call_match aiReply) ;;
                     match jsonMatch with
                     | Some text =>
                         parsed <- lift (call_JSON_parse text) ;;
                         healthData <- lift (Set_ parsed "date" (JString (dateStr w))) ;;
                         write_file w healthData
                     | None => throw (Error no_json)
                     end) s0) ->
            Frame s1 /\
            exists tail, console s1 = (started w ++ calling :: tail)%list /\
                         Ending s1 tail).
  { destruct (Hgoal _ eq_refl) as ((H1 & H2 & H3) & H4). auto. }
  (* an error that the third branch of the catch block reports *)
  assert (Hscript : forall e,
            error_response e = None -> error_request e = false ->
            transport w (sent_request w) = SetupFailure \/
            (exists status data,
               transport w (sent_request w) = HttpResponse status data /\
               (200 <= status < 300)%Z) ->
            forall s1, s1 = conclude w (Throw e, s0) ->
            Frame s1 /\
            exists tail, console s1 = (started w ++ calling :: tail)%list /\
                         Ending s1 tail).
  { intros e He1 He2 Hcase s1 ->. unfold conclude, report. simpl.
    rewrite He1, He2. simpl. split; [repeat split; auto|].
    eexists. split; [rewrite <- ?app_assoc; reflexivity|]. right. right. right.
    split; [reflexivity|]. split; [exact Hcase | eauto]. }
  intros s1 Hs1. unfold bind, lift in Hs1.
  destruct (transport w (sent_request w)) as [status body| |] eqn:Ht.
  2:{ subst s1. unfold conclude, report. simpl.
      split; [repeat split; auto|].
      eexists. split; [rewrite <- ?app_assoc; reflexivity|]. right. right. left. auto. }
  2:{ apply (Hscript (AxiosError None false)); auto. }
  destruct ((200 <=? status)%Z && (status <? 300)%Z) eqn:Hst.
  2:{ apply status_not_2xx in Hst. subst s1. unfold conclude, report. simpl.
      split; [repeat split; auto|].
      eexists. split; [rewrite <- ?app_assoc; reflexivity|]. right. left.
      split; [reflexivity|]. eauto. }
  apply status_2xx in Hst.
  assert (Hcase : HttpResponse status body = SetupFailure \/
                  (exists status0 data,
                     HttpResponse status body = HttpResponse status0 data /\
                     (200 <= status0 < 300)%Z)) by (right; eauto).
  destruct (read_content body) as [aiReply|e] eqn:Hc.
  2:{ apply read_content_throws in Hc. subst e.
      apply (Hscript TypeError); auto. }
  destruct (call_match aiReply) as [[text|]|e] eqn:Hm.
  3:{ assert (e = TypeError) as ->
        by (unfold call_match in Hm;
            destruct aiReply as [[| | | | |]|]; congruence).
      apply (Hscript TypeError); auto. }
  2:{ apply (Hscript (Error no_json)); auto. }
  destruct (call_JSON_parse text) as [parsed|e] eqn:Hp.
  2:{ assert (e = SyntaxError) as ->
        by (unfold call_JSON_parse in Hp; destruct (JSON_parse text); congruence).
      apply (Hscript SyntaxError); auto. }
  destruct (Set_ parsed "date" (JString (dateStr w))) as [final|e] eqn:Hs.
  2:{ assert (e = TypeError) as ->
        by (unfold Set_ in Hs; destruct parsed; congruence).
      apply (Hscript TypeError); auto. }
  destruct (prepared _ _ _ _ _ _ Hc Hm Hp Hs)
    as (reply & props & Hc' & He & Hj & ->).
  assert (HR : Reached w props).
  { split; [exact Hkey|]. exists status, body, reply, text.
    rewrite Ht. auto. }
  pose proof (write_file_effects w
                (JObject (obj_set "date" (JString (dateStr w)) props)) s0) as Hw.
  cbv zeta in Hw.
  destruct (write_file w _ s0) as [r s'].
  cbn [fst snd] in Hw.
  destruct Hw as (Hposts & Hexit & Hframe & Hdir & [[-> Hcon]|(e & -> & He' & Hcon)]).
  - subst s1. cbn [conclude]. split; [repeat split; auto|].
    eexists. split; [exact Hcon|].
    left. split; [exact Hexit|]. exists props. split; [exact HR | reflexivity].
  - assert (He1 : error_response e = None /\ error_request e = false)
      by (destruct He' as [->|[code ->]]; split; reflexivity).
    destruct He1 as [He1 He2].
    subst s1. unfold conclude, report. simpl. rewrite He1, He2, Hcon.
    split; [repeat split; auto|].
    eexists. split; [unfold s0; simpl; rewrite <- ?app_assoc; reflexivity|].
    right. right. right.
    split; [reflexivity|]. split; [exact Hcase | eauto].
Qed.

(** Without a credential the run ends before the request. *)
Lemma run_no_key (w : World) :
  falsy (env_AI_API_KEY w) = true ->
  run w =
  {| fs := disk w;
     console := (started w ++ [failed; script_error (Str missing_key)])%list;
     posts := []; writes := []; exit_code := Some 1%Z |}.
Proof.
  intros Hf. rewrite run_unfold. unfold body. unfold_monad. simpl.
  rewrite Hf. reflexivity.
Qed.

(** Where a line of the console comes from. *)
Lemma console_inv (w : World) (line : Stream * list Arg) :
  In line (console (run w)) ->
  In line (started w) \/
  (falsy (env_AI_API_KEY w) = true /\
   In line [failed; script_error (Str missing_key)]) \/
  (falsy (env_AI_API_KEY w) = false /\
   (line = calling \/
    (exit_code (run w) = None /\
     exists props, Reached w props /\ In line (saved w props)) \/
    (exists status data,
       transport w (sent_request w) = HttpResponse status data /\
       ~ (200 <= status < 300)%Z /\
       In line [failed; api_status status; api_detail data;
                uncaught RangeError]) \/
    (transport w (sent_request w) = NoResponse /\
     In line [failed; network_error]) \/
    (exists m, In line [failed; script_error m]))).
Proof.
  destruct (falsy (env_AI_API_KEY w)) eqn:Hkey.
  - rewrite (run_no_key w Hkey). cbn [console]. rewrite in_app_iff.
    intros [H|H]; auto.
  - destruct (run_report w Hkey) as (_ & _ & _ & tail & -> & Hend).
    rewrite in_app_iff. intros [H|[H|H]]; [auto| |].
    + right. right. auto.
    + right. right. split; [reflexivity|]. right.
      destruct Hend as [(Hx & props & HR & ->)|[(_ & st & d & Ht & Hn & ->)|
                        [(_ & Ht & ->)|(_ & _ & m & ->)]]]; eauto 10.
      right. left. exists st, d. split; [exact Ht|]. split; [exact Hn|].
      destruct (stack_overflow w d); cbn in H |- *; tauto.
Qed.

(** A run that gets as far as the write, from the write on. *)
Lemma run_after_parse (w : World) (props : list (string * json)) :
  Reached w props ->
  run w =
  conclude w
    (write_file w (healthData w props)
       {| fs := disk w; console := (started w ++ [calling])%list;
          posts := [sent_request w]; writes := []; exit_code := None |}).
Proof.
  intros (Hkey & status & body & reply & text & Ht & Hst & Hc & He & Hj).
  rewrite (run_after_post w Hkey), Ht.
  apply status_2xx in Hst. rewrite Hst, Hc.
  unfold bind, lift, call_match. rewrite He.
  unfold call_JSON_parse. rewrite Hj. reflexivity.
Qed.

(** The state a run ends in when the object can be printed and the write
    completes. *)
Lemma run_success_state (w : World) (props : list (string * json)) :
  Reached w props ->
  stack_overflow w (healthData w props) = false ->
  mkdir_fails w = false ->
  write_fault w = WriteCompletes ->
  disk w !! dataDir w = Some Dir \/ disk w !! dataDir w = None ->
  disk w !! filePath w <> Some Dir ->
  run w =
  {| fs := <[filePath w := File (content w props)]>
             (match disk w !! dataDir w with
              | None => <[dataDir w := Dir]> (disk w)
              | Some _ => disk w
              end);
     console := (started w ++ calling :: saved w props)%list;
     posts := [sent_request w];
     writes := [(filePath w, content w props)];
     exit_code := None |}.
Proof.
  intros HR Ho Hm Hw Hd Hf.
  pose proof (filePath_neq_dataDir w) as Hne.
  rewrite (run_after_parse w props HR).
  unfold write_file, fs_access, fs_mkdir, fs_writeFile, call_JSON_stringify_2.
  rewrite Ho. unfold_monad. simpl.
  rewrite Hm, Hw, dirname_filePath. fold (content w props).
  destruct (access_fails w); simpl;
    (destruct Hd as [Hd | Hd]; repeat (rewrite Hd; simpl);
     rewrite ?lookup_insert_eq, ?lookup_insert_ne by congruence;
     repeat (rewrite Hd; simpl);
     destruct (disk w !! filePath w) as [[|?]|] eqn:Hp;
     try congruence; simpl; rewrite <- ?app_assoc; reflexivity).
Qed.

(** The same world on another file system. *)
Lemma dateStr_on_disk (w : World) (d : gmap string FsNode) :
  dateStr (on_disk w d) = dateStr w.
Proof. reflexivity. Qed.

Lemma sent_request_on_disk (w : World) (d : gmap string FsNode) :
  sent_request (on_disk w d) = sent_request w.
Proof. reflexivity. Qed.

Lemma filePath_on_disk (w : World) (d : gmap string FsNode) :
  filePath (on_disk w d) = filePath w.
Proof. reflexivity. Qed.

Lemma dataDir_on_disk (w : World) (d : gmap string FsNode) :
  dataDir (on_disk w d) = dataDir w.
Proof. reflexivity. Qed.

Lemma content_on_disk (w : World) (d : gmap string FsNode)
    (props : list (string * json)) :
  content (on_disk w d) props = content w props.
Proof. unfold content, healthData. now rewrite dateStr_on_disk. Qed.

Lemma Reached_on_disk (w : World) (d : gmap string FsNode)
    (props : list (string * json)) :
  Reached w props -> Reached (on_disk w d) props.
Proof.
  unfold Reached. rewrite sent_request_on_disk. cbn [on_disk env_AI_API_KEY transport].
  auto.
Qed.

Lemma healthData_on_disk (w : World) (d : gmap string FsNode)
    (props : list (string * json)) :
  healthData (on_disk w d) props = healthData w props.
Proof. unfold healthData. now rewrite dateStr_on_disk. Qed.

End ReportFacts.

(** ** More on the pattern of line 75 *)

Module RegexMore.
Import Regex RegexFacts.

(** Without a closing brace there is no match, and the greedy star stops
    at the last closing brace. *)
Lemma exec_from_no_close (i : nat) (s : string) :
  contains "}" s = false -> exec_from braces i s = None.
Proof.
  revert i. induction s as [|c s IH]; intros i Hs; [reflexivity|].
  cbn [contains] in Hs. apply orb_false_elim in Hs. destruct Hs as [_ Hs].
  cbn [exec_from]. rewrite match_here_braces.
  apply greedy_none in Hs as Hg. rewrite Hg.
  destruct (Ascii.eqb "{" c); cbn [option_map]; now apply IH.
Qed.

Lemma greedy_some (r : string) (n : nat) :
  greedy r = Some n ->
  exists mid post,
    r = mid +:+ String "}" post /\ contains "}" post = false /\
    n = S (String.length mid).
Proof.
  intros Hg. destruct (contains "}" r) eqn:Hc.
  - destruct (contains_split_last _ _ Hc) as (mid & post & -> & Hp).
    exists mid, post. rewrite (greedy_last mid post Hp) in Hg.
    injection Hg as <-. auto.
  - apply greedy_none in Hc. congruence.
Qed.

(** A match is the text from the first opening brace to the last closing
    brace. *)
Lemma exec_from_shape (i : nat) (s : string) (j : nat) (m : string) :
  exec_from braces i s = Some (j, m) ->
  exists pre mid post,
    s = pre +:+ String "{" (mid +:+ String "}" post) /\
    contains "{" pre = false /\ contains "}" post = false /\
    m = String "{" (mid +:+ String "}" EmptyString) /\
    j = (i + String.length pre)%nat.
Proof.
  revert i. induction s as [|c s IH]; intros i; cbn [exec_from];
    rewrite match_here_braces; [discriminate|].
  destruct (Ascii.eqb "{" c) eqn:Hc.
  - apply Ascii.eqb_eq in Hc. subst c.
    destruct (greedy s) as [n|] eqn:Hg; cbn [option_map].
    + intros [= <- <-].
      destruct (greedy_some _ _ Hg) as (mid & post & -> & Hp & ->).
      exists EmptyString, mid, post. rewrite append_nil.
      repeat split; auto; try (simpl; lia).
      f_equal.
        change (String "}" post) with (String "}" EmptyString +:+ post).
        rewrite <- append_assoc.
        replace (S (String.length mid))
          with (String.length (mid +:+ String "}" EmptyString))
          by (rewrite length_append; simpl; lia).
        apply take_append.
    + apply greedy_none in Hg. rewrite (exec_from_no_close _ _ Hg).
      discriminate.
  - intros H. destruct (IH _ H) as (pre & mid & post & -> & Hpre & Hpost & -> & ->).
    exists (String c pre), mid, post. rewrite append_cons.
    repeat split; auto; try (simpl; lia).
    cbn [contains]. now rewrite Hc.
Qed.

End RegexMore.

Section MoreFacts.
Context `{Num : Number}.

(** The keys of two lists of members put together. *)
Lemma keys_app (a b : list (string * json)) : keys (a ++ b) = (keys a ++ keys b)%list.
Proof. apply map_app. Qed.

End MoreFacts.

(** ** More on [JSON.parse] and [JSON.stringify] *)

(** Comparisons of two character literals are evaluated. *)
Ltac eqb_consts :=
  repeat match goal with
         | |- context [Ascii.eqb (Ascii ?a ?b ?c ?d ?e ?f ?g ?h)
                                 (Ascii ?a' ?b' ?c' ?d' ?e' ?f' ?g' ?h')] =>
             let t := constr:(Ascii.eqb (Ascii a b c d e f g h)
                                        (Ascii a' b' c' d' e' f' g' h')) in
             let v := eval vm_compute in t in
             change t with v
         end.

(** A text that starts with literal characters is put in head form. *)
Ltac norm_append := repeat (rewrite append_cons || rewrite append_nil).

Section ParserMore.
Context `{Num : Number}.

(** [lex_number], part by part. *)
Lemma lex_number_parts (s : string) :
  lex_number s =
  let '(sign, s1) := lex_sign s in
  match s1 with
  | EmptyString => None
  | String c r =>
      if negb (is_digit c) then None
      else
        let '(int, s2) := lex_int c r in
        match lex_frac s2 with
        | None => None
        | Some (fr, s3) =>
            match lex_exp s3 with
            | None => None
            | Some (ex, s4) => Some (sign +:+ int +:+ fr +:+ ex, s4)
            end
        end
  end.
Proof. reflexivity. Qed.

(** *** Fuel *)

(** More fuel does not change an answer. *)
Lemma parse_fuel_mono (fuel : nat) :
  (forall s f, (fuel <= f)%nat -> parse_value fuel s <> POutOfFuel ->
     parse_value f s = parse_value fuel s) /\
  (forall acc s f, (fuel <= f)%nat -> parse_elements fuel acc s <> POutOfFuel ->
     parse_elements f acc s = parse_elements fuel acc s) /\
  (forall acc s f, (fuel <= f)%nat -> parse_members fuel acc s <> POutOfFuel ->
     parse_members f acc s = parse_members fuel acc s).
Proof.
  induction fuel as [|fuel (IHv & IHe & IHm)];
    [repeat split; intros; exfalso; auto|].
  split; [|split].
  - intros s [|f] Hle; [lia|]. cbn [parse_value].
    destruct (skip_ws s) as [|c r0]; [reflexivity|].
    destruct (Ascii.eqb c "{").
    + destruct (skip_ws r0) as [|d r']; [reflexivity|].
      destruct (Ascii.eqb d "}"); [reflexivity|]. apply IHm. lia.
    + destruct (Ascii.eqb c "["); [|reflexivity].
      destruct (skip_ws r0) as [|d r']; [reflexivity|].
      destruct (Ascii.eqb d "]"); [reflexivity|]. apply IHe. lia.
  - intros acc s [|f] Hle; [lia|]. cbn [parse_elements].
    destruct (parse_value fuel s) as [v1 r1| |] eqn:Hv;
      [| |intros H; now destruct H];
      (rewrite (IHv s f) by (lia || (rewrite Hv; discriminate)));
      rewrite Hv; [|reflexivity].
    destruct (skip_ws r1) as [|d r']; [reflexivity|].
    destruct (Ascii.eqb d ","); [|reflexivity]. apply IHe. lia.
  - intros acc s [|f] Hle; [lia|]. cbn [parse_members].
    destruct (skip_ws s) as [|q r0]; [reflexivity|].
    destruct (negb (Ascii.eqb q "034")); [reflexivity|].
    destruct (parse_string r0) as [[k r1]|]; [|reflexivity].
    destruct (skip_ws r1) as [|colon r2]; [reflexivity|].
    destruct (negb (Ascii.eqb colon ":")); [reflexivity|].
    destruct (parse_value fuel r2) as [v1 r3| |] eqn:Hv;
      [| |intros H; now destruct H];
      (rewrite (IHv r2 f) by (lia || (rewrite Hv; discriminate)));
      rewrite Hv; [|reflexivity].
    destruct (skip_ws r3) as [|d r4]; [reflexivity|].
    destruct (Ascii.eqb d ","); [|reflexivity]. apply IHm. lia.
Qed.

(** An answer found with some fuel is the answer [JSON_parse] finds. *)
Lemma parse_value_any_fuel (fuel : nat) (s : string) (v : json) (r : string) :
  parse_value fuel s = POk v r ->
  parse_value (parse_fuel s) s = POk v r.
Proof.
  intros H. destruct (Nat.le_ge_cases fuel (parse_fuel s)) as [Hle|Hle].
  - rewrite (proj1 (parse_fuel_mono fuel) s _ Hle); [exact H|].
    rewrite H. discriminate.
  - rewrite <- H. symmetry.
    apply (proj1 (parse_fuel_mono (parse_fuel s))); [exact Hle|].
    apply JSON_parse_fuel.
Qed.

(** *** Text after a value

    What follows a value does not change how the value is read, as long
    as the value ends where it ended: the parser had stopped before the
    end of its input, or the new text cannot continue a number, or the
    value is no number. *)

Lemma skip_ws_append (s : string) (c : ascii) (r x : string) :
  skip_ws s = String c r -> skip_ws (s +:+ x) = String c (r +:+ x).
Proof.
  induction s as [|a s IH]; cbn [skip_ws]; [discriminate|].
  rewrite append_cons. cbn [skip_ws]. destruct (is_ws a); [exact IH|].
  now intros [= -> ->].
Qed.

(** A string literal ends at its closing quote. *)
Lemma parse_chars_append (s t r x : string) :
  parse_chars s = Some (t, r) -> parse_chars (s +:+ x) = Some (t, r +:+ x).
Proof.
  remember (S (String.length s)) as n eqn:Hn.
  assert (Hlt : (String.length s < n)%nat) by lia. clear Hn.
  revert s t r Hlt. induction n as [|n IHn]; intros s t r Hlt; [lia|].
  assert (Hrec : forall s' p, (String.length s' < String.length s)%nat ->
            cons_to p (parse_chars s') = Some (t, r) ->
            cons_to p (parse_chars (s' +:+ x)) = Some (t, r +:+ x)).
  { intros s' p Hl. destruct (parse_chars s') as [[t' r']|] eqn:E;
      cbn [cons_to]; [|discriminate].
    intros [= <- <-]. rewrite (IHn s' t' r') by (exact E || lia). reflexivity. }
  clear IHn Hlt.
  destruct s as [|c s]; cbn [parse_chars]; [discriminate|].
  rewrite append_cons. cbn [parse_chars].
  destruct (Ascii.eqb c "034"). { now intros [= <- <-]. }
  destruct (Ascii.eqb c "\").
  - destruct s as [|e r1]; [discriminate|]. rewrite append_cons.
    repeat match goal with
           | |- (if ?b then _ else _) = _ -> _ => destruct b
           end;
      try (apply Hrec; simpl; lia); try discriminate.
    destruct r1 as [|h1 [|h2 [|h3 [|h4 r2]]]]; try discriminate.
    rewrite !append_cons.
    destruct (hex4 h1 h2 h3 h4); [|discriminate].
    apply Hrec. simpl. lia.
  - destruct (N_of_ascii c <? 32)%N; [discriminate|].
    apply Hrec. simpl. lia.
Qed.

Lemma parse_string_append (s t r x : string) :
  parse_string s = Some (t, r) -> parse_string (s +:+ x) = Some (t, r +:+ x).
Proof.
  unfold parse_string.
  destruct (parse_chars s) as [[t' r']|] eqn:E; [|discriminate].
  intros [= <- <-]. now rewrite (parse_chars_append _ _ _ x E).
Qed.

Lemma strip_prefix_append (p s r x : string) :
  strip_prefix p s = Some r -> strip_prefix p (s +:+ x) = Some (r +:+ x).
Proof.
  revert s. induction p as [|a p IH]; intros s; cbn [strip_prefix].
  - now intros [= ->].
  - destruct s as [|b s]; [discriminate|]. rewrite append_cons.
    destruct (Ascii.eqb a b); [apply IH | discriminate].
Qed.

Lemma ends_number_digit (x : string) :
  ends_number x = true ->
  match x with String c _ => is_digit c = false | EmptyString => True end.
Proof.
  destruct x as [|c x]; [easy|]. cbn [ends_number].
  destruct (is_digit c); [discriminate | reflexivity].
Qed.

(** A run of digits ends where it ended, unless it ran to the end of the
    input and a digit follows. *)
Lemma span_digits_append (s ds r x : string) :
  span_digits s = (ds, r) ->
  r <> EmptyString \/ ends_number x = true ->
  span_digits (s +:+ x) = (ds, r +:+ x).
Proof.
  intros H Hx. revert ds H.
  induction s as [|c s IH]; intros ds; cbn [span_digits].
  - intros [= <- <-]. rewrite append_nil.
    destruct Hx as [Hx|Hx]; [congruence|].
    apply ends_number_digit in Hx. destruct x as [|c x]; [reflexivity|].
    cbn [span_digits]. now rewrite Hx.
  - rewrite append_cons. cbn [span_digits]. destruct (is_digit c).
    + destruct (span_digits s) as [ds' rest]. intros [= <- <-].
      now rewrite (IH ds' eq_refl).
    + now intros [= <- <-].
Qed.

Lemma lex_int_append (c : ascii) (r0 int s2 x : string) :
  lex_int c r0 = (int, s2) ->
  s2 <> EmptyString \/ ends_number x = true ->
  lex_int c (r0 +:+ x) = (int, s2 +:+ x).
Proof.
  unfold lex_int. destruct (Ascii.eqb c "0"); [now intros [= <- <-]|].
  destruct (span_digits r0) as [ds rest] eqn:E. intros [= <- <-] Hx.
  now rewrite (span_digits_append _ _ _ x E Hx).
Qed.

Lemma lex_frac_append (s2 fr s3 x : string) :
  lex_frac s2 = Some (fr, s3) ->
  s3 <> EmptyString \/ ends_number x = true ->
  lex_frac (s2 +:+ x) = Some (fr, s3 +:+ x).
Proof.
  unfold lex_frac. destruct s2 as [|d r2].
  - intros [= <- <-] [Hx|Hx]; [congruence|]. rewrite append_nil.
    destruct x as [|c x]; [reflexivity|]. cbn [ends_number] in Hx.
    destruct (Ascii.eqb c "."); [|reflexivity].
    rewrite orb_true_r in Hx. discriminate.
  - rewrite append_cons. destruct (Ascii.eqb d "."); [|now intros [= <- <-]].
    destruct (span_digits r2) as [ds rest] eqn:E.
    destruct ds as [|d1 ds]; [discriminate|]. intros [= <- <-] Hx.
    now rewrite (span_digits_append _ _ _ x E Hx).
Qed.

Lemma lex_exp_append (s3 ex s4 x : string) :
  lex_exp s3 = Some (ex, s4) ->
  s4 <> EmptyString \/ ends_number x = true ->
  lex_exp (s3 +:+ x) = Some (ex, s4 +:+ x).
Proof.
  unfold lex_exp. destruct s3 as [|e r3].
  - intros [= <- <-] [Hx|Hx]; [congruence|]. rewrite append_nil.
    destruct x as [|c x]; [reflexivity|]. cbn [ends_number] in Hx.
    destruct (Ascii.eqb c "e" || Ascii.eqb c "E") eqn:Ee; [|reflexivity].
    rewrite <- orb_assoc, Ee, orb_true_r in Hx. discriminate.
  - rewrite append_cons.
    destruct (Ascii.eqb e "e" || Ascii.eqb e "E"); [|now intros [= <- <-]].
    destruct r3 as [|g r3'].
    + cbn. discriminate.
    + rewrite append_cons.
      destruct (Ascii.eqb g "+" || Ascii.eqb g "-").
      * destruct (span_digits r3') as [ds rest] eqn:E.
        destruct ds as [|d1 ds]; [discriminate|]. intros [= <- <-] Hx.
        now rewrite (span_digits_append _ _ _ x E Hx).
      * destruct (span_digits (String g r3')) as [ds rest] eqn:E.
        destruct ds as [|d1 ds]; [discriminate|]. intros [= <- <-] Hx.
        rewrite <- append_cons.
        now rewrite (span_digits_append _ _ _ x E Hx).
Qed.

Lemma lex_frac_nonempty (s2 fr s3 : string) :
  lex_frac s2 = Some (fr, s3) -> s3 <> EmptyString -> s2 <> EmptyString.
Proof. intros H Hn ->. cbn in H. congruence. Qed.

Lemma lex_exp_nonempty (s3 ex s4 : string) :
  lex_exp s3 = Some (ex, s4) -> s4 <> EmptyString -> s3 <> EmptyString.
Proof. intros H Hn ->. cbn in H. congruence. Qed.

(** A number token ends where it ended. *)
Lemma lex_number_append (s l r x : string) :
  lex_number s = Some (l, r) ->
  r <> EmptyString \/ ends_number x = true ->
  lex_number (s +:+ x) = Some (l, r +:+ x).
Proof.
  intros H Hx.
  assert (Hcore : forall sign c r0,
    (if negb (is_digit c) then None
     else let '(int, s2) := lex_int c r0 in
          match lex_frac s2 with
          | None => None
          | Some (fr, s3) =>
              match lex_exp s3 with
              | None => None
              | Some (ex, s4) => Some (sign +:+ int +:+ fr +:+ ex, s4)
              end
          end) = Some (l, r) ->
    (if negb (is_digit c) then None
     else let '(int, s2) := lex_int c (r0 +:+ x) in
          match lex_frac s2 with
          | None => None
          | Some (fr, s3) =>
              match lex_exp s3 with
              | None => None
              | Some (ex, s4) => Some (sign +:+ int +:+ fr +:+ ex, s4)
              end
          end) = Some (l, r +:+ x)).
  { intros sign c r0. destruct (negb (is_digit c)); [discriminate|].
    destruct (lex_int c r0) as [int s2] eqn:Ei.
    destruct (lex_frac s2) as [[fr s3]|] eqn:Ef; [|discriminate].
    destruct (lex_exp s3) as [[ex s4]|] eqn:Ee; [|discriminate].
    intros [= <- <-].
    assert (H3 : s3 <> EmptyString \/ ends_number x = true)
      by (destruct Hx as [Hx|Hx]; [left; eapply lex_exp_nonempty; eauto | now right]).
    assert (H2 : s2 <> EmptyString \/ ends_number x = true)
      by (destruct H3 as [H3|H3]; [left; eapply lex_frac_nonempty; eauto | now right]).
    rewrite (lex_int_append _ _ _ _ x Ei H2).
    rewrite (lex_frac_append _ _ _ x Ef H3).
    now rewrite (lex_exp_append _ _ _ x Ee Hx). }
  rewrite lex_number_parts in H |- *.
  destruct s as [|c r0]; [discriminate|]. rewrite append_cons.
  cbn [lex_sign] in H |- *. destruct (Ascii.eqb c "-").
  - destruct r0 as [|c1 r1]; [discriminate|]. rewrite append_cons.
    now apply Hcore.
  - now apply Hcore.
Qed.

(** A number token starts with a digit or a minus sign. *)
Lemma lex_number_letter (c : ascii) (r : string) :
  is_digit c = false -> Ascii.eqb c "-" = false -> lex_number (String c r) = None.
Proof.
  intros Hd Hm. rewrite lex_number_parts. cbn [lex_sign]. now rewrite Hm, Hd.
Qed.

(** A scalar followed by more text. *)
Lemma parse_scalar_append (c : ascii) (s : string) (v : json) (r x : string) :
  parse_scalar c s = POk v r ->
  r <> EmptyString \/ ends_number x = true \/ (forall n, v <> JNumber n) ->
  parse_scalar c (s +:+ x) = POk v (r +:+ x).
Proof.
  unfold parse_scalar. destruct s as [|c0 r0]; [discriminate|].
  rewrite append_cons. destruct (Ascii.eqb c "034").
  { destruct (parse_string r0) as [[t rest]|] eqn:E; [|discriminate].
    intros [= <- <-] _. now rewrite (parse_string_append _ _ _ x E). }
  rewrite <- append_cons.
  destruct (strip_prefix "true" (String c0 r0)) as [rest|] eqn:E1.
  { intros [= <- <-] _. now rewrite (strip_prefix_append _ _ _ x E1). }
  destruct (strip_prefix "false" (String c0 r0)) as [rest|] eqn:E2.
  { intros [= <- <-] _. rewrite (strip_prefix_append _ _ _ x E2).
    apply strip_prefix_rest in E2. rewrite E2. reflexivity. }
  destruct (strip_prefix "null" (String c0 r0)) as [rest|] eqn:E3.
  { intros [= <- <-] _. rewrite (strip_prefix_append _ _ _ x E3).
    apply strip_prefix_rest in E3. rewrite E3. reflexivity. }
  destruct (lex_number (String c0 r0)) as [[lexeme rest]|] eqn:E4; [|discriminate].
  intros [= <- <-] Hx.
  assert (Hx' : rest <> EmptyString \/ ends_number x = true).
  { destruct Hx as [Hx|[Hx|Hx]]; auto. now destruct (Hx (number_of_literal lexeme)). }
  rewrite (lex_number_append _ _ _ x E4 Hx').
  assert (Hc0 : is_digit c0 = true \/ Ascii.eqb c0 "-" = true).
  { destruct (is_digit c0) eqn:Hd; [now left|].
    destruct (Ascii.eqb c0 "-") eqn:Hm; [now right|].
    rewrite (lex_number_letter _ _ Hd Hm) in E4. discriminate. }
  rewrite append_cons. cbn [strip_prefix].
  assert (Ht : Ascii.eqb "t" c0 = false /\ Ascii.eqb "f" c0 = false
               /\ Ascii.eqb "n" c0 = false).
  { destruct Hc0 as [Hd|Hm].
    - repeat split; apply Ascii.eqb_neq; intros <-; discriminate Hd.
    - apply Ascii.eqb_eq in Hm. subst c0. repeat split. }
  destruct Ht as (-> & -> & ->). reflexivity.
Qed.

(** A value, the elements of an array and the members of an object followed
    by more text. *)
Lemma parse_append (fuel : nat) (x : string) :
  (forall s v r, parse_value fuel s = POk v r ->
     r <> EmptyString \/ ends_number x = true \/ (forall n, v <> JNumber n) ->
     parse_value fuel (s +:+ x) = POk v (r +:+ x)) /\
  (forall acc s v r, parse_elements fuel acc s = POk v r ->
     parse_elements fuel acc (s +:+ x) = POk v (r +:+ x)) /\
  (forall acc s v r, parse_members fuel acc s = POk v r ->
     parse_members fuel acc (s +:+ x) = POk v (r +:+ x)).
Proof.
  induction fuel as [|fuel (IHv & IHe & IHm)];
    [repeat split; intros; discriminate|].
  assert (Hval : forall s v r c r',
            parse_value fuel s = POk v r -> skip_ws r = String c r' ->
            parse_value fuel (s +:+ x) = POk v (r +:+ x)).
  { intros s v r c r' Hv Hr. apply IHv; [exact Hv|]. left. intros ->.
    discriminate Hr. }
  split; [|split].
  - intros s v r. cbn [parse_value].
    destruct (skip_ws s) as [|c r0] eqn:Hs; [discriminate|].
    rewrite (skip_ws_append _ _ _ x Hs).
    destruct (Ascii.eqb c "{").
    + destruct (skip_ws r0) as [|d r'] eqn:Hr0; [discriminate|].
      rewrite (skip_ws_append _ _ _ x Hr0).
      destruct (Ascii.eqb d "}"); [now intros [= <- <-]|].
      intros H _. rewrite <- append_cons. now apply IHm.
    + destruct (Ascii.eqb c "[").
      * destruct (skip_ws r0) as [|d r'] eqn:Hr0; [discriminate|].
        rewrite (skip_ws_append _ _ _ x Hr0).
        destruct (Ascii.eqb d "]"); [now intros [= <- <-]|].
        intros H _. rewrite <- append_cons. now apply IHe.
      * intros H Hx. rewrite <- append_cons. now apply parse_scalar_append.
  - intros acc s v r. cbn [parse_elements].
    destruct (parse_value fuel s) as [v1 r1| |] eqn:Hv; try discriminate.
    destruct (skip_ws r1) as [|d r'] eqn:Hr1; [discriminate|].
    rewrite (Hval _ _ _ _ _ Hv Hr1), (skip_ws_append _ _ _ x Hr1).
    destruct (Ascii.eqb d ","); [apply IHe|].
    destruct (Ascii.eqb d "]"); [|discriminate]. now intros [= <- <-].
  - intros acc s v r. cbn [parse_members].
    destruct (skip_ws s) as [|q r0] eqn:Hs; [discriminate|].
    rewrite (skip_ws_append _ _ _ x Hs).
    destruct (negb (Ascii.eqb q "034")); [discriminate|].
    destruct (parse_string r0) as [[k r1]|] eqn:Hk; [|discriminate].
    rewrite (parse_string_append _ _ _ x Hk).
    destruct (skip_ws r1) as [|colon r2] eqn:Hr1; [discriminate|].
    rewrite (skip_ws_append _ _ _ x Hr1).
    destruct (negb (Ascii.eqb colon ":")); [discriminate|].
    destruct (parse_value fuel r2) as [v1 r3| |] eqn:Hv; try discriminate.
    destruct (skip_ws r3) as [|d r4] eqn:Hr3; [discriminate|].
    rewrite (Hval _ _ _ _ _ Hv Hr3), (skip_ws_append _ _ _ x Hr3).
    destruct (Ascii.eqb d ","); [apply IHm|].
    destruct (Ascii.eqb d "}"); [|discriminate]. now intros [= <- <-].
Qed.

(** *** Strings *)

Lemma control_escape (c : ascii) :
  (N_of_ascii c <? 32)%N = true ->
  hex4 (hex_digit (N_of_ascii c / 4096)) (hex_digit ((N_of_ascii c / 256) mod 16))
       (hex_digit ((N_of_ascii c / 16) mod 16)) (hex_digit (N_of_ascii c mod 16))
  = Some (N_of_ascii c) /\
  encode_unit (N_of_ascii c) = one c.
Proof.
  destruct c as [[] [] [] [] [] [] [] []]; intros H;
    try discriminate H; vm_compute; split; reflexivity.
Qed.

(** A character that needs no escape is copied. *)
Lemma quote_chars_copy (c : ascii) (r : string) :
  Ascii.eqb c "034" = false -> Ascii.eqb c "\" = false ->
  (N_of_ascii c <? 32)%N = false ->
  no_surrogate (String c r) = true ->
  quote_chars (String c r) = String c (quote_chars r).
Proof.
  intros Hq Hb Hc Hs. cbn [quote_chars]. rewrite Hq, Hb.
  assert (Hn : forall d, (N_of_ascii d <? 32)%N = true -> Ascii.eqb c d = false).
  { intros d Hd. apply Ascii.eqb_neq. intros ->. congruence. }
  rewrite !Hn by reflexivity. rewrite Hc.
  destruct r as [|b2 [|b3 r']]; try reflexivity.
  cbn [no_surrogate] in Hs. apply andb_prop in Hs. destruct Hs as [Hs _].
  apply negb_true_iff in Hs. now rewrite Hs.
Qed.

Lemma no_surrogate_tail (c : ascii) (r : string) :
  no_surrogate (String c r) = true -> no_surrogate r = true.
Proof. cbn [no_surrogate]. intros H. now apply andb_prop in H. Qed.

(** Reading the characters that [quote_chars] prints gives the string
    back. *)
Lemma parse_chars_quote_chars (s rest : string) :
  no_surrogate s = true ->
  parse_chars (quote_chars s +:+ String "034" rest) = Some (s, rest).
Proof.
  induction s as [|c r IH]; intros Hs.
  - cbn [quote_chars]. rewrite append_nil. reflexivity.
  - specialize (IH (no_surrogate_tail _ _ Hs)).
    destruct (Ascii.eqb c "034") eqn:E1.
    { apply Ascii.eqb_eq in E1. subst c. cbn [quote_chars]. eqb_consts.
      cbv iota. unfold one. norm_append.
      cbn [parse_chars]. eqb_consts. cbv iota. rewrite IH. reflexivity. }
    destruct (Ascii.eqb c "\") eqn:E2.
    { apply Ascii.eqb_eq in E2. subst c. cbn [quote_chars]. eqb_consts.
      cbv iota. norm_append.
      cbn [parse_chars]. eqb_consts. cbv iota. rewrite IH. reflexivity. }
    destruct (N_of_ascii c <? 32)%N eqn:E3.
    + destruct (control_escape c E3) as [Hh Hu].
      cbn [quote_chars]. rewrite E1, E2, E3.
      repeat match goal with
             | |- context [Ascii.eqb c ?d] =>
                 let E := fresh "E" in
                 destruct (Ascii.eqb c d) eqn:E;
                 [apply Ascii.eqb_eq in E; subst c;
                  norm_append;
                  cbn [parse_chars]; eqb_consts; cbv iota;
                  rewrite IH; reflexivity|]
             end.
      unfold hex4_of. norm_append.
      cbn [parse_chars]. eqb_consts. cbv iota.
      rewrite Hh, Hu, IH. reflexivity.
    + rewrite (quote_chars_copy c r E1 E2 E3 Hs), append_cons.
      cbn [parse_chars]. rewrite E1, E2, E3, IH. reflexivity.
Qed.

(** Without a surrogate there is no pair to merge. *)
Lemma merge_surrogates_none (s : string) :
  no_surrogate s = true -> merge_surrogates s = s.
Proof.
  induction s as [|c1 r1 IH]; intros Hs; [reflexivity|].
  specialize (IH (no_surrogate_tail _ _ Hs)).
  assert (Hcopy : merge_surrogates (String c1 r1) = String c1 (merge_surrogates r1)).
  { destruct r1 as [|c2 [|c3 [|c4 [|c5 [|c6 r6]]]]]; try reflexivity.
    cbn [no_surrogate] in Hs. apply andb_prop in Hs. destruct Hs as [Hs _].
    apply negb_true_iff in Hs.
    cbn [merge_surrogates]. unfold is_high.
    destruct (Ascii.eqb c1 "237"); [|reflexivity].
    cbn [andb] in Hs |- *. rewrite Hs. reflexivity. }
  now rewrite Hcopy, IH.
Qed.

Lemma parse_string_quote (s rest : string) :
  no_surrogate s = true ->
  parse_string (quote_chars s +:+ String "034" rest) = Some (s, rest).
Proof.
  intros Hs. unfold parse_string. rewrite (parse_chars_quote_chars _ _ Hs).
  now rewrite (merge_surrogates_none _ Hs).
Qed.

(** *** The shape of a printed array or object *)

Lemma json_induction (P : json -> Prop) :
  P JNull ->
  (forall b, P (JBool b)) ->
  (forall n, P (JNumber n)) ->
  (forall s, P (JString s)) ->
  (forall items, Forall P items -> P (JArray items)) ->
  (forall props, Forall (fun kv => P kv.2) props -> P (JObject props)) ->
  forall v, P v.
Proof.
  intros Hnull Hbool Hnum Hstr Harr Hobj.
  fix IH 1.
  intros [ |b|n|s|items|props];
    [exact Hnull | apply Hbool | apply Hnum | apply Hstr | |].
  - apply Harr. induction items as [|v items IHitems]; constructor;
      [apply IH | exact IHitems].
  - apply Hobj. induction props as [|[k v] props IHprops]; constructor;
      [apply IH | exact IHprops].
Qed.

(** A non-empty array and a non-empty object, as [serialize] prints them. *)
Lemma serialize_array (gap indent : string) (items : list json) :
  items <> [] ->
  serialize gap indent (JArray items) =
  "[" +:+ line_break gap (indent +:+ gap)
    +:+ join ("," +:+ line_break gap (indent +:+ gap))
          (map (serialize gap (indent +:+ gap)) items)
    +:+ line_break gap indent +:+ "]".
Proof.
  destruct items as [|item more]; [congruence|]. intros _.
  cbn [serialize map]. unfold line_break. destruct gap as [|g gap].
  - norm_append. reflexivity.
  - now rewrite !append_assoc.
Qed.

Lemma serialize_object (gap indent : string) (props : list (string * json)) :
  props <> [] ->
  serialize gap indent (JObject props) =
  "{" +:+ line_break gap (indent +:+ gap)
    +:+ join ("," +:+ line_break gap (indent +:+ gap))
          (map (fun kv => quote kv.1 +:+ colon_of gap
                            +:+ serialize gap (indent +:+ gap) kv.2) props)
    +:+ line_break gap indent +:+ "}".
Proof.
  destruct props as [|item more]; [congruence|]. intros _.
  cbn [serialize map]. unfold line_break, colon_of. destruct gap as [|g gap].
  - norm_append. reflexivity.
  - now rewrite !append_assoc.
Qed.

Lemma join_two (sep x y : string) (l : list string) :
  join sep (x :: y :: l) = x +:+ sep +:+ join sep (y :: l).
Proof. reflexivity. Qed.

(** *** White space and fuel *)

Lemma skip_ws_idem (s : string) : skip_ws (skip_ws s) = skip_ws s.
Proof.
  induction s as [|c s IH]; [reflexivity|]. cbn [skip_ws].
  destruct (is_ws c) eqn:Hc; [exact IH|]. cbn [skip_ws]. now rewrite Hc.
Qed.

Lemma skip_ws_all_ws (w s : string) :
  all_ws w = true -> skip_ws (w +:+ s) = skip_ws s.
Proof.
  induction w as [|c w IH]; [reflexivity|]. cbn [all_ws]. intros H.
  apply andb_prop in H. destruct H as [Hc Hw].
  rewrite append_cons. cbn [skip_ws]. rewrite Hc. now apply IH.
Qed.

Lemma parse_value_skip_ws (fuel : nat) (s : string) :
  parse_value fuel (skip_ws s) = parse_value fuel s.
Proof. destruct fuel; [reflexivity|]. cbn [parse_value]. now rewrite skip_ws_idem. Qed.

Lemma parse_elements_skip_ws (fuel : nat) (acc : list json) (s : string) :
  parse_elements fuel acc (skip_ws s) = parse_elements fuel acc s.
Proof.
  destruct fuel; [reflexivity|]. cbn [parse_elements].
  now rewrite parse_value_skip_ws.
Qed.

Lemma parse_members_skip_ws (fuel : nat) (acc : list (string * json)) (s : string) :
  parse_members fuel acc (skip_ws s) = parse_members fuel acc s.
Proof.
  destruct fuel; [reflexivity|]. cbn [parse_members]. now rewrite skip_ws_idem.
Qed.

Lemma parse_value_ws (fuel : nat) (w s : string) :
  all_ws w = true -> parse_value fuel (w +:+ s) = parse_value fuel s.
Proof.
  intros Hw. rewrite <- parse_value_skip_ws, (skip_ws_all_ws _ _ Hw).
  apply parse_value_skip_ws.
Qed.

Lemma parse_elements_ws (fuel : nat) (acc : list json) (w s : string) :
  all_ws w = true -> parse_elements fuel acc (w +:+ s) = parse_elements fuel acc s.
Proof.
  intros Hw. rewrite <- parse_elements_skip_ws, (skip_ws_all_ws _ _ Hw).
  apply parse_elements_skip_ws.
Qed.

Lemma parse_members_ws (fuel : nat) (acc : list (string * json)) (w s : string) :
  all_ws w = true -> parse_members fuel acc (w +:+ s) = parse_members fuel acc s.
Proof.
  intros Hw. rewrite <- parse_members_skip_ws, (skip_ws_all_ws _ _ Hw).
  apply parse_members_skip_ws.
Qed.

(** An answer is kept with more fuel. *)
Lemma parse_value_more (f f' : nat) (s : string) (v : json) (r : string) :
  (f <= f')%nat -> parse_value f s = POk v r -> parse_value f' s = POk v r.
Proof.
  intros Hle H. rewrite (proj1 (parse_fuel_mono f) s f' Hle); [exact H|].
  rewrite H. discriminate.
Qed.

Lemma parse_elements_more (f f' : nat) (acc : list json) (s : string)
    (v : json) (r : string) :
  (f <= f')%nat -> parse_elements f acc s = POk v r ->
  parse_elements f' acc s = POk v r.
Proof.
  intros Hle H.
  rewrite (proj1 (proj2 (parse_fuel_mono f)) acc s f' Hle); [exact H|].
  rewrite H. discriminate.
Qed.

Lemma parse_members_more (f f' : nat) (acc : list (string * json)) (s : string)
    (v : json) (r : string) :
  (f <= f')%nat -> parse_members f acc s = POk v r ->
  parse_members f' acc s = POk v r.
Proof.
  intros Hle H.
  rewrite (proj2 (proj2 (parse_fuel_mono f)) acc s f' Hle); [exact H|].
  rewrite H. discriminate.
Qed.

(** A value does not start with a closing bracket or brace. *)
Lemma parse_value_head (fuel : nat) (s : string) (v : json) (r : string) :
  parse_value fuel s = POk v r ->
  exists c r0, skip_ws s = String c r0 /\
    Ascii.eqb c "]" = false /\ Ascii.eqb c "}" = false.
Proof.
  destruct fuel; [discriminate|]. cbn [parse_value].
  destruct (skip_ws s) as [|c r0]; [discriminate|]. intros H.
  exists c, r0. split; [reflexivity|].
  split; apply Ascii.eqb_neq; intros ->; discriminate H.
Qed.

Lemma line_break_ws (gap indent : string) :
  all_ws indent = true -> all_ws (line_break gap indent) = true.
Proof. intros H. unfold line_break. now destruct gap. Qed.

Lemma all_ws_append (a b : string) :
  all_ws a = true -> all_ws b = true -> all_ws (a +:+ b) = true.
Proof.
  intros Ha Hb. induction a as [|c a IH]; [exact Hb|].
  cbn [all_ws] in Ha. apply andb_prop in Ha. destruct Ha as [Hc Ha].
  rewrite append_cons. cbn [all_ws]. now rewrite Hc, IH.
Qed.

Lemma ends_number_ws (w : string) (c : ascii) (r : string) :
  all_ws w = true -> ends_number (String c r) = true ->
  ends_number (w +:+ String c r) = true.
Proof.
  destruct w as [|d w]; [easy|]. cbn [all_ws]. intros H _.
  apply andb_prop in H. destruct H as [Hd _]. rewrite append_cons.
  unfold is_ws in Hd.
  repeat (apply orb_prop in Hd; destruct Hd as [Hd|Hd]);
    apply Ascii.eqb_eq in Hd; subst d; reflexivity.
Qed.

(** *** Values *)

Lemma obj_get_absent (k : string) (acc : list (string * json)) :
  existsb (String.eqb k) (keys acc) = false -> obj_get k acc = None.
Proof.
  induction acc as [|[k1 v1] acc IH]; [reflexivity|]. cbn.
  intros H. apply orb_false_elim in H. destruct H as [Hk H].
  rewrite Hk. now apply IH.
Qed.

Lemma distinct_middle (a : list string) (k : string) (b : list string) :
  distinct (a ++ k :: b) = true -> existsb (String.eqb k) a = false.
Proof.
  induction a as [|x a IH]; [reflexivity|]. cbn.
  intros H. apply andb_prop in H. destruct H as [Hx H].
  apply negb_true_iff in Hx. rewrite existsb_app in Hx.
  apply orb_false_elim in Hx. destruct Hx as [_ Hx]. cbn in Hx.
  apply orb_false_elim in Hx. destruct Hx as [Hx _].
  rewrite String.eqb_sym, Hx. now apply IH.
Qed.

Lemma obj_set_fresh (k : string) (v : json) (acc : list (string * json))
    (rest : list string) :
  array_index k = None ->
  distinct (keys acc ++ k :: rest) = true ->
  obj_set k v acc = (acc ++ [(k, v)])%list.
Proof.
  intros Hi Hd. unfold obj_set, obj_has.
  rewrite (obj_get_absent _ _ (distinct_middle _ _ _ Hd)). now rewrite Hi.
Qed.

Section Gap.
Variable gap : string.
Hypothesis Hgap : all_ws gap = true.

(** A value that reads back, followed by text that cannot continue a
    number. *)
Lemma reads_back_then (v : json) (indent rest : string) :
  reads_back gap v -> all_ws indent = true -> ends_number rest = true ->
  exists fuel, parse_value fuel (serialize gap indent v +:+ rest) = POk v rest.
Proof.
  intros Hv Hi Hr. destruct (Hv indent Hi) as [fuel H]. exists fuel.
  apply (proj1 (parse_append fuel rest)) in H; [exact H | auto].
Qed.

(** The elements of an array, and the members of an object, read back one
    after the other. *)
Lemma elements_read_back (indent : string) (more : list json) :
  all_ws indent = true ->
  Forall (reads_back gap) more ->
  forall item acc, reads_back gap item ->
  exists fuel,
    parse_elements fuel acc
      (join ("," +:+ line_break gap (indent +:+ gap))
         (map (serialize gap (indent +:+ gap)) (item :: more))
       +:+ line_break gap indent +:+ "]")
    = POk (JArray (acc ++ item :: more)) EmptyString.
Proof.
  intros Hi Hmore.
  assert (Hin : all_ws (indent +:+ gap) = true) by now apply all_ws_append.
  pose proof (line_break_ws gap _ Hin) as Hlin.
  pose proof (line_break_ws gap _ Hi) as Hlout.
  induction Hmore as [|y l Hy Hl IH]; intros item acc Hitem.
  - cbn [map join].
    destruct (reads_back_then item (indent +:+ gap)
                (line_break gap indent +:+ "]") Hitem Hin) as [f1 H1].
    { now apply ends_number_ws. }
    exists (S f1). cbn [parse_elements]. rewrite H1.
    rewrite (skip_ws_all_ws _ _ Hlout). reflexivity.
  - cbn [map]. rewrite join_two. cbn [map] in IH.
    destruct (IH y (acc ++ [item])%list Hy) as [f2 H2].
    set (J := join _ (_ :: _)) in H2 |- *.
    rewrite !append_assoc, append_cons, append_nil.
    destruct (reads_back_then item (indent +:+ gap)
                (String "," (line_break gap (indent +:+ gap)
                               +:+ J +:+ line_break gap indent +:+ "]"))
                Hitem Hin eq_refl) as [f1 H1].
    clearbody J.
    exists (S (Nat.max f1 f2)). cbn [parse_elements].
    rewrite (parse_value_more f1 _ _ _ _ (Nat.le_max_l _ _) H1).
    cbn [skip_ws]. change (is_ws ",") with false. cbv iota. eqb_consts. cbv iota.
    rewrite (parse_elements_ws _ _ _ _ Hlin).
    rewrite (parse_elements_more f2 _ _ _ _ _ (Nat.le_max_r _ _) H2).
    now rewrite <- app_assoc.
Qed.

Lemma members_read_back (indent : string) (more : list (string * json)) :
  all_ws indent = true ->
  Forall (fun kv => no_surrogate kv.1 = true /\ array_index kv.1 = None /\
                    reads_back gap kv.2) more ->
  forall k v acc,
    no_surrogate k = true -> array_index k = None -> reads_back gap v ->
    distinct (keys acc ++ k :: keys more) = true ->
  exists fuel,
    parse_members fuel acc
      (join ("," +:+ line_break gap (indent +:+ gap))
         (map (fun kv => quote kv.1 +:+ colon_of gap
                           +:+ serialize gap (indent +:+ gap) kv.2)
            ((k, v) :: more))
       +:+ line_break gap indent +:+ "}")
    = POk (JObject (acc ++ (k, v) :: more)) EmptyString.
Proof.
  intros Hi Hmore.
  assert (Hin : all_ws (indent +:+ gap) = true) by now apply all_ws_append.
  pose proof (line_break_ws gap _ Hin) as Hlin.
  pose proof (line_break_ws gap _ Hi) as Hlout.
  assert (Hcolon : forall s,
            exists w, all_ws w = true /\
              skip_ws (colon_of gap +:+ s) = String ":" (w +:+ s)).
  { intros s. unfold colon_of. destruct gap.
    - exists EmptyString. split; reflexivity.
    - exists " ". split; reflexivity. }
  induction Hmore as [|[k1 v1] l (Hk1 & Hi1 & Hv1) Hl IH];
    intros k v acc Hk Hidx Hv Hd.
  - cbn [map join fst snd].
    destruct (reads_back_then v (indent +:+ gap)
                (line_break gap indent +:+ "}") Hv Hin) as [f1 H1].
    { now apply ends_number_ws. }
    exists (S f1). cbn [parse_members].
    unfold quote, quoted, dq. rewrite !append_assoc. norm_append.
    cbn [skip_ws]. change (is_ws "034") with false. cbv iota.
    eqb_consts. cbn [negb]. cbv iota.
    rewrite (parse_string_quote _ _ Hk).
    destruct (Hcolon (serialize gap (indent +:+ gap) v
                           +:+ line_break gap indent +:+ "}"))
      as (w & Hw & ->).
    eqb_consts. cbn [negb]. cbv iota.
    rewrite (parse_value_ws _ _ _ Hw), H1.
    rewrite (skip_ws_all_ws _ _ Hlout). cbn [skip_ws].
    change (is_ws "}") with false. cbv iota. eqb_consts. cbv iota.
    now rewrite (obj_set_fresh _ _ _ _ Hidx Hd).
  - cbn [map fst snd]. rewrite join_two. cbn [map fst snd] in IH.
    assert (Hd' : distinct (keys (acc ++ [(k, v)]) ++ k1 :: keys l) = true).
    { unfold keys in Hd |- *. rewrite map_app. cbn [map fst].
      now rewrite <- app_assoc. }
    destruct (IH k1 v1 (acc ++ [(k, v)])%list Hk1 Hi1 Hv1 Hd') as [f2 H2].
    set (J := join _ (_ :: _)) in H2 |- *.
    rewrite !append_assoc, append_cons, append_nil.
    destruct (reads_back_then v (indent +:+ gap)
                (String "," (line_break gap (indent +:+ gap)
                               +:+ J +:+ line_break gap indent +:+ "}"))
                Hv Hin eq_refl) as [f1 H1].
    clearbody J.
    exists (S (Nat.max f1 f2)). cbn [parse_members].
    unfold quote, quoted, dq. rewrite !append_assoc. norm_append.
    cbn [skip_ws]. change (is_ws "034") with false. cbv iota.
    eqb_consts. cbn [negb]. cbv iota.
    rewrite (parse_string_quote _ _ Hk).
    match goal with
    | |- context [skip_ws (colon_of gap +:+ ?s)] =>
        destruct (Hcolon s) as (w & Hw & ->)
    end.
    eqb_consts. cbn [negb]. cbv iota.
    rewrite (parse_value_ws _ _ _ Hw).
    rewrite (parse_value_more f1 _ _ _ _ (Nat.le_max_l _ _) H1).
    cbn [skip_ws]. change (is_ws ",") with false. cbv iota. eqb_consts. cbv iota.
    rewrite (obj_set_fresh _ _ _ _ Hidx Hd).
    rewrite (parse_members_ws _ _ _ _ Hlin).
    rewrite (parse_members_more f2 _ _ _ _ _ (Nat.le_max_r _ _) H2).
    now rewrite <- app_assoc.
Qed.

(** A number whose token denotes it reads back. *)
Lemma number_reads_back (n : number) :
  lex_number (number_to_json n) = Some (number_to_json n, EmptyString) ->
  number_of_literal (number_to_json n) = n ->
  parse_value 1 (number_to_json n) = POk (JNumber n) EmptyString.
Proof.
  intros Hl Hn. destruct (number_to_json n) as [|c r] eqn:Ht; [discriminate|].
  assert (Hc : is_digit c = true \/ Ascii.eqb c "-" = true).
  { destruct (is_digit c) eqn:Hd; [now left|].
    destruct (Ascii.eqb c "-") eqn:Hm; [now right|].
    rewrite (lex_number_letter _ _ Hd Hm) in Hl. discriminate. }
  assert (Hne : forall d, is_digit d = false -> Ascii.eqb d "-" = false ->
                  Ascii.eqb c d = false /\ Ascii.eqb d c = false).
  { intros d Hd Hm. split; apply Ascii.eqb_neq; intros <-;
      destruct Hc; congruence. }
  destruct (Hne " "%char eq_refl eq_refl) as [W1 _].
  destruct (Hne "009"%char eq_refl eq_refl) as [W2 _].
  destruct (Hne "010"%char eq_refl eq_refl) as [W3 _].
  destruct (Hne "013"%char eq_refl eq_refl) as [W4 _].
  destruct (Hne "{"%char eq_refl eq_refl) as [W5 _].
  destruct (Hne "["%char eq_refl eq_refl) as [W6 _].
  destruct (Hne "034"%char eq_refl eq_refl) as [W7 _].
  destruct (Hne "t"%char eq_refl eq_refl) as [_ W8].
  destruct (Hne "f"%char eq_refl eq_refl) as [_ W9].
  destruct (Hne "n"%char eq_refl eq_refl) as [_ W10].
  cbn [parse_value skip_ws]. unfold is_ws. rewrite W1, W2, W3, W4. cbn [orb].
  rewrite W5, W6. unfold parse_scalar. rewrite W7. cbn [strip_prefix].
  rewrite W8, W9, W10. now rewrite Hl, Hn.
Qed.

(** The first step of [parse_value] on an array and on an object. *)
Lemma parse_value_array (fuel : nat) (s : string) :
  parse_value (S fuel) ("[" +:+ s) =
  match skip_ws s with
  | EmptyString => PSyntaxError
  | String d r' as t' =>
      if Ascii.eqb d "]" then POk (JArray []) r' else parse_elements fuel [] t'
  end.
Proof. reflexivity. Qed.

Lemma parse_value_object (fuel : nat) (s : string) :
  parse_value (S fuel) ("{" +:+ s) =
  match skip_ws s with
  | EmptyString => PSyntaxError
  | String d r' as t' =>
      if Ascii.eqb d "}" then POk (JObject []) r' else parse_members fuel [] t'
  end.
Proof. reflexivity. Qed.

(** Every printable value reads back. *)
Lemma printable_reads_back (v : json) : printable v -> reads_back gap v.
Proof.
  induction v as [ |b|n|s|items IH|props IH] using json_induction;
    intros Hp indent Hi.
  - exists 1%nat. reflexivity.
  - exists 1%nat. now destruct b.
  - exists 1%nat. destruct Hp as [Hl Hn]. now apply number_reads_back.
  - exists 1%nat. cbn [serialize]. unfold quote, quoted, dq. norm_append.
    cbn [parse_value skip_ws]. change (is_ws "034") with false. cbv iota.
    eqb_consts. cbv iota. unfold parse_scalar. eqb_consts. cbv iota.
    cbn [printable] in Hp. now rewrite (parse_string_quote _ _ Hp).
  - assert (Hall : Forall (reads_back gap) items).
    { cbn [printable] in Hp. induction IH as [|x l Hx Hl IHl]; constructor.
      - apply Hx, Hp.
      - apply IHl, Hp. }
    destruct items as [|item more]; [exists 1%nat; reflexivity|].
    rewrite serialize_array by discriminate.
    apply Forall_cons in Hall. destruct Hall as [Hitem Hmore].
    destruct (elements_read_back indent more Hi Hmore item [] Hitem) as [f H].
    exists (S f). rewrite parse_value_array.
    assert (Hlin : all_ws (line_break gap (indent +:+ gap)) = true)
      by (apply line_break_ws; now apply all_ws_append).
    rewrite (skip_ws_all_ws _ _ Hlin).
    rewrite <- parse_elements_skip_ws in H.
    destruct f; [discriminate|].
    assert (Hv : exists v1 r1,
              parse_value f
                (skip_ws (join ("," +:+ line_break gap (indent +:+ gap))
                            (map (serialize gap (indent +:+ gap)) (item :: more))
                          +:+ line_break gap indent +:+ "]")) = POk v1 r1).
    { cbn [parse_elements] in H.
      match type of H with
      | match ?e with _ => _ end = _ => destruct e as [v1 r1| |] eqn:Hv
      end; try discriminate. eauto. }
    destruct Hv as (v1 & r1 & Hv).
    destruct (parse_value_head _ _ _ _ Hv) as (c & r0 & Hs & Hc & _).
    rewrite skip_ws_idem in Hs. rewrite Hs in H |- *. now rewrite Hc.
  - cbn [printable] in Hp. destruct Hp as [Hd Hp].
    assert (Hall : Forall (fun kv => no_surrogate kv.1 = true /\
                             array_index kv.1 = None /\ reads_back gap kv.2) props).
    { clear Hd. induction IH as [|x l Hx Hl IHl]; constructor.
      - destruct Hp as [(H1 & H2 & H3) _]. auto.
      - apply IHl, Hp. }
    destruct props as [|[k v] more]; [exists 1%nat; reflexivity|].
    rewrite serialize_object by discriminate.
    apply Forall_cons in Hall. destruct Hall as [(Hk & Hidx & Hv) Hmore].
    destruct (members_read_back indent more Hi Hmore k v [] Hk Hidx Hv Hd)
      as [f H].
    exists (S f). rewrite parse_value_object.
    assert (Hlin : all_ws (line_break gap (indent +:+ gap)) = true)
      by (apply line_break_ws; now apply all_ws_append).
    rewrite (skip_ws_all_ws _ _ Hlin).
    rewrite <- parse_members_skip_ws in H.
    assert (Hs : exists r0,
              skip_ws (join ("," +:+ line_break gap (indent +:+ gap))
                         (map (fun kv => quote kv.1 +:+ colon_of gap
                                  +:+ serialize gap (indent +:+ gap) kv.2)
                            ((k, v) :: more))
                       +:+ line_break gap indent +:+ "}") = String "034" r0).
    { cbn [map fst snd]. destruct more as [|kv more].
      - cbn [map join]. unfold quote, quoted, dq. rewrite !append_assoc.
        rewrite append_cons. eauto.
      - cbn [map]. rewrite join_two. unfold quote, quoted, dq.
        rewrite !append_assoc. rewrite append_cons. eauto. }
    destruct Hs as [r0 Hs]. rewrite Hs in H |- *. exact H.
Qed.

End Gap.

(** *** Dates and printable objects *)

Lemma pretty_N_char_digit (x : N) : is_digit (pretty_N_char x) = true.
Proof. unfold pretty_N_char. now repeat case_match. Qed.

Lemma pretty_N_go_lacks (c : ascii) (x : N) (s : string) :
  is_digit c = false ->
  contains c s = false -> contains c (pretty_N_go x s) = false.
Proof.
  intros Hc. revert s. induction (N.lt_wf_0 x) as [x _ IH]; intros s Hs.
  assert (x = 0 \/ 0 < x)%N as [->|Hx] by lia.
  - now rewrite pretty_N_go_0.
  - rewrite pretty_N_go_step by exact Hx. apply IH.
    + now apply N.div_lt.
    + cbn [contains]. rewrite Hs, orb_false_r.
      apply Ascii.eqb_neq. intros ->.
      rewrite pretty_N_char_digit in Hc. discriminate.
Qed.

Lemma pretty_N_lacks (c : ascii) (x : N) :
  is_digit c = false -> contains c (pretty x) = false.
Proof.
  intros Hc. unfold pretty, pretty_N. destruct (decide (x = 0%N)).
  - cbn [contains]. rewrite orb_false_r. apply Ascii.eqb_neq. now intros ->.
  - now apply pretty_N_go_lacks.
Qed.

(** A number prints as digits, after a minus sign when it is negative. *)
Lemma pretty_Z_lacks (c : ascii) (x : Z) :
  is_digit c = false -> Ascii.eqb c "-" = false ->
  contains c (pretty x) = false.
Proof.
  intros Hc Hm. destruct x as [|p|p].
  - change (pretty 0%Z) with "0". cbn [contains]. rewrite orb_false_r.
    apply Ascii.eqb_neq. now intros ->.
  - now apply (pretty_N_lacks c (N.pos p)).
  - change (pretty (Z.neg p)) with ("-" +:+ pretty (N.pos p)).
    rewrite append_cons, append_nil. cbn [contains].
    now rewrite Hm, (pretty_N_lacks c (N.pos p)).
Qed.

(** [replace_all] and [contains]. *)
Lemma replace_all_append (from to : ascii) (a b : string) :
  replace_all from to (a +:+ b) = replace_all from to a +:+ replace_all from to b.
Proof.
  induction a as [|c a IH]; [now rewrite !append_nil|].
  rewrite append_cons. cbn [replace_all]. now rewrite IH, append_cons.
Qed.

Lemma replace_all_absent (from to : ascii) (s : string) :
  contains from s = false -> replace_all from to s = s.
Proof.
  induction s as [|c s IH]; [reflexivity|].
  cbn [contains replace_all]. intros H. apply orb_false_elim in H.
  destruct H as [Hc Hs]. rewrite Ascii.eqb_sym, Hc. now rewrite IH.
Qed.

Lemma no_surrogate_absent (s : string) :
  contains "237" s = false -> no_surrogate s = true.
Proof.
  induction s as [|c s IH]; [reflexivity|]. cbn [contains no_surrogate].
  intros H. apply orb_false_elim in H. destruct H as [Hc Hs].
  rewrite (IH Hs), andb_true_r. destruct s; [reflexivity|].
  now rewrite Ascii.eqb_sym, Hc.
Qed.

Lemma contains_replace_other (c from to : ascii) (s : string) :
  Ascii.eqb c from = false -> Ascii.eqb c to = false ->
  contains c (replace_all from to s) = contains c s.
Proof.
  intros Hf Ht. induction s as [|x s IH]; [reflexivity|].
  cbn [replace_all contains]. rewrite IH.
  destruct (Ascii.eqb x from) eqn:Hx; [|reflexivity].
  apply Ascii.eqb_eq in Hx. subst x. now rewrite Hf, Ht.
Qed.

(** The date string is printable. *)
Lemma dateStr_no_surrogate (w : World) : no_surrogate (dateStr w) = true.
Proof.
  apply no_surrogate_absent. unfold dateStr.
  rewrite contains_replace_other by reflexivity.
  unfold JsDate.toLocaleDateString.
  destruct (JsDate.shanghai_date (clock w)) as [[y m] d].
  rewrite !contains_append.
  rewrite !(pretty_Z_lacks "237" _ eq_refl eq_refl). reflexivity.
Qed.

Lemma obj_get_present (k : string) (props : list (string * json)) :
  obj_get k props = None -> existsb (String.eqb k) (keys props) = false.
Proof.
  induction props as [|[k1 v1] props IH]; [reflexivity|]. cbn.
  destruct (String.eqb k k1); [discriminate|]. exact IH.
Qed.

Lemma distinct_snoc (l : list string) (k : string) :
  distinct l = true -> existsb (String.eqb k) l = false ->
  distinct (l ++ [k]) = true.
Proof.
  induction l as [|x l IH]; [reflexivity|]. cbn.
  intros H Hk. apply andb_prop in H. destruct H as [Hx Hl].
  apply orb_false_elim in Hk. destruct Hk as [Hkx Hk].
  rewrite (IH Hl Hk), andb_true_r. rewrite existsb_app.
  apply negb_true_iff in Hx. rewrite Hx. cbn.
  now rewrite String.eqb_sym, Hkx.
Qed.

(** Setting a printable member of a printable object, under a key that is
    no array index, gives a printable object. *)
Lemma printable_set (k : string) (v : json) (props : list (string * json)) :
  no_surrogate k = true -> array_index k = None -> printable v ->
  printable (JObject props) -> printable (JObject (obj_set k v props)).
Proof.
  intros Hk Hi Hv [Hd Hp]. unfold obj_set, obj_has.
  destruct (obj_get k props) as [old|] eqn:Hg.
  - split; [now rewrite keys_replace|]. clear Hd Hg.
    induction props as [|[k1 v1] props IH]; [exact I|].
    cbn [obj_replace]. destruct Hp as [(H1 & H2 & H3) Hp].
    destruct (String.eqb k k1); cbn [fold_right fst snd]; auto.
  - rewrite Hi. split.
    + rewrite keys_app. apply distinct_snoc; [exact Hd|].
      now apply obj_get_present.
    + clear Hd Hg. induction props as [|[k1 v1] props IH]; cbn; auto.
      destruct Hp as [H1 Hp]. auto.
Qed.

(** A run reaches the write with one object only. *)
Lemma Reached_unique (w : World) (p1 p2 : list (string * json)) :
  Reached w p1 -> Reached w p2 -> p1 = p2.
Proof.
  intros H1 H2.
  destruct (Reached_reply_text _ _ H1) as (r1 & t1 & Hr1 & He1 & Hj1).
  destruct (Reached_reply_text _ _ H2) as (r2 & t2 & Hr2 & He2 & Hj2).
  congruence.
Qed.

(** Text with a character that is no white space is not skipped entirely. *)
Lemma skip_ws_nonempty (a : string) (c : ascii) (b : string) :
  is_ws c = false -> skip_ws (a +:+ String c b) <> EmptyString.
Proof.
  intros Hc. induction a as [|x a IH].
  - rewrite append_nil. cbn [skip_ws]. now rewrite Hc.
  - rewrite append_cons. cbn [skip_ws]. now destruct (is_ws x).
Qed.

End ParserMore.

(** ** The calendar and the zone *)

Section CalendarFacts.
Local Open Scope Z_scope.

(** The algorithm repeats every 400 years, which are 146097 days. *)
Lemma civil_from_days_era (n q : Z) :
  JsDate.civil_from_days (n + 146097 * q) =
  let '(y, m, d) := JsDate.civil_from_days n in (y + 400 * q, m, d).
Proof.
  unfold JsDate.civil_from_days.
  replace (n + 146097 * q + 719468) with (n + 719468 + q * 146097) by ring.
  rewrite Z.div_add by discriminate.
  set (era := (n + 719468) / 146097).
  replace (n + 719468 + q * 146097 - (era + q) * 146097)
    with (n + 719468 - era * 146097) by ring.
  set (doe := n + 719468 - era * 146097).
  cbv zeta. f_equal. f_equal. ring.
Qed.

Lemma is_leap_era (y q : Z) : is_leap (y + 400 * q) = is_leap y.
Proof.
  unfold is_leap.
  replace (y + 400 * q) with (y + (100 * q) * 4) at 1 by ring.
  replace (y + 400 * q) with (y + (4 * q) * 100) at 1 by ring.
  replace (y + 400 * q) with (y + q * 400) by ring.
  now rewrite !Z.mod_add by discriminate.
Qed.

Lemma next_date_era (y m d q : Z) :
  next_date (y + 400 * q, m, d) =
  let '(y', m', d') := next_date (y, m, d) in (y' + 400 * q, m', d').
Proof.
  unfold next_date, month_length. rewrite is_leap_era.
  destruct (d <? _); [reflexivity|].
  destruct (m <? 12); [reflexivity|]. f_equal. f_equal. ring.
Qed.

Lemma date_eqb_eq (a b : Z * Z * Z) : date_eqb a b = true -> a = b.
Proof.
  destruct a as [[y1 m1] d1], b as [[y2 m2] d2]. unfold date_eqb.
  rewrite !andb_true_iff, !Z.eqb_eq. intros [[-> ->] ->]. reflexivity.
Qed.

Lemma days_chain_spec (k : nat) (lo : Z) (a b : Z * Z * Z) :
  days_chain k lo = Some (a, b) ->
  a = JsDate.civil_from_days lo /\
  b = JsDate.civil_from_days (lo + 2 ^ Z.of_nat k - 1) /\
  forall r, lo <= r < lo + 2 ^ Z.of_nat k - 1 ->
    JsDate.civil_from_days (r + 1) = next_date (JsDate.civil_from_days r).
Proof.
  revert lo a b. induction k as [|k IH]; intros lo a b.
  - cbn [days_chain]. intros [= <- <-]. change (2 ^ Z.of_nat 0) with 1.
    replace (lo + 1 - 1) with lo by ring. repeat split. intros r Hr. lia.
  - cbn [days_chain].
    destruct (days_chain k lo) as [[a1 b1]|] eqn:H1; [|discriminate].
    destruct (days_chain k (lo + 2 ^ Z.of_nat k)) as [[c1 d1]|] eqn:H2;
      [|discriminate].
    destruct (date_eqb (next_date b1) c1) eqn:He; [|discriminate].
    intros [= <- <-]. apply date_eqb_eq in He.
    destruct (IH _ _ _ H1) as (-> & -> & Hl).
    destruct (IH _ _ _ H2) as (-> & -> & Hr).
    rewrite Nat2Z.inj_succ, Z.pow_succ_r by lia.
    set (h := 2 ^ Z.of_nat k) in *.
    assert (0 < h) by (apply Z.pow_pos_nonneg; lia).
    split; [reflexivity|]. split; [f_equal; lia|].
    intros r Hr'.
    destruct (Z_lt_le_dec r (lo + h - 1)) as [Hlt|Hge]; [apply Hl; lia|].
    destruct (Z.eq_dec r (lo + h - 1)) as [->|Hne].
    + replace (lo + h - 1 + 1) with (lo + h) by ring. now rewrite He.
    + apply Hr. lia.
Qed.

(** One era, from 1 March 0 on. *)
Lemma chain_low : days_chain 17 (-719468) <> None.
Proof. vm_compute. discriminate. Qed.

Lemma chain_high : days_chain 14 (-719468 + 2 ^ 17 - 1) <> None.
Proof. vm_compute. discriminate. Qed.

(** The algorithm follows the calendar: the date of a day is the day
    after the date of the day before. *)
Lemma civil_from_days_succ (n : Z) :
  JsDate.civil_from_days (n + 1) = next_date (JsDate.civil_from_days n).
Proof.
  assert (Hera : forall r, -719468 <= r < -719468 + 146097 ->
            JsDate.civil_from_days (r + 1) = next_date (JsDate.civil_from_days r)).
  { intros r Hr.
    destruct (days_chain 17 (-719468)) as [[a b]|] eqn:Hl;
      [|now destruct chain_low].
    destruct (days_chain 14 (-719468 + 2 ^ 17 - 1)) as [[c d]|] eqn:Hh;
      [|now destruct chain_high].
    apply days_chain_spec in Hl. destruct Hl as (_ & _ & Hl).
    apply days_chain_spec in Hh. destruct Hh as (_ & _ & Hh).
    change (2 ^ Z.of_nat 17) with 131072 in Hl.
    change (2 ^ Z.of_nat 14) with 16384 in Hh.
    change (2 ^ 17) with 131072 in Hh.
    destruct (Z_lt_le_dec r (-719468 + 131072 - 1)); [apply Hl|apply Hh]; lia. }
  set (q := (n + 719468) / 146097).
  set (r := (n + 719468) mod 146097 - 719468).
  assert (Hn : n = r + 146097 * q).
  { subst q r. pose proof (Z.div_mod (n + 719468) 146097). lia. }
  assert (Hr : -719468 <= r < -719468 + 146097).
  { subst r. pose proof (Z.mod_pos_bound (n + 719468) 146097). lia. }
  rewrite Hn. replace (r + 146097 * q + 1) with (r + 1 + 146097 * q) by ring.
  rewrite !civil_from_days_era, (Hera r Hr).
  destruct (JsDate.civil_from_days r) as [[y m] d].
  now rewrite next_date_era.
Qed.

Lemma civil_from_days_nth (k : nat) :
  JsDate.civil_from_days (Z.of_nat k) = nth_date k.
Proof.
  induction k as [|k IH]; [reflexivity|].
  rewrite Nat2Z.inj_succ. unfold Z.succ. rewrite civil_from_days_succ, IH.
  reflexivity.
Qed.

(** The zone is always ahead of UTC, and eight hours ahead from the end
    of the summer time of 1991 on. *)
Lemma shanghai_offset_pos (ms : Z) : 0 < JsDate.shanghai_offset ms.
Proof.
  unfold JsDate.shanghai_offset.
  assert (H : forall l acc,
            Forall (fun change => 0 < snd change) l -> 0 < acc ->
            0 < fold_left
                  (fun (offset : Z) (change : Z * Z) =>
                     if 1000 * fst change <=? ms then snd change else offset)
                  l acc).
  { induction l as [|c l IH]; intros acc Hl Hacc; [exact Hacc|].
    apply Forall_cons in Hl. destruct Hl as [Hc Hl]. cbn [fold_left].
    apply IH; [exact Hl|]. now destruct (1000 * fst c <=? ms). }
  assert (0 < fold_left
                (fun (offset : Z) (change : Z * Z) =>
                   if 1000 * fst change <=? ms then snd change else offset)
                JsDate.shanghai_transitions JsDate.shanghai_lmt); [|lia].
  apply H; [|reflexivity].
  unfold JsDate.shanghai_transitions. repeat constructor.
Qed.

Lemma shanghai_offset_now (ms : Z) :
  684867600000 <= ms -> JsDate.shanghai_offset ms = 28800000.
Proof.
  intros Hms. unfold JsDate.shanghai_offset, JsDate.shanghai_transitions.
  cbn [fold_left fst snd].
  repeat match goal with
         | |- context [Z.leb ?a ms] =>
             replace (Z.leb a ms) with true by (symmetry; apply Z.leb_le; lia)
         end.
  reflexivity.
Qed.

(** From 1970 on, the date of an instant is the date as many days after
    1 January 1970 as the zone has seen begin. *)
Lemma shanghai_date_nth (ms : Z) :
  0 <= ms -> JsDate.shanghai_date ms = nth_date (Z.to_nat (local_day ms)).
Proof.
  intros Hms. unfold JsDate.shanghai_date. fold (local_day ms).
  assert (0 <= local_day ms).
  { unfold local_day. pose proof (shanghai_offset_pos ms).
    apply Z.div_pos; lia. }
  rewrite <- civil_from_days_nth. now rewrite Z2Nat.id.
Qed.

End CalendarFacts.

Section DateFacts.
Context `{Num : Number}.

Lemma dateStr_render (w : World) :
  dateStr w = render_date (JsDate.shanghai_date (clock w)).
Proof.
  unfold dateStr, JsDate.toLocaleDateString, render_date.
  destruct (JsDate.shanghai_date (clock w)) as [[y m] d].
  rewrite !replace_all_append.
  now rewrite !(replace_all_absent _ _ _ (pretty_Z_lacks "/" _ eq_refl eq_refl)).
Qed.

End DateFacts.

(** * The claims *)

Section Claims.
Context `{Num : Number}.

(** C1 (as amended).  When the reply is a well-formed JSON object with
    prose around it, no opening brace in the prose before the object and
    no closing brace in the prose after it, the extraction returns exactly
    the text of the object, neither truncated nor extended, and this text
    parses to the object.  In general the extracted text runs from the
    first opening brace of the reply to its last closing brace. *)
Theorem C1_extract_exact (pre obj post : string) (props : list (string * json)) :
  is_object_text obj props ->
  contains "{" pre = false ->
  contains "}" post = false ->
  extract_json (pre +:+ obj +:+ post) = Some obj /\
  JSON_parse obj = Some (JObject props) /\
  (forall before inside after,
     contains "{" before = false ->
     contains "}" after = false ->
     extract_json (before +:+ String "{" (inside +:+ String "}" after))
     = Some (String "{" (inside +:+ String "}" EmptyString))).
Proof.
  intros [[r ->] Hp] Hpre Hpost.
  assert (Hgen : forall before inside after,
            contains "{" before = false ->
            contains "}" after = false ->
            extract_json (before +:+ String "{" (inside +:+ String "}" after))
            = Some (String "{" (inside +:+ String "}" EmptyString))).
  { intros before inside after Hb Ha. unfold extract_json.
    now rewrite RegexFacts.exec_first_to_last. }
  split; [|split; [|exact Hgen]].
  - destruct (object_text_closed r props Hp) as [mid ->].
    rewrite append_cons, append_assoc, append_cons, append_nil.
    now apply Hgen.
  - unfold JSON_parse. now rewrite Hp.
Qed.


(** C3 (as amended).  Every object written to data/today.json is the
    object parsed from the reply with its [date] member set to the
    computed date and every other member as in the reply; nothing is
    validated or repaired, so the written object has the HealthRecord
    shape exactly when the members of the reply's object have it. *)
Theorem C3_written_object (w : World) (p data : string) :
  In (p, data) (writes (run w)) ->
  exists props,
    Reached w props /\
    data = JSON_stringify_2 (healthData w props) /\
    member "date" (Some (healthData w props)) = Some (JString (dateStr w)) /\
    (forall k, k <> "date" ->
       member k (Some (healthData w props)) = obj_get k props) /\
    conforms (healthData w props) = reply_conforms props.
Proof.
  intros Hin. destruct (written_inv w p data Hin) as (props & HR & _ & -> & ->).
  exists props. split; [exact HR|]. split; [reflexivity|]. simpl.
  split; [apply obj_get_set_eq|].
  split; [intros k Hk; now apply obj_get_set_ne|].
  apply conforms_healthData.
Qed.

(** C4.  When the credential is absent or empty the run fails with the
    missing-credential message: the transport is never called, nothing is
    written, the file system is as it was and the exit status is 1. *)
Theorem C4_missing_credential (w : World) :
  env_AI_API_KEY w = None \/ env_AI_API_KEY w = Some EmptyString ->
  posts (run w) = [] /\
  writes (run w) = [] /\
  fs (run w) = disk w /\
  exit_status (run w) = 1%Z /\
  console (run w) = (started w ++ [failed; script_error (Str missing_key)])%list.
Proof.
  intros H.
  assert (Hf : falsy (env_AI_API_KEY w) = true) by (destruct H as [-> | ->]; reflexivity).
  unfold run, generateContent, body. unfold_monad. simpl. rewrite Hf. simpl.
  repeat split.
Qed.

(** C6 (as amended).  The exit status is 0 on success, with the complete
    content in the output file, and 1 on every failure.  [fs.writeFile] is
    called at most once, with the complete content.  A run that fails
    before that call leaves the file system as it was; this covers every
    run that has no credential, no 2xx response, no string content, no
    match or no parsable match.  The one exception is an object nested
    too deep to be printed: the call is not reached, and nothing has
    changed but the data directory, which has been created when it was
    missing.  When the call itself fails, the output file is as it was or
    holds the first bytes of the new content. *)
Theorem C6_failures (w : World) :
  ((exit_status (run w) = 0%Z /\
    exists props,
      Reached w props /\
      writes (run w) = [(filePath w, content w props)] /\
      fs (run w) !! filePath w = Some (File (content w props))) \/
   (exit_status (run w) = 1%Z /\ writes (run w) = [] /\ fs (run w) = disk w) \/
   (exit_status (run w) = 1%Z /\
    exists props,
      Reached w props /\
      writes (run w) = [(filePath w, content w props)] /\
      (fs (run w) !! filePath w = disk w !! filePath w \/
       exists n, write_fault w = FailsAfter n /\
         fs (run w) !! filePath w =
         Some (File (JsString.take n (content w props))))) \/
   (exit_status (run w) = 1%Z /\
    exists props,
      Reached w props /\
      stack_overflow w (healthData w props) = true /\
      writes (run w) = [] /\
      disk w !! dataDir w = None /\
      fs (run w) = <[dataDir w := Dir]> (disk w))) /\
  ((forall props, ~ Reached w props) ->
   exit_status (run w) = 1%Z /\ writes (run w) = [] /\ fs (run w) = disk w).
Proof.
  unfold exit_status.
  destruct (run_inv w) as [(Hw & Hf & Hx)|[(props & HR & Ho & Hw & Hx & Hd & Hf)|
                                           (props & HR & _ & Hw & Hc)]].
  - rewrite Hx. split; [right; left; auto | auto].
  - rewrite Hx. split; [|intros Hn; now destruct (Hn props)].
    right. right. right. split; [reflexivity|]. exists props. auto 10.
  - split.
    + destruct Hc as [(Hx & Hf)|(Hx & Hf)]; rewrite Hx.
      * left. split; [reflexivity|]. eauto.
      * right. right. left. split; [reflexivity|]. eauto.
    + intros Hn. now destruct (Hn props).
Qed.

(** C7.  When the reply has no opening brace that a closing brace follows,
    the run fails with the no-JSON message in the script-error branch,
    nothing is written and the exit status is 1. *)
Theorem C7_no_braces (w : World) (status : Z) (body : json) (reply : string) :
  falsy (env_AI_API_KEY w) = false ->
  transport w (sent_request w) = HttpResponse status body ->
  (200 <= status < 300)%Z ->
  read_content body = Ok (Some (JString reply)) ->
  ~ brace_pair reply ->
  console (run w) =
    (started w ++ [calling; failed; script_error (Str no_json)])%list /\
  writes (run w) = [] /\
  fs (run w) = disk w /\
  exit_status (run w) = 1%Z.
Proof.
  intros Hkey Ht Hst Hc Hn. apply extract_json_none_iff in Hn.
  rewrite (run_after_post w Hkey), Ht.
  replace ((200 <=? status)%Z && (status <? 300)%Z) with true
    by (symmetry; apply andb_true_intro; split; [apply Z.leb_le | apply Z.ltb_lt]; lia).
  rewrite Hc. unfold conclude, report. unfold_monad. simpl. rewrite Hn. simpl.
  repeat split.
Qed.

(** C8 (as amended).  When the request has been made and no response
    comes back, the run fails in the network-error branch, and it is only
    then that the network-error line is printed.  An HTTP response outside
    2xx is reported in the API-error branch instead, with its status and
    then its body, or, when the body is nested too deep to be printed,
    with the engine's report of the [RangeError] that ends the process.  A
    request that could not be set up gets no response either, and is
    reported in the script-error branch.  In all three cases nothing is
    written and the exit status is 1. *)
Theorem C8_network_error (w : World) :
  falsy (env_AI_API_KEY w) = false ->
  (transport w (sent_request w) = NoResponse ->
   console (run w) = (started w ++ [calling; failed; network_error])%list /\
   writes (run w) = [] /\ fs (run w) = disk w /\ exit_status (run w) = 1%Z) /\
  (forall status data,
     transport w (sent_request w) = HttpResponse status data ->
     ~ (200 <= status < 300)%Z ->
     console (run w) =
       (started w ++ calling :: failed :: api_status status ::
          (if stack_overflow w data then [uncaught RangeError]
           else [api_detail data]))%list /\
     writes (run w) = [] /\ fs (run w) = disk w /\ exit_status (run w) = 1%Z) /\
  (transport w (sent_request w) = SetupFailure ->
   console (run w) =
     (started w ++ [calling; failed;
                    script_error (MessageOf (AxiosError None false))])%list /\
   writes (run w) = [] /\ fs (run w) = disk w /\ exit_status (run w) = 1%Z) /\
  (In network_error (console (run w)) ->
   transport w (sent_request w) = NoResponse).
Proof.
  intros Hkey. split; [|split; [|split]].
  - rewrite (run_after_post w Hkey). intros ->.
    unfold conclude, report. unfold_monad. simpl. repeat split.
  - rewrite (run_after_post w Hkey). intros status data -> Hst.
    apply status_not_2xx in Hst. rewrite Hst.
    unfold conclude, report. unfold_monad. simpl.
    destruct (stack_overflow w data); repeat split.
  - rewrite (run_after_post w Hkey). intros ->.
    unfold conclude, report. unfold_monad. simpl. repeat split.
  - intros Hin. apply console_inv in Hin.
    destruct Hin as [H|[(Hk & _)|(_ & H)]].
    + cbn in H. intuition discriminate.
    + congruence.
    + destruct H as [H|[(_ & props & _ & H)|[(st & d & Ht & Hn & H)|[(Ht & H)|(m & H)]]]];
        first [exact Ht | cbn in H; intuition discriminate].
Qed.

(** C9.  Two runs with the same clock and the same reply text pass the
    same bytes to [fs.writeFile], and when both succeed both output files
    hold these bytes, whatever the credential, the working directory and
    the earlier content of the disk are. *)
Theorem C9_deterministic (w1 w2 : World) (reply p1 d1 p2 d2 : string) :
  clock w1 = clock w2 ->
  reply_text w1 = Some reply ->
  reply_text w2 = Some reply ->
  In (p1, d1) (writes (run w1)) ->
  In (p2, d2) (writes (run w2)) ->
  d1 = d2 /\
  (exit_status (run w1) = 0%Z -> exit_status (run w2) = 0%Z ->
   fs (run w1) !! filePath w1 = Some (File d1) /\
   fs (run w2) !! filePath w2 = Some (File d1)).
Proof.
  intros Hclock Hr1 Hr2 Hin1 Hin2.
  destruct (written_inv w1 p1 d1 Hin1) as (props1 & HR1 & Hw1 & -> & ->).
  destruct (written_inv w2 p2 d2 Hin2) as (props2 & HR2 & Hw2 & -> & ->).
  destruct (Reached_reply_text _ _ HR1) as (r1 & t1 & Hr1' & He1 & Hj1).
  destruct (Reached_reply_text _ _ HR2) as (r2 & t2 & Hr2' & He2 & Hj2).
  assert (r1 = reply) by congruence. assert (r2 = reply) by congruence.
  subst r1 r2. assert (t1 = t2) by congruence. subst t2.
  assert (props1 = props2) by congruence. subst props2.
  assert (Hd : content w1 props1 = content w2 props1).
  { unfold content, healthData, dateStr. now rewrite Hclock. }
  split; [exact Hd|]. intros Hx1 Hx2. split.
  - now apply (success_inv w1 (filePath w1)).
  - rewrite Hd. now apply (success_inv w2 (filePath w2)).
Qed.

(** C10.  When a 2xx response has no string at
    [choices[0].message.content], the run fails with a [TypeError] that
    the script-error branch reports, not the API-error branch; nothing is
    written and the exit status is 1. *)
Theorem C10_content_not_string (w : World) (status : Z) (body : json) :
  falsy (env_AI_API_KEY w) = false ->
  transport w (sent_request w) = HttpResponse status body ->
  (200 <= status < 300)%Z ->
  (forall t, read_content body <> Ok (Some (JString t))) ->
  console (run w) =
    (started w ++ [calling; failed; script_error (MessageOf TypeError)])%list /\
  writes (run w) = [] /\
  fs (run w) = disk w /\
  exit_status (run w) = 1%Z.
Proof.
  intros Hkey Ht Hst Hn.
  rewrite (run_after_post w Hkey), Ht.
  replace ((200 <=? status)%Z && (status <? 300)%Z) with true
    by (symmetry; apply andb_true_intro; split; [apply Z.leb_le | apply Z.ltb_lt]; lia).
  destruct (read_content body) as [aiReply|e] eqn:Hc.
  - destruct aiReply as [[| | |t| |]|]; try (now destruct (Hn t));
      unfold conclude, report; unfold_monad; simpl; repeat split.
  - apply read_content_throws in Hc. subst e.
    unfold conclude, report. unfold_monad. simpl. repeat split.
Qed.

End Claims.

(** * Further properties of the script *)

Section Extras.
Context `{Num : Number}.

(** X1.  The script calls [axios.post] at most once and never retries:
    not at all without a credential, and otherwise exactly once, with the
    fixed endpoint, the credential as bearer token, the JSON content type,
    the 30 second timeout and a body that names the model, the temperature
    and the prompt of the day as the only message. *)
Theorem X1_one_request (w : World) :
  posts (run w) = if falsy (env_AI_API_KEY w) then [] else [sent_request w].
Proof.
  destruct (falsy (env_AI_API_KEY w)) eqn:Hkey.
  - now rewrite (run_no_key w Hkey).
  - apply (run_report w Hkey).
Qed.

(** X2.  A run never touches a path other than the output file and its
    directory, and the directory entry is either left as it was or, when
    there was none, created as a directory. *)
Theorem X2_other_paths_untouched (w : World) :
  (forall p, p <> filePath w -> p <> dataDir w -> fs (run w) !! p = disk w !! p) /\
  (fs (run w) !! dataDir w = disk w !! dataDir w \/
   (disk w !! dataDir w = None /\ fs (run w) !! dataDir w = Some Dir)).
Proof.
  destruct (falsy (env_AI_API_KEY w)) eqn:Hkey.
  - rewrite (run_no_key w Hkey). simpl. auto.
  - destruct (run_report w Hkey) as (_ & H1 & H2 & _). auto.
Qed.

(** X3.  The API-error line is printed only for an HTTP response outside
    2xx, and the status it shows is the status of that response. *)
Theorem X3_api_line_only_for_http_error (w : World) (status : Z) :
  In (Stderr, [Str ("API请求失败，状态码: " +:+ pretty status)]) (console (run w)) ->
  falsy (env_AI_API_KEY w) = false /\
  exists data,
    transport w (sent_request w) = HttpResponse status data /\
    ~ (200 <= status < 300)%Z.
Proof.
  intros Hin. apply console_inv in Hin.
  destruct Hin as [H|[(_ & H)|(Hkey & H)]].
  - cbn in H. intuition discriminate.
  - cbn in H. intuition discriminate.
  - split; [exact Hkey|].
    destruct H as [H|[(_ & props & _ & H)|[(st & d & Ht & Hn & H)|[(_ & H)|(m & H)]]]];
      try (cbn in H; intuition discriminate).
    cbn in H. destruct H as [H|[H|[H|[H|[]]]]]; try discriminate.
    injection H as H. apply (inj (String.append _)) in H.
    apply (inj pretty) in H. subst st. eauto.
Qed.

(** X4.  The network-error line is printed only when the request was sent
    and no response came back. *)
Theorem X4_network_line_only_without_response (w : World) :
  In network_error (console (run w)) ->
  falsy (env_AI_API_KEY w) = false /\
  transport w (sent_request w) = NoResponse.
Proof.
  intros Hin. apply console_inv in Hin.
  destruct Hin as [H|[(_ & H)|(Hkey & H)]].
  - cbn in H. intuition discriminate.
  - cbn in H. intuition discriminate.
  - split; [exact Hkey|].
    destruct H as [H|[(_ & props & _ & H)|[(st & d & Ht & Hn & H)|[(Ht & H)|(m & H)]]]];
      try (cbn in H; intuition discriminate).
Qed.

(** X5.  The line that announces the saved file is printed only by a run
    that ends with exit status 0 and the complete content in the output
    file. *)
Theorem X5_saved_line_only_on_success (w : World) (path : string) :
  In (Stdout, [Str "✅ 今日养生内容已成功生成并保存至: "; Str path]) (console (run w)) ->
  path = filePath w /\
  exit_status (run w) = 0%Z /\
  exists props,
    Reached w props /\
    fs (run w) !! filePath w = Some (File (content w props)).
Proof.
  intros Hin. apply console_inv in Hin.
  destruct Hin as [H|[(_ & H)|(Hkey & H)]].
  - cbn in H. intuition discriminate.
  - cbn in H. intuition discriminate.
  - destruct H as [H|[(Hx & props & _ & H)|[(st & d & Ht & Hn & H)|[(_ & H)|(m & H)]]]];
      try (cbn in H; intuition discriminate).
    cbn in H. destruct H as [H|[H|[]]]; [|discriminate].
    injection H as <-. split; [reflexivity|].
    unfold exit_status. rewrite Hx. split; [reflexivity|].
    destruct (run_inv w) as [(_ & _ & Hx')|[(props' & _ & _ & _ & Hx' & _)|
                               (props' & HR & _ & _ & [(_ & Hf)|(Hx' & _)])]];
      try congruence.
    eauto.
Qed.


(** X6.  When the matched text is not JSON, the run fails with the syntax
    error of [JSON.parse] in the script-error branch; nothing is written
    and the exit status is 1. *)
Theorem X6_unparsable_match (w : World) (status : Z) (body : json)
    (reply text : string) :
  falsy (env_AI_API_KEY w) = false ->
  transport w (sent_request w) = HttpResponse status body ->
  (200 <= status < 300)%Z ->
  read_content body = Ok (Some (JString reply)) ->
  extract_json reply = Some text ->
  JSON_parse text = None ->
  console (run w) =
    (started w ++ [calling; failed; script_error (MessageOf SyntaxError)])%list /\
  writes (run w) = [] /\
  fs (run w) = disk w /\
  exit_status (run w) = 1%Z.
Proof.
  intros Hkey Ht Hst Hc He Hj.
  rewrite (run_after_post w Hkey), Ht.
  apply status_2xx in Hst. rewrite Hst, Hc.
  unfold bind, lift, call_match. rewrite He.
  unfold call_JSON_parse. rewrite Hj. unfold conclude, report. simpl.
  repeat split.
Qed.

(** X7.  When the data directory cannot be accessed and cannot be created,
    the run fails with the system error in the script-error branch before
    [fs.writeFile] is called; the file system is as it was and the exit
    status is 1. *)
Theorem X7_mkdir_fails (w : World) (props : list (string * json)) :
  Reached w props ->
  access_fails w = true \/ disk w !! dataDir w = None ->
  mkdir_fails w = true ->
  (exists code,
     console (run w) =
       (started w ++ [calling; failed;
                      script_error (MessageOf (SystemError code))])%list) /\
  writes (run w) = [] /\
  fs (run w) = disk w /\
  exit_status (run w) = 1%Z.
Proof.
  intros HR Ha Hm. rewrite (run_after_parse w props HR).
  unfold write_file, fs_access, fs_mkdir, conclude, report. unfold_monad. simpl.
  rewrite Hm.
  destruct (access_fails w); simpl.
  - split; [eexists; reflexivity | repeat split].
  - destruct Ha as [Ha | Ha]; [discriminate|]. rewrite Ha. simpl.
    split; [eexists; reflexivity | repeat split].
Qed.

(** X8.  When [data] exists but is a regular file, the existence check
    passes and no directory is created.  Then the object is printed and
    the write is rejected because a component of the path is not a
    directory, or the object is nested too deep to be printed and the
    write is not called.  Either way the run fails in the script-error
    branch, the file system is as it was and the exit status is 1. *)
Theorem X8_data_is_a_file (w : World) (props : list (string * json))
    (old : string) :
  Reached w props ->
  access_fails w = false ->
  disk w !! dataDir w = Some (File old) ->
  console (run w) =
    (started w ++
     [calling; failed;
      script_error
        (MessageOf (if stack_overflow w (healthData w props) then RangeError
                    else SystemError "ENOTDIR"))])%list /\
  writes (run w) =
    (if stack_overflow w (healthData w props) then []
     else [(filePath w, content w props)]) /\
  fs (run w) = disk w /\
  exit_status (run w) = 1%Z.
Proof.
  intros HR Ha Hd. rewrite (run_after_parse w props HR).
  unfold write_file, fs_access, fs_mkdir, fs_writeFile, call_JSON_stringify_2.
  unfold conclude, report. unfold_monad. simpl. rewrite Ha, Hd. simpl.
  destruct (stack_overflow w (healthData w props)); simpl; [repeat split|].
  rewrite dirname_filePath. simpl. rewrite Hd. simpl.
  repeat split.
Qed.

(** X9.  With the credential, a reply that parses to an object that can
    be printed, a directory that is there or can be created and a write
    that completes, the run ends with exit status 0: the data directory
    has been created when it was missing and is untouched otherwise, the
    output file holds the serialised object, the console shows the two
    start lines, the call line and the two success lines, and there has
    been one request and one write. *)
Theorem X9_success (w : World) (props : list (string * json)) :
  Reached w props ->
  stack_overflow w (healthData w props) = false ->
  mkdir_fails w = false ->
  write_fault w = WriteCompletes ->
  disk w !! dataDir w = Some Dir \/ disk w !! dataDir w = None ->
  disk w !! filePath w <> Some Dir ->
  exit_status (run w) = 0%Z /\
  fs (run w) =
    <[filePath w := File (content w props)]>
      (match disk w !! dataDir w with
       | None => <[dataDir w := Dir]> (disk w)
       | Some _ => disk w
       end) /\
  console (run w) = (started w ++ calling :: saved w props)%list /\
  posts (run w) = [sent_request w] /\
  writes (run w) = [(filePath w, content w props)].
Proof.
  intros HR Ho Hm Hw Hd Hf.
  rewrite (run_success_state w props HR Ho Hm Hw Hd Hf).
  unfold exit_status. cbn [fs console posts writes exit_code].
  repeat split.
Qed.

(** X10.  Whenever the pattern matches, the match is the text from the
    first opening brace of the reply to its last closing brace: what comes
    before has no opening brace, what comes after has no closing brace,
    and the matched text starts and ends with a brace. *)
Theorem X10_match_shape (reply text : string) :
  extract_json reply = Some text ->
  exists pre mid post,
    reply = pre +:+ text +:+ post /\
    text = String "{" (mid +:+ String "}" EmptyString) /\
    contains "{" pre = false /\
    contains "}" post = false.
Proof.
  unfold extract_json, Regex.exec.
  destruct (Regex.exec_from Regex.braces 0 reply) as [[j m]|] eqn:He;
    [|discriminate].
  intros [= <-]. apply RegexMore.exec_from_shape in He.
  destruct He as (pre & mid & post & -> & Hpre & Hpost & -> & _).
  exists pre, mid, post. repeat split; auto.
  now rewrite append_cons, append_assoc, append_cons, append_nil.
Qed.

(** X11.  Matching is idempotent: the pattern matches the whole of a text
    it has matched. *)
Theorem X11_match_idempotent (reply text : string) :
  extract_json reply = Some text -> extract_json text = Some text.
Proof.
  unfold extract_json at 1. unfold Regex.exec.
  destruct (Regex.exec_from Regex.braces 0 reply) as [[j m]|] eqn:He;
    [|discriminate].
  intros [= <-]. apply RegexMore.exec_from_shape in He.
  destruct He as (pre & mid & post & _ & _ & _ & -> & _).
  pose proof (RegexFacts.exec_first_to_last EmptyString mid EmptyString
                eq_refl eq_refl) as H.
  rewrite append_nil in H. unfold extract_json. now rewrite H.
Qed.

(** X12.  Whatever the reply, a matched text that parses parses to an
    object, never to an array or a primitive, so that the assignment of
    line 81 always sets the [date] property of an object. *)
Theorem X12_parsed_value_is_object (reply text : string) (v x : json) :
  extract_json reply = Some text ->
  JSON_parse text = Some v ->
  exists props,
    v = JObject props /\
    Set_ v "date" x = Ok (JObject (obj_set "date" x props)).
Proof.
  intros He Hv. destruct (extract_json_brace _ _ He) as [r ->].
  destruct (JSON_parse_object _ _ Hv) as [props ->]. eauto.
Qed.

(** X13.  For a clock from 1970 on, the date string of line 15 is the
    date as many days after 1 January 1970 as the zone Asia/Shanghai has
    seen begin, counted in the Gregorian calendar and printed as year,
    month and day, each a plain number without padding, joined by
    hyphens.  From the end of the summer time of 1991 on the zone is
    eight hours ahead of UTC. *)
Theorem X13_date_fields (w : World) :
  (0 <= clock w)%Z ->
  dateStr w = render_date (nth_date (Z.to_nat (local_day (clock w)))) /\
  ((684867600000 <= clock w)%Z ->
   local_day (clock w) = ((clock w + 28800000) / 86400000)%Z).
Proof.
  intros Hc. split.
  - rewrite <- (shanghai_date_nth _ Hc). apply dateStr_render.
  - intros Hnow. unfold local_day. now rewrite shanghai_offset_now.
Qed.

(** X14.  Setting the date does not reorder the object: when the reply has
    a [date] member it keeps its place among the keys, and otherwise the
    date becomes the last key. *)
Theorem X14_date_keeps_key_order (w : World) (props : list (string * json)) :
  keys (obj_set "date" (JString (dateStr w)) props)
  = if obj_has "date" props then keys props else (keys props ++ ["date"])%list.
Proof.
  unfold obj_set. destruct (obj_has "date" props).
  - apply keys_replace.
  - set (a := array_index "date"). vm_compute in a. subst a.
    cbv beta iota. now rewrite keys_app.
Qed.

(** X15.  A run reports a failure on the error stream and nothing else:
    the exit status is 1 exactly when the failure line has been printed,
    and a run that ends with status 0 has printed nothing on the error
    stream. *)
Theorem X15_stderr_iff_failure (w : World) :
  (exit_status (run w) = 1%Z <-> In failed (console (run w))) /\
  (exit_status (run w) = 0%Z <->
   forall line, In line (console (run w)) -> line.1 = Stdout).
Proof.
  assert (Hcases :
    (exit_status (run w) = 1%Z /\ In failed (console (run w))) \/
    (exit_status (run w) = 0%Z /\
     forall line, In line (console (run w)) -> line.1 = Stdout)).
  { destruct (falsy (env_AI_API_KEY w)) eqn:Hkey.
    - rewrite (run_no_key w Hkey). left. split; [reflexivity|].
      cbn [console]. rewrite in_app_iff. right. now left.
    - destruct (run_report w Hkey) as (_ & _ & _ & tail & Hc & Hend).
      rewrite Hc. unfold exit_status.
      destruct Hend as [(Hx & props & HR & ->)|[(Hx & st & d & Ht & Hn & ->)|
                        [(Hx & Ht & ->)|(Hx & _ & m & ->)]]]; rewrite Hx.
      + right. split; [reflexivity|]. intros line.
        rewrite in_app_iff. cbn. intuition (subst; reflexivity).
      + left. split; [reflexivity|]. rewrite in_app_iff. cbn. auto.
      + left. split; [reflexivity|]. rewrite in_app_iff. cbn. auto.
      + left. split; [reflexivity|]. rewrite in_app_iff. cbn. auto. }
  assert (Hfailed : failed.1 = Stderr) by reflexivity.
  destruct Hcases as [[Hx Hin]|[Hx Hall]]; rewrite Hx.
  - split; [tauto|]. split; [discriminate|].
    intros Hall. specialize (Hall _ Hin). congruence.
  - split; [|tauto]. split; [discriminate|].
    intros Hin. specialize (Hall _ Hin). congruence.
Qed.

(** X16.  A closing brace anywhere after a complete object breaks the
    run's parse: the pattern then matches more than the object, up to the
    last closing brace of the reply, and [JSON.parse] rejects the match. *)
Theorem X16_brace_after_object (pre obj post : string)
    (props : list (string * json)) :
  is_object_text obj props ->
  contains "{" pre = false ->
  contains "}" post = true ->
  exists extra,
    extra <> EmptyString /\
    extract_json (pre +:+ obj +:+ post) = Some (obj +:+ extra) /\
    JSON_parse (obj +:+ extra) = None.
Proof.
  intros [[r ->] Hp] Hpre Hpost.
  destruct (contains_split_last _ _ Hpost) as (a & b & -> & Hb).
  exists (a +:+ "}"). split; [now destruct a|]. split.
  - unfold extract_json.
    replace (pre +:+ String "{" r +:+ a +:+ String "}" b)
      with (pre +:+ String "{" ((r +:+ a) +:+ String "}" b))
      by now rewrite append_cons, append_assoc.
    rewrite (RegexFacts.exec_first_to_last pre (r +:+ a) b Hpre Hb).
    cbn [option_map snd]. now rewrite append_cons, append_assoc.
  - unfold JSON_parse.
    apply (proj1 (parse_append _ (a +:+ "}"))) in Hp;
      [|right; right; discriminate].
    rewrite append_nil in Hp.
    rewrite (parse_value_any_fuel _ _ _ _ Hp).
    pose proof (skip_ws_nonempty a "}" EmptyString eq_refl) as Hne.
    now destruct (skip_ws (a +:+ "}")).
Qed.

(** X17.  [JSON.parse] reads back what [JSON.stringify] prints, with the
    two-space indentation of line 94 and without indentation, for every
    printable value. *)
Theorem X17_stringify_then_parse (v : json) :
  printable v ->
  JSON_parse (JSON_stringify_2 v) = Some v /\
  JSON_parse (JSON_stringify v) = Some v.
Proof.
  intros Hp. unfold JSON_parse, JSON_stringify_2, JSON_stringify. split.
  - destruct (printable_reads_back "  " eq_refl v Hp EmptyString eq_refl)
      as [fuel H].
    now rewrite (parse_value_any_fuel _ _ _ _ H).
  - destruct (printable_reads_back EmptyString eq_refl v Hp EmptyString eq_refl)
      as [fuel H].
    now rewrite (parse_value_any_fuel _ _ _ _ H).
Qed.

(** X18.  The output file of a successful run is a JSON text of the object
    the run built: when the reply's object is printable, parsing the file
    gives that object with the date of the day, and the other members as
    the reply had them. *)
Theorem X18_output_reads_back (w : World) (props : list (string * json)) :
  Reached w props ->
  printable (JObject props) ->
  exit_status (run w) = 0%Z ->
  exists data,
    fs (run w) !! filePath w = Some (File data) /\
    JSON_parse data = Some (healthData w props) /\
    obj_get "date" (obj_set "date" (JString (dateStr w)) props)
    = Some (JString (dateStr w)) /\
    forall k, k <> "date" ->
      obj_get k (obj_set "date" (JString (dateStr w)) props) = obj_get k props.
Proof.
  intros HR Hp Hx. exists (content w props).
  split; [|split; [|split]].
  - unfold exit_status in Hx.
    destruct (run_inv w) as [(_ & _ & Hx')|[(props' & _ & _ & _ & Hx' & _)|
                               (props' & HR' & _ & _ & Hc)]].
    { rewrite Hx' in Hx. discriminate. }
    { rewrite Hx' in Hx. discriminate. }
    rewrite (Reached_unique w props props' HR HR').
    destruct Hc as [(_ & Hf)|(Hx' & _)]; [exact Hf|].
    rewrite Hx' in Hx. discriminate.
  - unfold content, JSON_parse, JSON_stringify_2, healthData.
    assert (Hh : printable (JObject (obj_set "date" (JString (dateStr w)) props))).
    { apply printable_set; [reflexivity | reflexivity | | exact Hp].
      apply dateStr_no_surrogate. }
    destruct (printable_reads_back "  " eq_refl _ Hh EmptyString eq_refl)
      as [fuel H].
    now rewrite (parse_value_any_fuel _ _ _ _ H).
  - apply obj_get_set_eq.
  - intros k Hk. now apply obj_get_set_ne.
Qed.

(** X19.  When the request cannot be set up, so that the error carries
    neither a response nor a request, the run takes the last branch of the
    [catch] block: it prints the message of the error as a script error,
    writes nothing and exits with status 1. *)
Theorem X19_setup_failure (w : World) :
  falsy (env_AI_API_KEY w) = false ->
  transport w (sent_request w) = SetupFailure ->
  console (run w) =
    (started w ++ [calling; failed;
                   script_error (MessageOf (AxiosError None false))])%list /\
  writes (run w) = [] /\
  fs (run w) = disk w /\
  exit_status (run w) = 1%Z.
Proof.
  intros Hkey Ht. rewrite (run_after_post w Hkey), Ht.
  unfold conclude, report. unfold_monad. simpl. repeat split.
Qed.

(** X20.  Whatever happens next, a run first prints the start line and the
    date of the day, and it prints at least one more line. *)
Theorem X20_date_always_printed (w : World) :
  exists tail, console (run w) = (started w ++ tail)%list /\ tail <> [].
Proof.
  destruct (falsy (env_AI_API_KEY w)) eqn:Hkey.
  - rewrite (run_no_key w Hkey). eexists. split; [reflexivity|discriminate].
  - destruct (run_report w Hkey) as (_ & _ & _ & tail & -> & _).
    eexists. split; [reflexivity|discriminate].
Qed.

(** X21.  A successful run is idempotent: run again on the file system it
    has left, with the same clock and the same reply, the script succeeds
    again and leaves the file system as it found it. *)
Theorem X21_second_run (w : World) (props : list (string * json)) :
  Reached w props ->
  stack_overflow w (healthData w props) = false ->
  mkdir_fails w = false ->
  write_fault w = WriteCompletes ->
  disk w !! dataDir w = Some Dir \/ disk w !! dataDir w = None ->
  disk w !! filePath w <> Some Dir ->
  exit_status (run w) = 0%Z /\
  exit_status (run (on_disk w (fs (run w)))) = 0%Z /\
  fs (run (on_disk w (fs (run w)))) = fs (run w) /\
  writes (run (on_disk w (fs (run w)))) = writes (run w).
Proof.
  intros HR Ho Hm Hw Hd Hf.
  pose proof (filePath_neq_dataDir w) as Hne.
  rewrite (run_success_state w props HR Ho Hm Hw Hd Hf).
  cbn [fs writes exit_code].
  set (files := <[filePath w := File (content w props)]> _).
  assert (Hd2 : files !! dataDir w = Some Dir).
  { subst files. rewrite lookup_insert_ne by exact Hne.
    destruct Hd as [Hd|Hd]; rewrite Hd; [exact Hd|apply lookup_insert_eq]. }
  assert (Hf2 : files !! filePath w = Some (File (content w props)))
    by apply lookup_insert_eq.
  clearbody files.
  assert (Ho2 : stack_overflow (on_disk w files) (healthData (on_disk w files) props)
                = false) by (rewrite healthData_on_disk; exact Ho).
  pose proof (run_success_state (on_disk w files) props
                (Reached_on_disk w files props HR) Ho2 Hm Hw) as H2.
  rewrite filePath_on_disk, dataDir_on_disk, content_on_disk in H2.
  cbn [disk on_disk] in H2. rewrite Hd2, Hf2 in H2.
  rewrite (H2 (or_introl eq_refl)) by discriminate.
  unfold exit_status. cbn [fs writes exit_code].
  rewrite (insert_id _ _ _ Hf2). repeat split.
Qed.

End Extras.

(** * The claims on the example runs *)

Section Witnesses.
Import Example.

Lemma first_object_text :
  is_object_text first_object [("answer", JString "yes")].
Proof. split; [eexists; reflexivity | vm_compute; reflexivity]. Qed.

(** The reply with two objects refutes C1 as stated: its first object is
    well formed, and the extraction returns more than that object. *)
Lemma C1_counterexample :
  is_object_text first_object [("answer", JString "yes")] /\
  extract_json two_objects
  = Some (first_object +:+ " (an empty one would be {}") /\
  extract_json two_objects <> Some first_object.
Proof.
  split; [exact first_object_text|].
  split; [vm_compute; reflexivity|].
  intros H. apply (f_equal (option_map String.length)) in H.
  vm_compute in H. discriminate H.
Qed.

Lemma C1_witness :
  is_object_text first_object [("answer", JString "yes")] /\
  contains "{" "Sure! " = false /\
  contains "}" " Enjoy." = false /\
  extract_json ("Sure! " +:+ first_object +:+ " Enjoy.") = Some first_object /\
  JSON_parse first_object = Some (JObject [("answer", JString "yes")]).
Proof.
  split; [exact first_object_text|].
  split; [reflexivity|]. split; [reflexivity|].
  destruct (C1_extract_exact "Sure! " first_object " Enjoy."
              [("answer", JString "yes")] first_object_text eq_refl eq_refl)
    as (He & Hp & _).
  split; [exact He | exact Hp].
Defined.


(** The reply with an empty object refutes C3 as stated: the file is
    written, and the written object has a date and nothing else. *)
Lemma C3_counterexample :
  writes (run empty_world)
  = [(filePath empty_world,
      JSON_stringify_2 (JObject [("date", JString "2024-2-2")]))] /\
  fs (run empty_world) !! filePath empty_world
  = Some (File (JSON_stringify_2 (JObject [("date", JString "2024-2-2")]))) /\
  conforms (JObject [("date", JString "2024-2-2")]) = false.
Proof. repeat split; vm_compute; reflexivity. Qed.

Lemma C3_witness :
  In (filePath empty_world, content empty_world []) (writes (run empty_world)) /\
  exists props,
    Reached empty_world props /\
    content empty_world [] = JSON_stringify_2 (healthData empty_world props) /\
    member "date" (Some (healthData empty_world props))
    = Some (JString (dateStr empty_world)) /\
    (forall k, k <> "date" ->
       member k (Some (healthData empty_world props)) = obj_get k props) /\
    conforms (healthData empty_world props) = reply_conforms props.
Proof.
  split; [vm_compute; left; reflexivity|].
  apply (C3_written_object empty_world (filePath empty_world)).
  vm_compute. left. reflexivity.
Defined.

Lemma C4_witness :
  (env_AI_API_KEY no_key_world = None \/
   env_AI_API_KEY no_key_world = Some EmptyString) /\
  posts (run no_key_world) = [] /\
  writes (run no_key_world) = [] /\
  fs (run no_key_world) = disk no_key_world /\
  exit_status (run no_key_world) = 1%Z /\
  console (run no_key_world)
  = (started no_key_world ++ [failed; script_error (Str missing_key)])%list.
Proof.
  split; [left; reflexivity|].
  apply (C4_missing_credential no_key_world). left. reflexivity.
Defined.

(** C5: the end-to-end scenario.  Under a clock of 2 February 2024 the
    reply that carries the date 2024-01-01 is written with the date
    2024-2-2, the month and the day without a leading zero, and with its
    health tips unchanged. *)
Theorem C5_date_not_padded :
  JSON_parse mock_object
  = Some (JObject [("date", JString "2024-01-01"); ("healthTips", tips_value)]) /\
  JsDate.shanghai_date (clock mock_world) = (2024, 2, 2)%Z /\
  exit_status (run mock_world) = 0%Z /\
  fs (run mock_world) !! filePath mock_world
  = Some (File (JSON_stringify_2
                  (JObject [("date", JString "2024-2-2");
                            ("healthTips", tips_value)]))) /\
  JString "2024-2-2" <> JString "2024-02-02".
Proof.
  split; [vm_compute; reflexivity|].
  split; [vm_compute; reflexivity|].
  split; [vm_compute; reflexivity|].
  split; [vm_compute; reflexivity|].
  discriminate.
Qed.

(** The full disk refutes C6 as stated: the run fails, and the output
    file of the earlier run is not left as it was. *)
Lemma C6_counterexample :
  exit_status (run full_disk_world) = 1%Z /\
  disk full_disk_world !! filePath full_disk_world = Some (File "old") /\
  fs (run full_disk_world) !! filePath full_disk_world
  = Some (File EmptyString).
Proof. repeat split; vm_compute; reflexivity. Qed.

(** An object nested too deep for the stack: the run fails before the
    write, with the data directory created. *)
Lemma deep_reply_run :
  stack_overflow small_stack_world
    (healthData small_stack_world
       [("date", JString "2024-01-01"); ("healthTips", tips_value)]) = true /\
  console (run small_stack_world)
  = (started small_stack_world
       ++ [calling; failed; script_error (MessageOf RangeError)])%list /\
  writes (run small_stack_world) = [] /\
  fs (run small_stack_world)
  = <[dataDir small_stack_world := Dir]> (disk small_stack_world) /\
  exit_status (run small_stack_world) = 1%Z.
Proof. repeat split; vm_compute; reflexivity. Qed.

Lemma C6_witness :
  (forall props, ~ Reached no_key_world props) /\
  exit_status (run no_key_world) = 1%Z /\
  writes (run no_key_world) = [] /\
  fs (run no_key_world) = disk no_key_world.
Proof.
  assert (Hn : forall props, ~ Reached no_key_world props)
    by (intros props [Hkey _]; discriminate Hkey).
  split; [exact Hn|].
  apply (proj2 (C6_failures no_key_world)). exact Hn.
Defined.

Lemma C7_witness :
  falsy (env_AI_API_KEY prose_world) = false /\
  transport prose_world (sent_request prose_world)
  = HttpResponse 200 (response "Sorry, no data } today {") /\
  (200 <= 200 < 300)%Z /\
  read_content (response "Sorry, no data } today {")
  = Ok (Some (JString "Sorry, no data } today {")) /\
  ~ brace_pair "Sorry, no data } today {" /\
  console (run prose_world)
  = (started prose_world ++ [calling; failed; script_error (Str no_json)])%list /\
  writes (run prose_world) = [] /\
  fs (run prose_world) = disk prose_world /\
  exit_status (run prose_world) = 1%Z.
Proof.
  assert (Hn : ~ brace_pair "Sorry, no data } today {")
    by (apply extract_json_none_iff; reflexivity).
  split; [reflexivity|]. split; [reflexivity|]. split; [lia|].
  split; [reflexivity|]. split; [exact Hn|].
  apply (C7_no_braces prose_world 200
           (response "Sorry, no data } today {") "Sorry, no data } today {");
    [reflexivity | reflexivity | lia | reflexivity | exact Hn].
Defined.

(** The request that cannot be set up refutes C8 as stated: no response
    is received, and the run is reported as a script error, not as a
    network error. *)
Lemma C8_counterexample :
  transport setup_world (sent_request setup_world) = SetupFailure /\
  console (run setup_world)
  = (started setup_world
       ++ [calling; failed;
           script_error (MessageOf (AxiosError None false))])%list /\
  ~ In network_error (console (run setup_world)) /\
  exit_status (run setup_world) = 1%Z.
Proof.
  split; [reflexivity|]. split; [vm_compute; reflexivity|].
  split; [|vm_compute; reflexivity].
  vm_compute. intuition discriminate.
Qed.

(** An error body nested too deep for the stack: the [catch] block
    throws after the status line, and the engine ends the process. *)
Lemma deep_error_run :
  console (run small_stack_rejected_world)
  = (started small_stack_rejected_world
       ++ [calling; failed; api_status 429; uncaught RangeError])%list /\
  writes (run small_stack_rejected_world) = [] /\
  fs (run small_stack_rejected_world) = disk small_stack_rejected_world /\
  exit_status (run small_stack_rejected_world) = 1%Z.
Proof. repeat split; vm_compute; reflexivity. Qed.

Lemma C8_witness :
  falsy (env_AI_API_KEY timeout_world) = false /\
  transport timeout_world (sent_request timeout_world) = NoResponse /\
  console (run timeout_world)
  = (started timeout_world ++ [calling; failed; network_error])%list /\
  writes (run timeout_world) = [] /\
  fs (run timeout_world) = disk timeout_world /\
  exit_status (run timeout_world) = 1%Z.
Proof.
  split; [reflexivity|]. split; [reflexivity|].
  apply (proj1 (C8_network_error timeout_world eq_refl)). reflexivity.
Defined.

Lemma C9_witness :
  clock mock_world = clock second_world /\
  reply_text mock_world = Some mock_reply /\
  reply_text second_world = Some mock_reply /\
  In (filePath mock_world,
      content mock_world
        [("date", JString "2024-01-01"); ("healthTips", tips_value)])
     (writes (run mock_world)) /\
  In (filePath second_world,
      content second_world
        [("date", JString "2024-01-01"); ("healthTips", tips_value)])
     (writes (run second_world)) /\
  content mock_world
    [("date", JString "2024-01-01"); ("healthTips", tips_value)]
  = content second_world
      [("date", JString "2024-01-01"); ("healthTips", tips_value)] /\
  (exit_status (run mock_world) = 0%Z ->
   exit_status (run second_world) = 0%Z ->
   fs (run mock_world) !! filePath mock_world
   = Some (File (content mock_world
                   [("date", JString "2024-01-01"); ("healthTips", tips_value)])) /\
   fs (run second_world) !! filePath second_world
   = Some (File (content mock_world
                   [("date", JString "2024-01-01"); ("healthTips", tips_value)]))).
Proof.
  split; [reflexivity|].
  split; [vm_compute; reflexivity|].
  split; [vm_compute; reflexivity|].
  split; [vm_compute; left; reflexivity|].
  split; [vm_compute; left; reflexivity|].
  apply (C9_deterministic mock_world second_world mock_reply
           (filePath mock_world) _ (filePath second_world) _).
  - reflexivity.
  - vm_compute; reflexivity.
  - vm_compute; reflexivity.
  - vm_compute; left; reflexivity.
  - vm_compute; left; reflexivity.
Defined.

(** Two of the bodies C10 is about: no choice, and a choice without a
    message. *)
Lemma no_choice_throws : read_content no_choice = Throw TypeError.
Proof. reflexivity. Qed.

Lemma no_message_throws :
  read_content (JObject [("choices", JArray [JObject []])]) = Throw TypeError.
Proof. reflexivity. Qed.

Lemma C10_witness :
  falsy (env_AI_API_KEY no_choice_world) = false /\
  transport no_choice_world (sent_request no_choice_world)
  = HttpResponse 200 no_choice /\
  (200 <= 200 < 300)%Z /\
  (forall t, read_content no_choice <> Ok (Some (JString t))) /\
  console (run no_choice_world)
  = (started no_choice_world
       ++ [calling; failed; script_error (MessageOf TypeError)])%list /\
  writes (run no_choice_world) = [] /\
  fs (run no_choice_world) = disk no_choice_world /\
  exit_status (run no_choice_world) = 1%Z.
Proof.
  assert (Hn : forall t, read_content no_choice <> Ok (Some (JString t)))
    by (intros t; discriminate).
  split; [reflexivity|]. split; [reflexivity|]. split; [lia|].
  split; [exact Hn|].
  apply (C10_content_not_string no_choice_world 200 no_choice);
    [reflexivity | reflexivity | lia | exact Hn].
Defined.

End Witnesses.

(** * The further properties on the example runs *)

Section ExtraWitnesses.
Import Example.

Lemma mock_reached : Reached mock_world mock_props.
Proof.
  split; [reflexivity|].
  exists 200%Z, (response mock_reply), mock_reply, mock_object.
  split; [reflexivity|]. split; [lia|]. split; [reflexivity|].
  split; vm_compute; reflexivity.
Qed.

Lemma readonly_reached : Reached readonly_world mock_props.
Proof.
  split; [reflexivity|].
  exists 200%Z, (response mock_reply), mock_reply, mock_object.
  split; [reflexivity|]. split; [lia|]. split; [reflexivity|].
  split; vm_compute; reflexivity.
Qed.

Lemma data_file_reached : Reached data_file_world mock_props.
Proof.
  split; [reflexivity|].
  exists 200%Z, (response mock_reply), mock_reply, mock_object.
  split; [reflexivity|]. split; [lia|]. split; [reflexivity|].
  split; vm_compute; reflexivity.
Qed.

Lemma mock_printable : printable (JObject mock_props).
Proof. cbn. repeat split. Qed.

Lemma X3_witness :
  In (Stderr, [Str ("API请求失败，状态码: " +:+ pretty 401%Z)])
     (console (run rejected_world)) /\
  falsy (env_AI_API_KEY rejected_world) = false /\
  exists data,
    transport rejected_world (sent_request rejected_world)
    = HttpResponse 401 data /\
    ~ (200 <= 401 < 300)%Z.
Proof.
  assert (Hin : In (Stderr, [Str ("API请求失败，状态码: " +:+ pretty 401%Z)])
                   (console (run rejected_world)))
    by (vm_compute; auto 10).
  split; [exact Hin|].
  exact (X3_api_line_only_for_http_error rejected_world 401 Hin).
Defined.

Lemma X4_witness :
  In network_error (console (run timeout_world)) /\
  falsy (env_AI_API_KEY timeout_world) = false /\
  transport timeout_world (sent_request timeout_world) = NoResponse.
Proof.
  assert (Hin : In network_error (console (run timeout_world)))
    by (vm_compute; auto 10).
  split; [exact Hin|].
  exact (X4_network_line_only_without_response timeout_world Hin).
Defined.

Lemma X5_witness :
  In (Stdout, [Str "✅ 今日养生内容已成功生成并保存至: ";
               Str "/home/runner/work/health/data/today.json"])
     (console (run mock_world)) /\
  "/home/runner/work/health/data/today.json" = filePath mock_world /\
  exit_status (run mock_world) = 0%Z /\
  exists props,
    Reached mock_world props /\
    fs (run mock_world) !! filePath mock_world
    = Some (File (content mock_world props)).
Proof.
  assert (Hin : In (Stdout, [Str "✅ 今日养生内容已成功生成并保存至: ";
                             Str "/home/runner/work/health/data/today.json"])
                   (console (run mock_world)))
    by (vm_compute; auto 10).
  split; [exact Hin|].
  exact (X5_saved_line_only_on_success mock_world _ Hin).
Defined.

Lemma X6_witness :
  falsy (env_AI_API_KEY two_objects_world) = false /\
  transport two_objects_world (sent_request two_objects_world)
  = HttpResponse 200 (response two_objects) /\
  (200 <= 200 < 300)%Z /\
  read_content (response two_objects) = Ok (Some (JString two_objects)) /\
  extract_json two_objects
  = Some (first_object +:+ " (an empty one would be {}") /\
  JSON_parse (first_object +:+ " (an empty one would be {}") = None /\
  console (run two_objects_world)
  = (started two_objects_world
       ++ [calling; failed; script_error (MessageOf SyntaxError)])%list /\
  writes (run two_objects_world) = [] /\
  fs (run two_objects_world) = disk two_objects_world /\
  exit_status (run two_objects_world) = 1%Z.
Proof.
  split; [reflexivity|]. split; [reflexivity|]. split; [lia|].
  split; [reflexivity|]. split; [vm_compute; reflexivity|].
  split; [vm_compute; reflexivity|].
  apply (X6_unparsable_match two_objects_world 200 (response two_objects)
           two_objects (first_object +:+ " (an empty one would be {}"));
    [reflexivity | reflexivity | lia | reflexivity
    | vm_compute; reflexivity | vm_compute; reflexivity].
Defined.

Lemma X7_witness :
  Reached readonly_world mock_props /\
  (access_fails readonly_world = true \/
   disk readonly_world !! dataDir readonly_world = None) /\
  mkdir_fails readonly_world = true /\
  (exists code,
     console (run readonly_world) =
       (started readonly_world
          ++ [calling; failed;
              script_error (MessageOf (SystemError code))])%list) /\
  writes (run readonly_world) = [] /\
  fs (run readonly_world) = disk readonly_world /\
  exit_status (run readonly_world) = 1%Z.
Proof.
  split; [exact readonly_reached|].
  split; [right; vm_compute; reflexivity|]. split; [reflexivity|].
  apply (X7_mkdir_fails readonly_world mock_props);
    [exact readonly_reached | right; vm_compute; reflexivity | reflexivity].
Defined.

Lemma X8_witness :
  Reached data_file_world mock_props /\
  access_fails data_file_world = false /\
  disk data_file_world !! dataDir data_file_world
  = Some (File "not a directory") /\
  console (run data_file_world) =
    (started data_file_world ++
     [calling; failed;
      script_error
        (MessageOf
           (if stack_overflow data_file_world
                 (healthData data_file_world mock_props)
            then RangeError else SystemError "ENOTDIR"))])%list /\
  writes (run data_file_world) =
    (if stack_overflow data_file_world (healthData data_file_world mock_props)
     then [] else [(filePath data_file_world,
                    content data_file_world mock_props)]) /\
  fs (run data_file_world) = disk data_file_world /\
  exit_status (run data_file_world) = 1%Z.
Proof.
  split; [exact data_file_reached|]. split; [reflexivity|].
  split; [vm_compute; reflexivity|].
  apply (X8_data_is_a_file data_file_world mock_props "not a directory");
    [exact data_file_reached | reflexivity | vm_compute; reflexivity].
Defined.

Lemma X9_witness :
  Reached mock_world mock_props /\
  stack_overflow mock_world (healthData mock_world mock_props) = false /\
  mkdir_fails mock_world = false /\
  write_fault mock_world = WriteCompletes /\
  (disk mock_world !! dataDir mock_world = Some Dir \/
   disk mock_world !! dataDir mock_world = None) /\
  disk mock_world !! filePath mock_world <> Some Dir /\
  exit_status (run mock_world) = 0%Z /\
  fs (run mock_world) =
    <[filePath mock_world := File (content mock_world mock_props)]>
      (match disk mock_world !! dataDir mock_world with
       | None => <[dataDir mock_world := Dir]> (disk mock_world)
       | Some _ => disk mock_world
       end) /\
  console (run mock_world)
  = (started mock_world ++ calling :: saved mock_world mock_props)%list /\
  posts (run mock_world) = [sent_request mock_world] /\
  writes (run mock_world)
  = [(filePath mock_world, content mock_world mock_props)].
Proof.
  assert (Hd : disk mock_world !! dataDir mock_world = None)
    by (vm_compute; reflexivity).
  assert (Hf : disk mock_world !! filePath mock_world <> Some Dir)
    by (vm_compute; discriminate).
  split; [exact mock_reached|]. split; [reflexivity|].
  split; [reflexivity|]. split; [reflexivity|].
  split; [right; exact Hd|]. split; [exact Hf|].
  apply (X9_success mock_world mock_props);
    [exact mock_reached | reflexivity | reflexivity | reflexivity
    | right; exact Hd | exact Hf].
Defined.

Lemma X10_witness :
  extract_json two_objects
  = Some (first_object +:+ " (an empty one would be {}") /\
  exists pre mid post,
    two_objects = pre +:+ (first_object +:+ " (an empty one would be {}") +:+ post /\
    first_object +:+ " (an empty one would be {}"
    = String "{" (mid +:+ String "}" EmptyString) /\
    contains "{" pre = false /\
    contains "}" post = false.
Proof.
  assert (He : extract_json two_objects
               = Some (first_object +:+ " (an empty one would be {}"))
    by (vm_compute; reflexivity).
  split; [exact He|].
  exact (X10_match_shape two_objects _ He).
Defined.

Lemma X11_witness :
  extract_json two_objects
  = Some (first_object +:+ " (an empty one would be {}") /\
  extract_json (first_object +:+ " (an empty one would be {}")
  = Some (first_object +:+ " (an empty one would be {}").
Proof.
  assert (He : extract_json two_objects
               = Some (first_object +:+ " (an empty one would be {}"))
    by (vm_compute; reflexivity).
  split; [exact He|].
  exact (X11_match_idempotent two_objects _ He).
Defined.

Lemma X12_witness :
  extract_json mock_reply = Some mock_object /\
  JSON_parse mock_object = Some (JObject mock_props) /\
  exists props,
    JObject mock_props = JObject props /\
    Set_ (JObject mock_props) "date" (JString "2024-2-2")
    = Ok (JObject (obj_set "date" (JString "2024-2-2") props)).
Proof.
  assert (He : extract_json mock_reply = Some mock_object)
    by (vm_compute; reflexivity).
  assert (Hj : JSON_parse mock_object = Some (JObject mock_props))
    by (vm_compute; reflexivity).
  split; [exact He|]. split; [exact Hj|].
  exact (X12_parsed_value_is_object mock_reply mock_object _
           (JString "2024-2-2") He Hj).
Defined.

Lemma X16_witness :
  is_object_text first_object [("answer", JString "yes")] /\
  contains "{" "Here it is: " = false /\
  contains "}" " (an empty one would be {})" = true /\
  exists extra,
    extra <> EmptyString /\
    extract_json ("Here it is: " +:+ first_object +:+ " (an empty one would be {})")
    = Some (first_object +:+ extra) /\
    JSON_parse (first_object +:+ extra) = None.
Proof.
  split; [exact first_object_text|]. split; [reflexivity|].
  split; [reflexivity|].
  exact (X16_brace_after_object "Here it is: " first_object
           " (an empty one would be {})" [("answer", JString "yes")]
           first_object_text eq_refl eq_refl).
Defined.

Lemma X17_witness :
  printable (JObject mock_props) /\
  JSON_parse (JSON_stringify_2 (JObject mock_props)) = Some (JObject mock_props) /\
  JSON_parse (JSON_stringify (JObject mock_props)) = Some (JObject mock_props).
Proof.
  split; [exact mock_printable|].
  exact (X17_stringify_then_parse (JObject mock_props) mock_printable).
Defined.

Lemma X18_witness :
  Reached mock_world mock_props /\
  printable (JObject mock_props) /\
  exit_status (run mock_world) = 0%Z /\
  exists data,
    fs (run mock_world) !! filePath mock_world = Some (File data) /\
    JSON_parse data = Some (healthData mock_world mock_props) /\
    obj_get "date" (obj_set "date" (JString (dateStr mock_world)) mock_props)
    = Some (JString (dateStr mock_world)) /\
    forall k, k <> "date" ->
      obj_get k (obj_set "date" (JString (dateStr mock_world)) mock_props)
      = obj_get k mock_props.
Proof.
  assert (Hx : exit_status (run mock_world) = 0%Z) by (vm_compute; reflexivity).
  split; [exact mock_reached|]. split; [exact mock_printable|].
  split; [exact Hx|].
  exact (X18_output_reads_back mock_world mock_props mock_reached
           mock_printable Hx).
Defined.

Lemma X19_witness :
  falsy (env_AI_API_KEY setup_world) = false /\
  transport setup_world (sent_request setup_world) = SetupFailure /\
  console (run setup_world) =
    (started setup_world
       ++ [calling; failed;
           script_error (MessageOf (AxiosError None false))])%list /\
  writes (run setup_world) = [] /\
  fs (run setup_world) = disk setup_world /\
  exit_status (run setup_world) = 1%Z.
Proof.
  split; [reflexivity|]. split; [reflexivity|].
  exact (X19_setup_failure setup_world eq_refl eq_refl).
Defined.

Lemma X13_witness :
  (0 <= clock mock_world)%Z /\
  dateStr mock_world
  = render_date (nth_date (Z.to_nat (local_day (clock mock_world)))) /\
  ((684867600000 <= clock mock_world)%Z ->
   local_day (clock mock_world)
   = ((clock mock_world + 28800000) / 86400000)%Z).
Proof.
  split; [vm_compute; discriminate|].
  apply (X13_date_fields mock_world). vm_compute. discriminate.
Defined.

Lemma X21_witness :
  Reached mock_world mock_props /\
  stack_overflow mock_world (healthData mock_world mock_props) = false /\
  mkdir_fails mock_world = false /\
  write_fault mock_world = WriteCompletes /\
  (disk mock_world !! dataDir mock_world = Some Dir \/
   disk mock_world !! dataDir mock_world = None) /\
  disk mock_world !! filePath mock_world <> Some Dir /\
  exit_status (run mock_world) = 0%Z /\
  exit_status (run (on_disk mock_world (fs (run mock_world)))) = 0%Z /\
  fs (run (on_disk mock_world (fs (run mock_world)))) = fs (run mock_world) /\
  writes (run (on_disk mock_world (fs (run mock_world))))
  = writes (run mock_world).
Proof.
  assert (Hd : disk mock_world !! dataDir mock_world = None)
    by (vm_compute; reflexivity).
  assert (Hf : disk mock_world !! filePath mock_world <> Some Dir)
    by (vm_compute; discriminate).
  split; [exact mock_reached|]. split; [reflexivity|].
  split; [reflexivity|]. split; [reflexivity|].
  split; [right; exact Hd|]. split; [exact Hf|].
  apply (X21_second_run mock_world mock_props);
    [exact mock_reached | reflexivity | reflexivity | reflexivity
    | right; exact Hd | exact Hf].
Defined.

End ExtraWitnesses.
